(** * VirtSquad controller: a shallow embedding of
      internal/controller/virtsquad_controller.go

    The reconciler talks to the cluster through a client (Get, Update,
    Status().Update, List, Create, Delete).  The embedding threads an
    explicit world through every client call and records each call,
    together with its answer, in a trace.  The controller functions are
    written once, over an arbitrary client; a reference control plane
    (module [Cluster]) instantiates the client with an in-memory object
    store so that consecutive passes can be run and evaluated. *)

From stdpp Require Import base strings gmap list fin_maps pretty.
From Stdlib Require Import ZArith Lia.

Open Scope string_scope.
Open Scope list_scope.
Open Scope Z_scope.

(** ** Machine integers *)

(** Go's [int32(x)] conversion and int32 arithmetic: two's complement
    wrap-around to [-2^31, 2^31). *)
Definition int32 (z : Z) : Z := (z + 2 ^ 31) `mod` 2 ^ 32 - 2 ^ 31.

Definition is_int32 (z : Z) : Prop := - 2 ^ 31 ≤ z < 2 ^ 31.

(** ** Errors *)

Inductive Err : Type :=
| ErrNotFound
| ErrAlreadyExists
| ErrConflict
| ErrScheme
| ErrServer (msg : string).

(** A Go [error] value: [None] is [nil]. *)
Definition error : Type := option Err.

(** A Go [(T, error)] pair as returned by the client. *)
Inductive result (A : Type) : Type :=
| Ok (a : A)
| Fail (e : Err).
Arguments Ok {A} a.
Arguments Fail {A} e.

(** errors.IsNotFound *)
Definition IsNotFound (e : Err) : bool :=
  match e with ErrNotFound => true | _ => false end.

(** ** Objects *)

Record OwnerReference : Type := mkOwnerReference {
  ownerKind : string;
  ownerName : string;
  ownerController : bool
}.

Record ContainerPort : Type := mkContainerPort {
  ContainerPortNumber : Z;
  ContainerPortName : string
}.

Record Container : Type := mkContainer {
  ContainerName : string;
  Image : string;
  Ports : list ContainerPort
}.

Record PodCondition : Type := mkPodCondition {
  ConditionType : string;
  ConditionStatus : string
}.

(** corev1.PodReady and corev1.ConditionTrue *)
Definition PodReady : string := "Ready".
Definition ConditionTrue : string := "True".

Record Pod : Type := mkPod {
  PodName : string;
  PodNamespace : string;
  Labels : gmap string string;
  OwnerReferences : list OwnerReference;
  Containers : list Container;
  Conditions : list PodCondition
}.

(** api/v1 TeamMemberSpec: [Name *string], [Replicas *int32]. *)
Record TeamMemberSpec : Type := mkTeamMemberSpec {
  Name : option string;
  Replicas : option Z
}.

Record VirtSquadSpec : Type := mkVirtSquadSpec {
  Oksana : option TeamMemberSpec;
  Kurtis : option TeamMemberSpec;
  Matt : option TeamMemberSpec;
  Kike : option TeamMemberSpec
}.

Record VirtSquadStatus : Type := mkVirtSquadStatus {
  OksanaPods : list string;
  KurtisPods : list string;
  MattPods : list string;
  KikePods : list string;
  TotalPods : Z;
  ReadyPods : Z
}.

(** [&appsv1.VirtSquadStatus{}] *)
Definition emptyStatus : VirtSquadStatus :=
  mkVirtSquadStatus [] [] [] [] 0 0.

Record VirtSquad : Type := mkVirtSquad {
  SquadName : string;
  SquadNamespace : string;
  DeletionTimestamp : option Z;
  Finalizers : list string;
  Spec : VirtSquadSpec;
  Status : VirtSquadStatus
}.

(** req.NamespacedName *)
Record NamespacedName : Type := mkNamespacedName {
  ReqNamespace : string;
  ReqName : string
}.

(** client.InNamespace and client.MatchingLabels *)
Record ListOptions : Type := mkListOptions {
  InNamespace : string;
  MatchingLabels : gmap string string
}.

(** ctrl.Result *)
Record Result : Type := mkResult {
  Requeue : bool;
  RequeueAfter : Z
}.

Definition emptyResult : Result := mkResult false 0.

(** ** controllerutil helpers *)

Definition ContainsFinalizer (o : VirtSquad) (f : string) : bool :=
  bool_decide (f ∈ Finalizers o).

Definition withFinalizers (o : VirtSquad) (fs : list string) : VirtSquad :=
  mkVirtSquad (SquadName o) (SquadNamespace o) (DeletionTimestamp o) fs
    (Spec o) (Status o).

Definition AddFinalizer (o : VirtSquad) (f : string) : VirtSquad :=
  if ContainsFinalizer o f then o
  else withFinalizers o (Finalizers o ++ [f]).

Definition RemoveFinalizer (o : VirtSquad) (f : string) : VirtSquad :=
  withFinalizers o (filter (λ g, g ≠ f) (Finalizers o)).

Definition withStatus (o : VirtSquad) (st : VirtSquadStatus) : VirtSquad :=
  mkVirtSquad (SquadName o) (SquadNamespace o) (DeletionTimestamp o)
    (Finalizers o) (Spec o) st.

(** runtime.Scheme, as far as SetControllerReference consults it: the
    kind registered for VirtSquad objects, if any. *)
Record Scheme : Type := mkScheme {
  virtSquadKind : option string
}.

(** controllerutil.SetControllerReference for a namespaced owner: the
    owner's kind must be known to the scheme, owner and object must live
    in the same namespace, and the object must not already be controlled
    by another owner. *)
Definition SetControllerReference
    (owner : VirtSquad) (pod : Pod) (s : Scheme) : result Pod :=
  match virtSquadKind s with
  | None => Fail ErrScheme
  | Some kind =>
      if negb (bool_decide (SquadNamespace owner = PodNamespace pod)) then
        Fail (ErrServer "cross-namespace owner references are disallowed")
      else if existsb (λ o, ownerController o &&
                 negb (bool_decide (ownerName o = SquadName owner)))
                (OwnerReferences pod) then
        Fail (ErrServer "object is already owned by another controller")
      else
        Ok (mkPod (PodName pod) (PodNamespace pod) (Labels pod)
              (filter (λ o, ownerName o ≠ SquadName owner)
                 (OwnerReferences pod) ++
               [mkOwnerReference kind (SquadName owner) true])
              (Containers pod) (Conditions pod))
  end.

(** ** Client calls, traces and the pass monad *)

(** One entry per client call: the call's argument and its answer. *)
Inductive Event : Type :=
| EvGet (req : NamespacedName) (r : result VirtSquad)
| EvUpdate (obj : VirtSquad) (r : result VirtSquad)
| EvStatusUpdate (obj : VirtSquad) (r : result VirtSquad)
| EvList (opts : ListOptions) (r : result (list Pod))
| EvCreate (pod : Pod) (r : error)
| EvDelete (pod : Pod) (r : error).

Definition isCreate (e : Event) : bool :=
  match e with EvCreate _ _ => true | _ => false end.

Definition isDelete (e : Event) : bool :=
  match e with EvDelete _ _ => true | _ => false end.

Definition isStatusUpdate (e : Event) : bool :=
  match e with EvStatusUpdate _ _ => true | _ => false end.

Definition isList (e : Event) : bool :=
  match e with EvList _ _ => true | _ => false end.

Definition isUpdate (e : Event) : bool :=
  match e with EvUpdate _ _ => true | _ => false end.

(** client.Client over a world [W].  [Update] and [Status().Update]
    overwrite the passed object with the server's answer, which the
    embedding returns. *)
Record Client (W : Type) : Type := mkClient {
  clientGet : NamespacedName → W → result VirtSquad * W;
  clientUpdate : VirtSquad → W → result VirtSquad * W;
  clientStatusUpdate : VirtSquad → W → result VirtSquad * W;
  clientList : ListOptions → W → result (list Pod) * W;
  clientCreate : Pod → W → error * W;
  clientDelete : Pod → W → error * W
}.
Arguments clientGet {W} c.
Arguments clientUpdate {W} c.
Arguments clientStatusUpdate {W} c.
Arguments clientList {W} c.
Arguments clientCreate {W} c.
Arguments clientDelete {W} c.

(** VirtSquadReconciler *)
Record VirtSquadReconciler (W : Type) : Type := mkReconciler {
  client : Client W;
  scheme : Scheme
}.
Arguments client {W} v.
Arguments scheme {W} v.

(** A computation of the pass: from a world to a value, the next world and
    the client calls made, oldest first. *)
Definition M (W A : Type) : Type := W → A * W * list Event.

Definition ret {W A} (a : A) : M W A := λ w, (a, w, []).

Definition bind {W A B} (m : M W A) (f : A → M W B) : M W B :=
  λ w, let '(a, w1, t1) := m w in
       let '(b, w2, t2) := f a w1 in
       (b, w2, t1 ++ t2).

(** The monad is registered with stdpp's classes, which gives the
    [x ← m; k] notation. *)
Global Instance M_ret {W} : MRet (M W) := λ A, ret.
Global Instance M_bind {W} : MBind (M W) := λ A B f m, bind m f.

(** [for _, x := range l { if err := f(x); err != nil { return err } }] *)
Fixpoint forEach {W A} (f : A → M W error) (l : list A) : M W error :=
  match l with
  | [] => ret None
  | x :: l' =>
      e ← f x;
      match e with
      | Some err => ret (Some err)
      | None => forEach f l'
      end
  end.

Definition valueOf {W A} (x : A * W * list Event) : A := x.1.1.
Definition worldOf {W A} (x : A * W * list Event) : W := x.1.2.
Definition traceOf {W A} (x : A * W * list Event) : list Event := x.2.

(** ** The controller *)

Definition virtSquadFinalizer : string := "virtsquad.mshort55.io/finalizer".

(** The label selectors the controller builds. *)
Definition memberLabels (virtSquad : VirtSquad) (memberName : string)
  : gmap string string :=
  {[ "app" := "virtsquad";
     "virtsquad.mshort55.io/member" := memberName;
     "virtsquad.mshort55.io/squad" := SquadName virtSquad ]}.

Definition squadLabels (virtSquad : VirtSquad) : gmap string string :=
  {[ "app" := "virtsquad";
     "virtsquad.mshort55.io/squad" := SquadName virtSquad ]}.

Definition memberListOpts (virtSquad : VirtSquad) (memberName : string)
  : ListOptions :=
  mkListOptions (SquadNamespace virtSquad) (memberLabels virtSquad memberName).

Definition squadListOpts (virtSquad : VirtSquad) : ListOptions :=
  mkListOptions (SquadNamespace virtSquad) (squadLabels virtSquad).

(** isPodReady *)
Definition isPodReady (pod : Pod) : bool :=
  existsb (λ condition,
      bool_decide (ConditionType condition = PodReady) &&
      bool_decide (ConditionStatus condition = ConditionTrue))
    (Conditions pod).

(** [fmt.Sprintf("%s-%d", podBaseName, replica)] *)
Definition podNameFor (podBaseName : string) (replica : Z) : string :=
  podBaseName +:+ "-" +:+ pretty replica.

(** The pod literal of createPodForMember, before the owner reference. *)
Definition podTemplate (virtSquad : VirtSquad) (memberName podBaseName : string)
    (replica : Z) : Pod :=
  mkPod (podNameFor podBaseName replica) (SquadNamespace virtSquad)
    (memberLabels virtSquad memberName) []
    [mkContainer memberName "nginx:latest" [mkContainerPort 80 "http"]] [].

(** The pod createPodForMember hands to Create once the owner reference is
    set, [kind] being the owner's kind in the scheme. *)
Definition ownedPod (virtSquad : VirtSquad)
    (memberName podBaseName kind : string) (replica : Z) : Pod :=
  mkPod (podNameFor podBaseName replica) (SquadNamespace virtSquad)
    (memberLabels virtSquad memberName)
    [mkOwnerReference kind (SquadName virtSquad) true]
    [mkContainer memberName "nginx:latest" [mkContainerPort 80 "http"]] [].

(** What a trace entry is, and whether the call was answered without error. *)
Inductive Kind : Type := KGet | KUpdate | KStatusUpdate | KList | KCreate | KDelete.

Definition kindOf (e : Event) : Kind :=
  match e with
  | EvGet _ _ => KGet
  | EvUpdate _ _ => KUpdate
  | EvStatusUpdate _ _ => KStatusUpdate
  | EvList _ _ => KList
  | EvCreate _ _ => KCreate
  | EvDelete _ _ => KDelete
  end.

Global Instance Kind_eq_dec : EqDecision Kind.
Proof. solve_decision. Defined.

(** The create calls and the delete calls of a trace. *)
Definition creates (t : list Event) : list Event :=
  filter (λ e, kindOf e = KCreate) t.

Definition deletes (t : list Event) : list Event :=
  filter (λ e, kindOf e = KDelete) t.

Definition answer {A} (res : result A) : error :=
  match res with Ok _ => None | Fail err => Some err end.

Definition answerOf (e : Event) : error :=
  match e with
  | EvGet _ res | EvUpdate _ res | EvStatusUpdate _ res => answer res
  | EvList _ res => answer res
  | EvCreate _ err | EvDelete _ err => err
  end.

(** Kind, object name and answer of each call of a trace. *)
Definition subjectOf (e : Event) : string :=
  match e with
  | EvGet req _ => ReqName req
  | EvUpdate obj _ | EvStatusUpdate obj _ => SquadName obj
  | EvList _ _ => ""
  | EvCreate pod _ | EvDelete pod _ => PodName pod
  end.

Definition summary (t : list Event) : list (Kind * string * error) :=
  map (λ e, (kindOf e, subjectOf e, answerOf e)) t.

Section Controller.
Context {W : Type}.
Variable r : VirtSquadReconciler W.

(** The client's methods, each recording the call in the trace. *)
Definition Get (req : NamespacedName) : M W (result VirtSquad) :=
  λ w, let '(res, w') := clientGet (client r) req w in
       (res, w', [EvGet req res]).

Definition Update (obj : VirtSquad) : M W (result VirtSquad) :=
  λ w, let '(res, w') := clientUpdate (client r) obj w in
       (res, w', [EvUpdate obj res]).

Definition StatusUpdate (obj : VirtSquad) : M W (result VirtSquad) :=
  λ w, let '(res, w') := clientStatusUpdate (client r) obj w in
       (res, w', [EvStatusUpdate obj res]).

Definition ListPods (opts : ListOptions) : M W (result (list Pod)) :=
  λ w, let '(res, w') := clientList (client r) opts w in
       (res, w', [EvList opts res]).

Definition Create (pod : Pod) : M W error :=
  λ w, let '(res, w') := clientCreate (client r) pod w in
       (res, w', [EvCreate pod res]).

Definition Delete (pod : Pod) : M W error :=
  λ w, let '(res, w') := clientDelete (client r) pod w in
       (res, w', [EvDelete pod res]).

(** createPodForMember *)
Definition createPodForMember (virtSquad : VirtSquad)
    (memberName podBaseName : string) (replica : Z) : M W error :=
  match SetControllerReference virtSquad
          (podTemplate virtSquad memberName podBaseName replica) (scheme r) with
  | Fail err => ret (Some err)
  | Ok pod => Create pod
  end.

(** deleteTeamMemberPods.  [statusPods] is the slice behind the pointer;
    the function returns its error together with the slice's new value. *)
Definition deleteTeamMemberPods (virtSquad : VirtSquad) (memberName : string)
    (statusPods : list string) : M W (error * list string) :=
  existingPods ← ListPods (memberListOpts virtSquad memberName);
  match existingPods with
  | Fail err => ret (Some err, statusPods)
  | Ok items =>
      e ← forEach Delete items;
      match e with
      | Some err => ret (Some err, statusPods)
      | None => ret (None, [])
      end
  end.

(** reconcileTeamMember.  The scale-up loop runs [i] over
    [currentReplicas, desiredReplicas); the scale-down loop runs [i] from 0
    while [i < podsToDelete && i < int32(len(items))] and deletes
    [items[i]], that is the first [min podsToDelete currentReplicas]
    entries of the listing. *)
Definition reconcileTeamMember (virtSquad : VirtSquad) (memberName : string)
    (memberSpec : option TeamMemberSpec) (statusPods : list string)
  : M W (error * list string) :=
  match memberSpec with
  | None => deleteTeamMemberPods virtSquad memberName statusPods
  | Some ms =>
  match Name ms with
  | None => deleteTeamMemberPods virtSquad memberName statusPods
  | Some podBaseName =>
      let desiredReplicas :=
        match Replicas ms with Some n => n | None => 1 end in
      existingPods ← ListPods (memberListOpts virtSquad memberName);
      match existingPods with
      | Fail err => ret (Some err, statusPods)
      | Ok items =>
          let currentReplicas := int32 (Z.of_nat (length items)) in
          up ← (if currentReplicas <? desiredReplicas then
                  forEach (createPodForMember virtSquad memberName podBaseName)
                    (seqZ currentReplicas (desiredReplicas - currentReplicas))
                else ret None);
          match up with
          | Some err => ret (Some err, statusPods)
          | None =>
              down ← (if currentReplicas >? desiredReplicas then
                        let podsToDelete :=
                          int32 (currentReplicas - desiredReplicas) in
                        forEach Delete
                          (take (Z.to_nat (Z.min podsToDelete currentReplicas))
                             items)
                      else ret None);
              match down with
              | Some err => ret (Some err, statusPods)
              | None => ret (None, map PodName items)
              end
          end
      end
  end
  end.

(** countReadyPods *)
Definition countReady (pods : list Pod) : Z :=
  fold_left (λ readyCount pod,
      if isPodReady pod then int32 (readyCount + 1) else readyCount)
    pods 0.

Definition countReadyPods (virtSquad : VirtSquad) : M W (Z * error) :=
  pods ← ListPods (squadListOpts virtSquad);
  match pods with
  | Fail err => ret (0, Some err)
  | Ok items => ret (countReady items, None)
  end.

(** finalizeVirtSquad *)
Definition finalizeVirtSquad (virtSquad : VirtSquad) : M W error :=
  pods ← ListPods (squadListOpts virtSquad);
  match pods with
  | Fail err => ret (Some err)
  | Ok items => forEach Delete items
  end.

Definition setOksanaPods (st : VirtSquadStatus) (l : list string) :=
  mkVirtSquadStatus l (KurtisPods st) (MattPods st) (KikePods st)
    (TotalPods st) (ReadyPods st).
Definition setKurtisPods (st : VirtSquadStatus) (l : list string) :=
  mkVirtSquadStatus (OksanaPods st) l (MattPods st) (KikePods st)
    (TotalPods st) (ReadyPods st).
Definition setMattPods (st : VirtSquadStatus) (l : list string) :=
  mkVirtSquadStatus (OksanaPods st) (KurtisPods st) l (KikePods st)
    (TotalPods st) (ReadyPods st).
Definition setKikePods (st : VirtSquadStatus) (l : list string) :=
  mkVirtSquadStatus (OksanaPods st) (KurtisPods st) (MattPods st) l
    (TotalPods st) (ReadyPods st).
Definition setTotalPods (st : VirtSquadStatus) (n : Z) :=
  mkVirtSquadStatus (OksanaPods st) (KurtisPods st) (MattPods st)
    (KikePods st) n (ReadyPods st).
Definition setReadyPods (st : VirtSquadStatus) (n : Z) :=
  mkVirtSquadStatus (OksanaPods st) (KurtisPods st) (MattPods st)
    (KikePods st) (TotalPods st) n.

(** Lines 113-131 of Reconcile: totals, ready count, status write. *)
Definition updateStatus (virtSquad : VirtSquad) (status : VirtSquadStatus)
  : M W (Result * error) :=
  let status := setTotalPods status
    (int32 (Z.of_nat (length (OksanaPods status) + length (KurtisPods status) +
                      length (MattPods status) + length (KikePods status))%nat)) in
  '(readyCount, err) ← countReadyPods virtSquad;
  let status :=
    match err with
    | Some _ => status
    | None => setReadyPods status readyCount
    end in
  let virtSquad := withStatus virtSquad status in
  u ← StatusUpdate virtSquad;
  match u with
  | Fail err => ret (emptyResult, Some err)
  | Ok _ => ret (emptyResult, None)
  end.

(** Lines 94-131 of Reconcile: the four groups in order, then the status. *)
Definition reconcileMembers (virtSquad : VirtSquad) : M W (Result * error) :=
  let status := emptyStatus in
  '(err, pods) ← reconcileTeamMember virtSquad "oksana"
                    (Oksana (Spec virtSquad)) (OksanaPods status);
  match err with Some err => ret (emptyResult, Some err) | None =>
  let status := setOksanaPods status pods in
  '(err, pods) ← reconcileTeamMember virtSquad "kurtis"
                    (Kurtis (Spec virtSquad)) (KurtisPods status);
  match err with Some err => ret (emptyResult, Some err) | None =>
  let status := setKurtisPods status pods in
  '(err, pods) ← reconcileTeamMember virtSquad "matt"
                    (Matt (Spec virtSquad)) (MattPods status);
  match err with Some err => ret (emptyResult, Some err) | None =>
  let status := setMattPods status pods in
  '(err, pods) ← reconcileTeamMember virtSquad "kike"
                    (Kike (Spec virtSquad)) (KikePods status);
  match err with Some err => ret (emptyResult, Some err) | None =>
  let status := setKikePods status pods in
  updateStatus virtSquad status
  end end end end.

(** Reconcile *)
Definition Reconcile (req : NamespacedName) : M W (Result * error) :=
  got ← Get req;
  match got with
  | Fail err =>
      if IsNotFound err then ret (emptyResult, None)
      else ret (emptyResult, Some err)
  | Ok virtSquad =>
      match DeletionTimestamp virtSquad with
      | Some _ =>
          if ContainsFinalizer virtSquad virtSquadFinalizer then
            err ← finalizeVirtSquad virtSquad;
            match err with
            | Some err => ret (emptyResult, Some err)
            | None =>
                let virtSquad := RemoveFinalizer virtSquad virtSquadFinalizer in
                u ← Update virtSquad;
                match u with
                | Fail err => ret (emptyResult, Some err)
                | Ok _ => ret (emptyResult, None)
                end
            end
          else ret (emptyResult, None)
      | None =>
          if negb (ContainsFinalizer virtSquad virtSquadFinalizer) then
            let virtSquad := AddFinalizer virtSquad virtSquadFinalizer in
            u ← Update virtSquad;
            match u with
            | Fail err => ret (emptyResult, Some err)
            | Ok virtSquad => reconcileMembers virtSquad
            end
          else reconcileMembers virtSquad
      end
  end.

(** The desired replica count of a present group (lines 143-147). *)
Definition desiredReplicasOf (ms : TeamMemberSpec) : Z :=
  match Replicas ms with Some n => n | None => 1 end.

(** The two loops of reconcileTeamMember (lines 167-174 and 176-185), named
    so that statements can refer to them. *)
Definition scaleUp (virtSquad : VirtSquad) (memberName podBaseName : string)
    (currentReplicas desiredReplicas : Z) : M W error :=
  if currentReplicas <? desiredReplicas then
    forEach (createPodForMember virtSquad memberName podBaseName)
      (seqZ currentReplicas (desiredReplicas - currentReplicas))
  else ret None.

Definition scaleDown (items : list Pod)
    (currentReplicas desiredReplicas : Z) : M W error :=
  if currentReplicas >? desiredReplicas then
    forEach Delete
      (take (Z.to_nat (Z.min (int32 (currentReplicas - desiredReplicas))
                         currentReplicas)) items)
  else ret None.

End Controller.

(** A group is settled at [n] listed workers when its reconciliation has
    nothing to create or delete: no worker for an absent group; otherwise
    the count is not below the desired one and the scale-down loop has an
    empty range. *)
Definition settled (memberSpec : option TeamMemberSpec) (n : nat) : Prop :=
  match memberSpec with
  | None => n = 0%nat
  | Some ms =>
      match Name ms with
      | None => n = 0%nat
      | Some _ =>
          let c := int32 (Z.of_nat n) in
          let d := desiredReplicasOf ms in
          d ≤ c ∧ (d < c → Z.min (int32 (c - d)) c ≤ 0)
      end
  end.

(** What a settled group reports as its members. *)
Definition reportedMembers (memberSpec : option TeamMemberSpec)
    (items : list Pod) : list string :=
  match memberSpec with
  | None => []
  | Some ms =>
      match Name ms with
      | None => []
      | Some _ => map PodName items
      end
  end.

(** The replica counts of a spec are int32 values. *)
Definition replicasInRange (memberSpec : option TeamMemberSpec) : Prop :=
  match memberSpec with
  | Some ms => is_int32 (desiredReplicasOf ms)
  | None => True
  end.

Definition specInRange (spec : VirtSquadSpec) : Prop :=
  replicasInRange (Oksana spec) ∧ replicasInRange (Kurtis spec) ∧
  replicasInRange (Matt spec) ∧ replicasInRange (Kike spec).

(** ** Loops that stop at the first error *)

(** [loopTrace ev l t e]: running a stop-at-first-error loop over [l], where
    the call on [x] answering [a] is recorded as [ev x a], leaves the trace
    [t] and returns [e]. *)
Inductive loopTrace {A : Type} (ev : A → error → Event)
  : list A → list Event → error → Prop :=
| loop_done : loopTrace ev [] [] None
| loop_fail x l err : loopTrace ev (x :: l) [ev x (Some err)] (Some err)
| loop_next x l t e :
    loopTrace ev l t e → loopTrace ev (x :: l) (ev x None :: t) e.

(** ** Shapes of traces *)

(** Every call of [t] was answered without error, except possibly the last
    one, whose error is then [e]. *)
Definition failFast (t : list Event) (e : error) : Prop :=
  Forall (λ c, answerOf c = None) t ∨
  ∃ t' c err, t = t' ++ [c] ∧ Forall (λ c, answerOf c = None) t' ∧
              answerOf c = Some err ∧ e = Some err.

(** A call that changes the cluster. *)
Definition isWrite (c : Event) : Prop :=
  kindOf c = KCreate ∨ kindOf c = KDelete ∨ kindOf c = KUpdate ∨
  kindOf c = KStatusUpdate.

(** Every delete of [t] targets a pod that an earlier listing of [t]
    returned. *)
Definition listedDeletes (t : list Event) : Prop :=
  ∀ t1 p res rest, t = t1 ++ EvDelete p res :: rest →
    ∃ opts items, EvList opts (Ok items) ∈ t1 ∧ p ∈ items.

(** Number of ready pods of a listing. *)
Definition readyAmong (pods : list Pod) : nat :=
  length (filter (λ p, isPodReady p = true) pods).

(** ** Traces as logs of client calls *)

(** [performs c e w w']: made in world [w], the call recorded as [e] is
    answered by the client [c] as [e] records and leaves the world [w']. *)
Definition performs {W} (c : Client W) (e : Event) (w w' : W) : Prop :=
  match e with
  | EvGet req res => clientGet c req w = (res, w')
  | EvUpdate obj res => clientUpdate c obj w = (res, w')
  | EvStatusUpdate obj res => clientStatusUpdate c obj w = (res, w')
  | EvList opts res => clientList c opts w = (res, w')
  | EvCreate pod res => clientCreate c pod w = (res, w')
  | EvDelete pod res => clientDelete c pod w = (res, w')
  end.

(** [replays c w t w']: the calls of [t], made to [c] one after the other
    from the world [w], are answered as recorded and end in the world [w']. *)
Inductive replays {W} (c : Client W) : W → list Event → W → Prop :=
| replays_nil w : replays c w [] w
| replays_cons w e w1 t w2 :
    performs c e w w1 → replays c w1 t w2 → replays c w (e :: t) w2.

(** A computation whose trace is the log of the client calls it made, and
    whose world changes by these calls only. *)
Definition faithful {W A} (c : Client W) (m : M W A) : Prop :=
  ∀ w, replays c w (traceOf (m w)) (worldOf (m w)).
(** * A reference control plane

    An in-memory object store behind the client interface: objects are keyed
    by namespace and name, List filters by namespace and label selector,
    Create refuses an existing name, Delete and Update report a missing
    object, Update keeps the stored status and Status().Update changes
    nothing else, and an object whose deletion was requested is removed by
    the Update that clears its last finalizer.  Calls take effect at once and
    nothing else writes to the store, so two passes run back to back see no
    external change. *)
Module Cluster.

Record State : Type := mkState {
  squads : gmap (string * string) VirtSquad;
  pods : gmap (string * string) Pod
}.

Definition podKey (p : Pod) : string * string := (PodNamespace p, PodName p).

Definition squadKey (o : VirtSquad) : string * string :=
  (SquadNamespace o, SquadName o).

(** A pod is selected when it lives in the namespace and carries every
    label of the selector. *)
Definition selects (opts : ListOptions) (p : Pod) : Prop :=
  PodNamespace p = InNamespace opts ∧
  map_Forall (λ k v, Labels p !! k = Some v) (MatchingLabels opts).

Global Instance selects_dec opts p : Decision (selects opts p).
Proof. unfold selects. apply _. Defined.
Global Typeclasses Opaque selects.

Definition allPods (st : State) : list Pod := (map_to_list (pods st)).*2.

Definition listPods (opts : ListOptions) (st : State) : list Pod :=
  filter (selects opts) (allPods st).

Definition apiGet (req : NamespacedName) (st : State)
  : result VirtSquad * State :=
  match squads st !! (ReqNamespace req, ReqName req) with
  | Some o => (Ok o, st)
  | None => (Fail ErrNotFound, st)
  end.

Definition apiUpdate (obj : VirtSquad) (st : State)
  : result VirtSquad * State :=
  match squads st !! squadKey obj with
  | None => (Fail ErrNotFound, st)
  | Some old =>
      let stored :=
        mkVirtSquad (SquadName obj) (SquadNamespace obj)
          (DeletionTimestamp old) (Finalizers obj) (Spec obj) (Status old) in
      if bool_decide (is_Some (DeletionTimestamp old)) &&
         bool_decide (Finalizers obj = [])
      then (Ok stored, mkState (delete (squadKey obj) (squads st)) (pods st))
      else (Ok stored,
            mkState (<[squadKey obj := stored]> (squads st)) (pods st))
  end.

Definition apiStatusUpdate (obj : VirtSquad) (st : State)
  : result VirtSquad * State :=
  match squads st !! squadKey obj with
  | None => (Fail ErrNotFound, st)
  | Some old =>
      let stored := withStatus old (Status obj) in
      (Ok stored, mkState (<[squadKey obj := stored]> (squads st)) (pods st))
  end.

Definition apiList (opts : ListOptions) (st : State)
  : result (list Pod) * State :=
  (Ok (listPods opts st), st).

Definition apiCreate (p : Pod) (st : State) : error * State :=
  match pods st !! podKey p with
  | Some _ => (Some ErrAlreadyExists, st)
  | None => (None, mkState (squads st) (<[podKey p := p]> (pods st)))
  end.

Definition apiDelete (p : Pod) (st : State) : error * State :=
  match pods st !! podKey p with
  | Some _ => (None, mkState (squads st) (delete (podKey p) (pods st)))
  | None => (Some ErrNotFound, st)
  end.

Definition api : Client State :=
  mkClient State apiGet apiUpdate apiStatusUpdate apiList apiCreate apiDelete.

Definition reconciler : VirtSquadReconciler State :=
  mkReconciler State api (mkScheme (Some "VirtSquad")).

(** Every object is stored under its own namespace and name. *)
Definition wf (st : State) : Prop :=
  map_Forall (λ k o, squadKey o = k) (squads st) ∧
  map_Forall (λ k p, podKey p = k) (pods st).

(** Number of stored pods satisfying [P]. *)
Definition count (P : Pod → Prop) `{∀ p, Decision (P p)} (st : State) : nat :=
  length (filter P (allPods st)).

(** The pods of group [memberName] of a squad. *)
Definition inGroup (virtSquad : VirtSquad) (memberName : string) : Pod → Prop :=
  selects (memberListOpts virtSquad memberName).

Global Instance inGroup_dec virtSquad memberName p :
  Decision (inGroup virtSquad memberName p).
Proof. unfold inGroup. apply _. Defined.
Global Typeclasses Opaque inGroup.

(** The ready pods of a group. *)
Definition readyInGroup (virtSquad : VirtSquad) (memberName : string)
    (p : Pod) : Prop :=
  inGroup virtSquad memberName p ∧ isPodReady p = true.

Global Instance readyInGroup_dec virtSquad memberName p :
  Decision (readyInGroup virtSquad memberName p).
Proof. unfold readyInGroup. apply _. Defined.
Global Typeclasses Opaque readyInGroup.

(** The ready pods the ready count sees. *)
Definition readyInSquad (virtSquad : VirtSquad) (p : Pod) : Prop :=
  selects (squadListOpts virtSquad) p ∧ isPodReady p = true.

Global Instance readyInSquad_dec virtSquad p :
  Decision (readyInSquad virtSquad p).
Proof. unfold readyInSquad. apply _. Defined.
Global Typeclasses Opaque readyInSquad.

(** The group label of a pod is one of the four reconciled groups. *)
Definition knownMember (p : Pod) : Prop :=
  Labels p !! "virtsquad.mshort55.io/member" = Some "oksana" ∨
  Labels p !! "virtsquad.mshort55.io/member" = Some "kurtis" ∨
  Labels p !! "virtsquad.mshort55.io/member" = Some "matt" ∨
  Labels p !! "virtsquad.mshort55.io/member" = Some "kike".

Global Instance knownMember_dec p : Decision (knownMember p).
Proof. unfold knownMember. apply _. Defined.
Global Typeclasses Opaque knownMember.

(** Ready pods of the squad outside the four groups. *)
Definition readyStray (virtSquad : VirtSquad) (p : Pod) : Prop :=
  readyInSquad virtSquad p ∧ ¬ knownMember p.

Global Instance readyStray_dec virtSquad p : Decision (readyStray virtSquad p).
Proof. unfold readyStray. apply _. Defined.
Global Typeclasses Opaque readyStray.

(** [s] is [st] after reconciling other groups than [memberName]: pods
    outside the reconciled groups are counted as before. *)
Definition untouched (P : Pod → Prop) (st s : State) : Prop :=
  ∀ (Q : Pod → Prop) (HQ : ∀ p, Decision (Q p)),
    (∀ p, P p → ¬ Q p) → count Q s = count Q st.

(** Group [memberName], reconciled from [st], as seen in the later store
    [s]: its ready pods are covered by the reported members, which were
    listed in [st], and the group is settled. *)
Definition groupDone (virtSquad : VirtSquad) (memberName : string)
    (memberSpec : option TeamMemberSpec) (reported : list string)
    (st s : State) : Prop :=
  (count (readyInGroup virtSquad memberName) s ≤ length reported)%nat ∧
  (length reported ≤ count (inGroup virtSquad memberName) st)%nat ∧
  (replicasInRange memberSpec →
   Z.of_nat (length (allPods st)) < 2 ^ 31 →
   settled memberSpec (count (inGroup virtSquad memberName) s)).

(** Every group of the squad is settled in the store. *)
Definition allSettled (virtSquad : VirtSquad) (st : State) : Prop :=
  settled (Oksana (Spec virtSquad)) (count (inGroup virtSquad "oksana") st) ∧
  settled (Kurtis (Spec virtSquad)) (count (inGroup virtSquad "kurtis") st) ∧
  settled (Matt (Spec virtSquad)) (count (inGroup virtSquad "matt") st) ∧
  settled (Kike (Spec virtSquad)) (count (inGroup virtSquad "kike") st).

Global Instance wf_dec st : Decision (wf st).
Proof. unfold wf. apply _. Defined.
Global Typeclasses Opaque wf.

(** The store holds the desired number of pods of a group: the replica
    count of a group with a base name, when that count is not negative,
    and none for an absent group. *)
Definition converged (virtSquad : VirtSquad) (memberName : string)
    (memberSpec : option TeamMemberSpec) (st : State) : Prop :=
  match memberSpec with
  | Some ms =>
      match Name ms with
      | Some _ =>
          0 ≤ desiredReplicasOf ms →
          Z.of_nat (count (inGroup virtSquad memberName) st)
            = desiredReplicasOf ms
      | None => count (inGroup virtSquad memberName) st = 0%nat
      end
  | None => count (inGroup virtSquad memberName) st = 0%nat
  end.

(** A store from lists of objects. *)
Definition stateOf (os : list VirtSquad) (ps : list Pod) : State :=
  mkState (list_to_map (map (λ o, (squadKey o, o)) os))
          (list_to_map (map (λ p, (podKey p, p)) ps)).

End Cluster.

(** * Scripted failures

    A client wrapped with a script of answers for the coming calls: [Some e]
    makes the next call fail with [e] without reaching the wrapped client,
    [None] lets it through; once the script is used up every call goes
    through. *)
Module Faulty.
Section Faulty.
Context {W : Type}.
Variable c : Client W.

Definition next {A : Type} (fail : Err → A) (call : W → A * W)
    (s : W * list error) : A * (W * list error) :=
  match s.2 with
  | Some err :: script => (fail err, (s.1, script))
  | None :: script => let '(a, w) := call s.1 in (a, (w, script))
  | [] => let '(a, w) := call s.1 in (a, (w, []))
  end.

Definition api : Client (W * list error) :=
  mkClient (W * list error)
    (λ req, next Fail (clientGet c req))
    (λ obj, next Fail (clientUpdate c obj))
    (λ obj, next Fail (clientStatusUpdate c obj))
    (λ opts, next Fail (clientList c opts))
    (λ p, next Some (clientCreate c p))
    (λ p, next Some (clientDelete c p)).

End Faulty.

(** The reference control plane behind a failure script. *)
Definition reconciler : VirtSquadReconciler (Cluster.State * list error) :=
  mkReconciler _ (api Cluster.api) (mkScheme (Some "VirtSquad")).

End Faulty.

(** * Sample objects *)
Module Sample.

Definition group (base : string) (n : Z) : option TeamMemberSpec :=
  Some (mkTeamMemberSpec (Some base) (Some n)).

Definition noGroups : VirtSquadSpec := mkVirtSquadSpec None None None None.

(** A squad [team] in namespace [default]. *)
Definition squad (deleting : bool) (finalizers : list string)
    (spec : VirtSquadSpec) : VirtSquad :=
  mkVirtSquad "team" "default" (if deleting then Some 1 else None)
    finalizers spec emptyStatus.

Definition req : NamespacedName := mkNamespacedName "default" "team".

(** A worker of squad [team] for the group [member]. *)
Definition worker (member name : string) (ready : bool) : Pod :=
  mkPod name "default"
    {[ "app" := "virtsquad";
       "virtsquad.mshort55.io/member" := member;
       "virtsquad.mshort55.io/squad" := "team" ]}
    [mkOwnerReference "VirtSquad" "team" true]
    [mkContainer member "nginx:latest" [mkContainerPort 80 "http"]]
    (if ready then [mkPodCondition PodReady ConditionTrue] else []).

Definition marker : list string := [virtSquadFinalizer].

Definition oksanaOnly (base : string) (n : Z) : VirtSquadSpec :=
  mkVirtSquadSpec (group base n) None None None.

(** Status counters of the stored squad [team]. *)
Definition storedCounts (st : Cluster.State) : option (Z * Z) :=
  (λ o, (TotalPods (Status o), ReadyPods (Status o))) <$>
  Cluster.squads st !! ("default", "team").

(** Names of the stored workers selected by [opts]. *)
Definition storedNames (opts : ListOptions) (st : Cluster.State) : list string :=
  map PodName (Cluster.listPods opts st).

End Sample.
(** * Facts about the controller, for any client *)


Lemma loopTrace_ok {A} (ev : A → error → Event) l t :
  loopTrace ev l t None ↔ t = map (λ x, ev x None) l.
Proof.
  split.
  - remember None as e eqn:He. induction 1; simplify_eq; simpl; [done|].
    f_equal. auto.
  - intros ->. induction l; simpl; constructor; done.
Qed.

Lemma loopTrace_fail {A} (ev : A → error → Event) l t err :
  loopTrace ev l t (Some err) →
  ∃ k x, l !! k = Some x ∧
         t = map (λ x, ev x None) (take k l) ++ [ev x (Some err)].
Proof.
  remember (Some err) as e eqn:He. induction 1; simplify_eq.
  - by exists 0%nat, x.
  - destruct IHloopTrace as (k & y & Hk & ->); [done|].
    by exists (S k), y.
Qed.

Lemma loopTrace_calls {A} (ev : A → error → Event) (P : Event → bool) l t e :
  (∀ x a, P (ev x a) = true) → loopTrace ev l t e → forallb P t = true.
Proof.
  intros HP. induction 1; simpl; rewrite ?HP; auto.
Qed.

Lemma loopTrace_length {A} (ev : A → error → Event) l t e :
  loopTrace ev l t e → (length t ≤ length l)%nat.
Proof. induction 1; simpl; lia. Qed.

Section ControllerFacts.
Context {W : Type}.
Variable r : VirtSquadReconciler W.

Lemma bind_run {A B} (m : M W A) (f : A → M W B) w :
  (m ≫= f) w =
  (valueOf (f (valueOf (m w)) (worldOf (m w))),
   worldOf (f (valueOf (m w)) (worldOf (m w))),
   traceOf (m w) ++ traceOf (f (valueOf (m w)) (worldOf (m w)))).
Proof.
  unfold mbind, M_bind, bind, valueOf, worldOf, traceOf.
  destruct (m w) as [[a w1] t1]; simpl.
  by destruct (f a w1) as [[b w2] t2].
Qed.

Lemma ListPods_run opts w :
  ListPods r opts w =
  ((clientList (client r) opts w).1, (clientList (client r) opts w).2,
   [EvList opts (clientList (client r) opts w).1]).
Proof. unfold ListPods. by destruct (clientList _ _ _). Qed.

Lemma Delete_run p w :
  Delete r p w =
  ((clientDelete (client r) p w).1, (clientDelete (client r) p w).2,
   [EvDelete p (clientDelete (client r) p w).1]).
Proof. unfold Delete. by destruct (clientDelete _ _ _). Qed.

Lemma Create_run p w :
  Create r p w =
  ((clientCreate (client r) p w).1, (clientCreate (client r) p w).2,
   [EvCreate p (clientCreate (client r) p w).1]).
Proof. unfold Create. by destruct (clientCreate _ _ _). Qed.

Lemma forEach_cons {A} (f : A → M W error) x l w :
  forEach f (x :: l) w =
  match valueOf (f x w) with
  | Some err => (Some err, worldOf (f x w), traceOf (f x w) ++ [])
  | None =>
      (valueOf (forEach f l (worldOf (f x w))),
       worldOf (forEach f l (worldOf (f x w))),
       traceOf (f x w) ++ traceOf (forEach f l (worldOf (f x w))))
  end.
Proof.
  simpl. rewrite bind_run. destruct (f x w) as [[[err|] w1] t1]; reflexivity.
Qed.

Lemma forEach_loop {A} (f : A → M W error) (ev : A → error → Event) l w :
  (∀ x w, traceOf (f x w) = [ev x (valueOf (f x w))]) →
  loopTrace ev l (traceOf (forEach f l w)) (valueOf (forEach f l w)).
Proof.
  intros Hf. revert w. induction l as [|x l IH]; intros w.
  - constructor.
  - rewrite forEach_cons. specialize (Hf x w).
    destruct (f x w) as [[[err|] w1] t1]; unfold traceOf, valueOf in *;
      simpl in *; subst t1; constructor.
    apply IH.
Qed.

Lemma forEach_Delete_loop l w :
  loopTrace EvDelete l (traceOf (forEach (Delete r) l w))
    (valueOf (forEach (Delete r) l w)).
Proof. apply forEach_loop. intros p w'. by rewrite Delete_run. Qed.

Lemma forEach_Create_loop (mk : Z → Pod) l w :
  loopTrace (λ i, EvCreate (mk i)) l
    (traceOf (forEach (λ i, Create r (mk i)) l w))
    (valueOf (forEach (λ i, Create r (mk i)) l w)).
Proof.
  apply (forEach_loop (λ i, Create r (mk i)) (λ i, EvCreate (mk i))).
  intros i w'. by rewrite Create_run.
Qed.

(** reconcileTeamMember on a present group with a base name, call by call. *)
Lemma reconcileTeamMember_run virtSquad memberName ms podBaseName statusPods w :
  Name ms = Some podBaseName →
  reconcileTeamMember r virtSquad memberName (Some ms) statusPods w =
  let desired := desiredReplicasOf ms in
  let opts := memberListOpts virtSquad memberName in
  let lw := clientList (client r) opts w in
  match lw.1 with
  | Fail err => ((Some err, statusPods), lw.2, [EvList opts (Fail err)])
  | Ok items =>
      let cur := int32 (Z.of_nat (length items)) in
      let up := scaleUp r virtSquad memberName podBaseName cur desired lw.2 in
      match valueOf up with
      | Some err =>
          ((Some err, statusPods), worldOf up,
           EvList opts (Ok items) :: traceOf up)
      | None =>
          let down := scaleDown r items cur desired (worldOf up) in
          match valueOf down with
          | Some err =>
              ((Some err, statusPods), worldOf down,
               EvList opts (Ok items) :: traceOf up ++ traceOf down)
          | None =>
              ((None, map PodName items), worldOf down,
               EvList opts (Ok items) :: traceOf up ++ traceOf down)
          end
      end
  end.
Proof.
  intros HN. unfold reconcileTeamMember, scaleUp, scaleDown, desiredReplicasOf.
  rewrite HN. cbv zeta.
  set (d := match Replicas ms with Some x => x | None => 1 end).
  unfold mbind, M_bind, bind, ListPods, valueOf, worldOf, traceOf, ret.
  destruct (clientList (client r) _ w) as [[items|err] w1];
    cbn [fst snd]; [|done].
  set (c := int32 (Z.of_nat (length items))).
  set (up := if c <? d then _ else _).
  set (down := if c >? d then _ else _).
  destruct (up w1) as [[[err|] w2] t2]; cbn [fst snd app];
    [by rewrite app_nil_r|].
  destruct (down w2) as [[[err|] w3] t3]; cbn [fst snd app];
    by rewrite app_nil_r.
Qed.

(** deleteTeamMemberPods, call by call. *)
Lemma deleteTeamMemberPods_run virtSquad memberName statusPods w :
  deleteTeamMemberPods r virtSquad memberName statusPods w =
  let opts := memberListOpts virtSquad memberName in
  let lw := clientList (client r) opts w in
  match lw.1 with
  | Fail err => ((Some err, statusPods), lw.2, [EvList opts (Fail err)])
  | Ok items =>
      let del := forEach (Delete r) items lw.2 in
      match valueOf del with
      | Some err =>
          ((Some err, statusPods), worldOf del,
           EvList opts (Ok items) :: traceOf del)
      | None => ((None, []), worldOf del, EvList opts (Ok items) :: traceOf del)
      end
  end.
Proof.
  unfold deleteTeamMemberPods.
  unfold mbind, M_bind, bind, ListPods, valueOf, worldOf, traceOf, ret.
  destruct (clientList (client r) _ w) as [[items|err] w1];
    cbn [fst snd]; [|done].
  destruct (forEach _ items w1) as [[[err|] w2] t2]; cbn [fst snd app];
    by rewrite app_nil_r.
Qed.

(** finalizeVirtSquad, call by call. *)
Lemma finalizeVirtSquad_run virtSquad w :
  finalizeVirtSquad r virtSquad w =
  let opts := squadListOpts virtSquad in
  let lw := clientList (client r) opts w in
  match lw.1 with
  | Fail err => (Some err, lw.2, [EvList opts (Fail err)])
  | Ok items =>
      let del := forEach (Delete r) items lw.2 in
      (valueOf del, worldOf del, EvList opts (Ok items) :: traceOf del)
  end.
Proof.
  unfold finalizeVirtSquad.
  unfold mbind, M_bind, bind, ListPods, valueOf, worldOf, traceOf, ret.
  destruct (clientList (client r) _ w) as [[items|err] w1];
    cbn [fst snd]; [|done].
  by destruct (forEach _ items w1) as [[e w2] t2].
Qed.

Lemma SetControllerReference_template virtSquad memberName podBaseName i kind s :
  virtSquadKind s = Some kind →
  SetControllerReference virtSquad
    (podTemplate virtSquad memberName podBaseName i) s =
  Ok (ownedPod virtSquad memberName podBaseName kind i).
Proof.
  intros Hk. unfold SetControllerReference, podTemplate, ownedPod.
  rewrite Hk. cbn [PodNamespace PodName OwnerReferences Labels Containers
                   Conditions existsb].
  by rewrite bool_decide_eq_true_2.
Qed.

Lemma createPodForMember_known virtSquad memberName podBaseName kind i :
  virtSquadKind (scheme r) = Some kind →
  createPodForMember r virtSquad memberName podBaseName i =
  Create r (ownedPod virtSquad memberName podBaseName kind i).
Proof.
  intros Hk. unfold createPodForMember.
  by rewrite (SetControllerReference_template _ _ _ _ kind).
Qed.

Lemma createPodForMember_unknown virtSquad memberName podBaseName i :
  virtSquadKind (scheme r) = None →
  createPodForMember r virtSquad memberName podBaseName i = ret (Some ErrScheme).
Proof.
  intros Hk. unfold createPodForMember, SetControllerReference. by rewrite Hk.
Qed.

Lemma forEach_ext {A} (f g : A → M W error) l w :
  (∀ x w, f x w = g x w) → forEach f l w = forEach g l w.
Proof.
  intros Hfg. revert w. induction l as [|x l IH]; intros w; [done|].
  rewrite !forEach_cons, Hfg. destruct (valueOf (g x w)); [done|].
  by rewrite IH.
Qed.

(** The scale-up loop is a stop-at-first-error run of Create over the
    owned pods of the missing ordinals. *)
Lemma scaleUp_loop virtSquad memberName podBaseName kind c d w :
  virtSquadKind (scheme r) = Some kind →
  loopTrace (λ i, EvCreate (ownedPod virtSquad memberName podBaseName kind i))
    (if c <? d then seqZ c (d - c) else [])
    (traceOf (scaleUp r virtSquad memberName podBaseName c d w))
    (valueOf (scaleUp r virtSquad memberName podBaseName c d w)).
Proof.
  intros Hk. unfold scaleUp. destruct (c <? d); [|constructor].
  rewrite (forEach_ext _
    (λ i, Create r (ownedPod virtSquad memberName podBaseName kind i)))
    by (intros; by rewrite (createPodForMember_known _ _ _ kind)).
  apply forEach_Create_loop.
Qed.

Lemma scaleUp_unknown virtSquad memberName podBaseName c d w :
  virtSquadKind (scheme r) = None → c < d →
  scaleUp r virtSquad memberName podBaseName c d w = (Some ErrScheme, w, []).
Proof.
  intros Hk Hcd. unfold scaleUp.
  destruct (Z.ltb_spec c d); [|lia].
  rewrite seqZ_cons by lia. simpl.
  by rewrite createPodForMember_unknown.
Qed.

Lemma scaleUp_skip virtSquad memberName podBaseName c d w :
  d ≤ c → scaleUp r virtSquad memberName podBaseName c d w = (None, w, []).
Proof. intros Hcd. unfold scaleUp. by destruct (Z.ltb_spec c d); [lia|]. Qed.

Lemma scaleDown_skip items c d w :
  c ≤ d → scaleDown r items c d w = (None, w, []).
Proof.
  intros Hcd. unfold scaleDown.
  destruct (Z.gtb_spec c d); [lia|done].
Qed.

Lemma scaleDown_loop items c d w :
  loopTrace EvDelete
    (if c >? d then take (Z.to_nat (Z.min (int32 (c - d)) c)) items else [])
    (traceOf (scaleDown r items c d w)) (valueOf (scaleDown r items c d w)).
Proof.
  unfold scaleDown. destruct (c >? d); [|constructor].
  apply forEach_Delete_loop.
Qed.



(** Outcome of a stop-at-first-error loop, spelled out on the trace. *)
Lemma loopTrace_cases {A} (ev : A → error → Event) l t e :
  loopTrace ev l t e →
  (e = None ∧ t = map (λ x, ev x None) l) ∨
  (∃ k x err, e = Some err ∧ l !! k = Some x ∧
              t = map (λ x, ev x None) (take k l) ++ [ev x (Some err)]).
Proof.
  intros H. destruct e as [err|].
  - right. apply loopTrace_fail in H as (k & x & Hk & ->). by exists k, x, err.
  - left. split; [done|]. by apply loopTrace_ok.
Qed.

(** countReadyPods and the status write, call by call. *)
Lemma updateStatus_run virtSquad status w :
  updateStatus r virtSquad status w =
  let total :=
    int32 (Z.of_nat (length (OksanaPods status) + length (KurtisPods status) +
                     length (MattPods status) + length (KikePods status))%nat) in
  let lw := clientList (client r) (squadListOpts virtSquad) w in
  let status' :=
    match lw.1 with
    | Ok items => setReadyPods (setTotalPods status total) (countReady items)
    | Fail _ => setTotalPods status total
    end in
  let obj := withStatus virtSquad status' in
  let uw := clientStatusUpdate (client r) obj lw.2 in
  ((emptyResult, answer uw.1), uw.2,
   [EvList (squadListOpts virtSquad) lw.1; EvStatusUpdate obj uw.1]).
Proof.
  unfold updateStatus, countReadyPods.
  unfold mbind, M_bind, bind, ListPods, StatusUpdate, valueOf, worldOf,
    traceOf, ret.
  cbv zeta.
  destruct (clientList (client r) _ w) as [[items|err] w1]; cbn [fst snd app].
  - by destruct (clientStatusUpdate (client r) _ w1) as [[o|err] w2].
  - by destruct (clientStatusUpdate (client r) _ w1) as [[o|e2] w2].
Qed.

(** The four groups and the status write, call by call. *)
Lemma reconcileMembers_run virtSquad w :
  reconcileMembers r virtSquad w =
  let o1 := reconcileTeamMember r virtSquad "oksana"
              (Oksana (Spec virtSquad)) [] w in
  match (valueOf o1).1 with
  | Some err => ((emptyResult, Some err), worldOf o1, traceOf o1)
  | None =>
  let o2 := reconcileTeamMember r virtSquad "kurtis"
              (Kurtis (Spec virtSquad)) [] (worldOf o1) in
  match (valueOf o2).1 with
  | Some err => ((emptyResult, Some err), worldOf o2, traceOf o1 ++ traceOf o2)
  | None =>
  let o3 := reconcileTeamMember r virtSquad "matt"
              (Matt (Spec virtSquad)) [] (worldOf o2) in
  match (valueOf o3).1 with
  | Some err =>
      ((emptyResult, Some err), worldOf o3,
       traceOf o1 ++ traceOf o2 ++ traceOf o3)
  | None =>
  let o4 := reconcileTeamMember r virtSquad "kike"
              (Kike (Spec virtSquad)) [] (worldOf o3) in
  match (valueOf o4).1 with
  | Some err =>
      ((emptyResult, Some err), worldOf o4,
       traceOf o1 ++ traceOf o2 ++ traceOf o3 ++ traceOf o4)
  | None =>
  let u := updateStatus r virtSquad
             (mkVirtSquadStatus (valueOf o1).2 (valueOf o2).2 (valueOf o3).2
                (valueOf o4).2 0 0) (worldOf o4) in
  (valueOf u, worldOf u,
   traceOf o1 ++ traceOf o2 ++ traceOf o3 ++ traceOf o4 ++ traceOf u)
  end end end end.
Proof.
  unfold reconcileMembers. cbv zeta.
  unfold mbind, M_bind, bind, valueOf, worldOf, traceOf, ret.
  cbn [OksanaPods KurtisPods MattPods KikePods emptyStatus].
  destruct (reconcileTeamMember r virtSquad "oksana" _ _ w)
    as [[[[e1|] l1] w1] t1]; cbn [fst snd]; [by rewrite app_nil_r|].
  destruct (reconcileTeamMember r virtSquad "kurtis" _ _ w1)
    as [[[[e2|] l2] w2] t2]; cbn [fst snd]; [by rewrite app_nil_r|].
  destruct (reconcileTeamMember r virtSquad "matt" _ _ w2)
    as [[[[e3|] l3] w3] t3]; cbn [fst snd]; [by rewrite app_nil_r|].
  destruct (reconcileTeamMember r virtSquad "kike" _ _ w3)
    as [[[[e4|] l4] w4] t4]; cbn [fst snd]; [by rewrite app_nil_r|].
  cbn.
  by destruct (updateStatus r virtSquad _ w4) as [[v w5] t5].
Qed.

(** Reconcile, call by call. *)
Lemma Reconcile_run req w :
  Reconcile r req w =
  let gw := clientGet (client r) req w in
  match gw.1 with
  | Fail err =>
      ((emptyResult, if IsNotFound err then None else Some err), gw.2,
       [EvGet req (Fail err)])
  | Ok virtSquad =>
      match DeletionTimestamp virtSquad with
      | Some _ =>
          if ContainsFinalizer virtSquad virtSquadFinalizer then
            let f := finalizeVirtSquad r virtSquad gw.2 in
            match valueOf f with
            | Some err =>
                ((emptyResult, Some err), worldOf f,
                 EvGet req (Ok virtSquad) :: traceOf f)
            | None =>
                let obj := RemoveFinalizer virtSquad virtSquadFinalizer in
                let uw := clientUpdate (client r) obj (worldOf f) in
                ((emptyResult, answer uw.1), uw.2,
                 EvGet req (Ok virtSquad) :: traceOf f ++ [EvUpdate obj uw.1])
            end
          else ((emptyResult, None), gw.2, [EvGet req (Ok virtSquad)])
      | None =>
          if ContainsFinalizer virtSquad virtSquadFinalizer then
            let m := reconcileMembers r virtSquad gw.2 in
            (valueOf m, worldOf m, EvGet req (Ok virtSquad) :: traceOf m)
          else
            let obj := AddFinalizer virtSquad virtSquadFinalizer in
            let uw := clientUpdate (client r) obj gw.2 in
            match uw.1 with
            | Fail err =>
                ((emptyResult, Some err), uw.2,
                 [EvGet req (Ok virtSquad); EvUpdate obj (Fail err)])
            | Ok virtSquad' =>
                let m := reconcileMembers r virtSquad' uw.2 in
                (valueOf m, worldOf m,
                 EvGet req (Ok virtSquad) :: EvUpdate obj (Ok virtSquad') ::
                 traceOf m)
            end
      end
  end.
Proof.
  unfold Reconcile.
  unfold mbind, M_bind, bind, Get, Update, valueOf, worldOf, traceOf, ret.
  cbv zeta.
  destruct (clientGet (client r) req w) as [[virtSquad|err] w1];
    cbn [fst snd]; [|by destruct (IsNotFound err)].
  destruct (DeletionTimestamp virtSquad) as [ts|].
  - destruct (ContainsFinalizer virtSquad virtSquadFinalizer); [|done].
    destruct (finalizeVirtSquad r virtSquad w1) as [[[err|] w2] t2];
      cbn [fst snd app]; [by rewrite app_nil_r|].
    by destruct (clientUpdate (client r) _ w2) as [[o|err] w3].
  - destruct (ContainsFinalizer virtSquad virtSquadFinalizer); cbn [negb].
    + by destruct (reconcileMembers r virtSquad w1) as [[v w2] t2].
    + destruct (clientUpdate (client r) _ w1) as [[o|err] w2];
        cbn [fst snd app]; [|done].
      by destruct (reconcileMembers r o w2) as [[v w3] t3].
Qed.

Lemma loopTrace_Forall {A} (ev : A → error → Event) (P : Event → Prop) l t e :
  (∀ x a, P (ev x a)) → loopTrace ev l t e → Forall P t.
Proof. intros HP. induction 1; repeat constructor; auto. Qed.

Lemma scaleUp_trace virtSquad memberName podBaseName c d w :
  Forall (λ e, kindOf e = KCreate)
    (traceOf (scaleUp r virtSquad memberName podBaseName c d w)).
Proof.
  destruct (virtSquadKind (scheme r)) as [kind|] eqn:Hk.
  - eapply loopTrace_Forall; [|by apply (scaleUp_loop _ _ _ kind)]. done.
  - destruct (decide (c < d)).
    + rewrite scaleUp_unknown by done. constructor.
    + rewrite scaleUp_skip by lia. constructor.
Qed.

Lemma scaleDown_trace items c d w :
  Forall (λ e, kindOf e = KDelete) (traceOf (scaleDown r items c d w)).
Proof. eapply loopTrace_Forall; [|apply scaleDown_loop]. done. Qed.

(** A group's reconciliation lists the group's workers first; every later
    call is a create or a delete. *)
Lemma reconcileTeamMember_trace virtSquad memberName memberSpec statusPods w :
  ∃ res t,
    traceOf (reconcileTeamMember r virtSquad memberName memberSpec statusPods w)
    = EvList (memberListOpts virtSquad memberName) res :: t ∧
    Forall (λ e, kindOf e = KCreate ∨ kindOf e = KDelete) t.
Proof.
  assert (Hdel : ∃ res t,
    traceOf (deleteTeamMemberPods r virtSquad memberName statusPods w)
    = EvList (memberListOpts virtSquad memberName) res :: t ∧
    Forall (λ e, kindOf e = KCreate ∨ kindOf e = KDelete) t).
  { rewrite deleteTeamMemberPods_run. cbv zeta.
    destruct (clientList (client r) _ w) as [[items|err] w1]; cbn [fst snd].
    - pose proof (forEach_Delete_loop items w1) as Hloop.
      apply (loopTrace_Forall _
               (λ e, kindOf e = KCreate ∨ kindOf e = KDelete)) in Hloop;
        [|by right].
      destruct (valueOf (forEach (Delete r) items w1)); by eexists _, _.
    - eexists _, []. by split. }
  destruct memberSpec as [ms|]; [|done].
  destruct (Name ms) as [podBaseName|] eqn:HN.
  2:{ unfold reconcileTeamMember. by rewrite HN. }
  rewrite (reconcileTeamMember_run _ _ _ podBaseName) by done. cbv zeta.
  destruct (clientList (client r) _ w) as [[items|err] w1]; cbn [fst snd].
  2:{ eexists _, []. by split. }
  set (c := int32 (Z.of_nat (length items))). set (d := desiredReplicasOf ms).
  pose proof (scaleUp_trace virtSquad memberName podBaseName c d w1) as Hup.
  assert (Hup' : Forall (λ e, kindOf e = KCreate ∨ kindOf e = KDelete)
            (traceOf (scaleUp r virtSquad memberName podBaseName c d w1))).
  { eapply Forall_impl; [exact Hup|]. by left. }
  destruct (valueOf (scaleUp r virtSquad memberName podBaseName c d w1)).
  { by eexists _, _. }
  pose proof (scaleDown_trace items c d
    (worldOf (scaleUp r virtSquad memberName podBaseName c d w1))) as Hdown.
  assert (Hdown' : Forall (λ e, kindOf e = KCreate ∨ kindOf e = KDelete)
            (traceOf (scaleDown r items c d
               (worldOf (scaleUp r virtSquad memberName podBaseName c d w1))))).
  { eapply Forall_impl; [exact Hdown|]. by right. }
  destruct (valueOf (scaleDown r items c d _));
    eexists _, _; (split; [reflexivity|]); by apply Forall_app.
Qed.

(** Cutting a list at an element that its first part cannot contain. *)
Lemma app_cut {A} (P : A → Prop) (p m t : list A) x rest :
  Forall P p → ¬ P x → p ++ m = t ++ x :: rest →
  ∃ t', t = p ++ t' ∧ m = t' ++ x :: rest.
Proof.
  intros Hp Hx. revert t. induction Hp as [|a p Ha Hp IH]; intros t Heq.
  - by exists t.
  - destruct t as [|b t]; simplify_eq/=; [done|].
    destruct (IH t) as (t' & -> & ->); [done|]. by exists t'.
Qed.


Lemma int32_small z : is_int32 z → int32 z = z.
Proof. unfold is_int32, int32. intros Hz. rewrite Z.mod_small; lia. Qed.

Lemma int32_range z : is_int32 (int32 z).
Proof.
  unfold is_int32, int32.
  pose proof (Z.mod_pos_bound (z + 2 ^ 31) (2 ^ 32)). lia.
Qed.

(** A settled group is only listed. *)
Lemma settled_quiet virtSquad memberName memberSpec statusPods w items w1 :
  clientList (client r) (memberListOpts virtSquad memberName) w = (Ok items, w1) →
  settled memberSpec (length items) →
  reconcileTeamMember r virtSquad memberName memberSpec statusPods w =
  ((None, reportedMembers memberSpec items), w1,
   [EvList (memberListOpts virtSquad memberName) (Ok items)]).
Proof.
  intros HL Hs.
  assert (Habsent : length items = 0%nat →
    deleteTeamMemberPods r virtSquad memberName statusPods w =
    ((None, []), w1, [EvList (memberListOpts virtSquad memberName) (Ok items)])).
  { intros Hn. destruct items; [|done].
    rewrite deleteTeamMemberPods_run. cbv zeta. by rewrite HL. }
  unfold settled, reportedMembers in *.
  destruct memberSpec as [ms|]; [|by apply Habsent].
  destruct (Name ms) as [podBaseName|] eqn:HN.
  2:{ unfold reconcileTeamMember. rewrite HN. by apply Habsent. }
  rewrite (reconcileTeamMember_run _ _ _ podBaseName) by done.
  cbv zeta in *. rewrite HL. cbn [fst snd]. destruct Hs as [Hge Hmin].
  rewrite scaleUp_skip by done. cbn [valueOf worldOf traceOf fst snd app].
  unfold scaleDown.
  destruct (Z.gtb_spec (int32 (Z.of_nat (length items))) (desiredReplicasOf ms))
    as [Hgt|_]; [|done].
  rewrite Z2Nat.nonpos by (apply Hmin; lia). done.
Qed.

(** ** Every trace is the log of the client calls made *)

Lemma replays_app (c : Client W) w t1 w1 t2 w2 :
  replays c w t1 w1 → replays c w1 t2 w2 → replays c w (t1 ++ t2) w2.
Proof.
  induction 1 as [|w e w' t w'' He _ IH]; intros H2; [done|].
  cbn [app]. econstructor; [exact He|]. by apply IH.
Qed.

Lemma faithful_ret {A} (a : A) : faithful (client r) (ret a : M W A).
Proof. intros w. constructor. Qed.

Lemma faithful_bind {A B} (m : M W A) (f : A → M W B) :
  faithful (client r) m → (∀ a, faithful (client r) (f a)) →
  faithful (client r) (m ≫= f).
Proof.
  intros Hm Hf w. rewrite bind_run.
  exact (replays_app _ _ _ _ _ _ (Hm w) (Hf _ _)).
Qed.

Lemma faithful_Get req : faithful (client r) (Get r req).
Proof.
  intros w. unfold Get, traceOf, worldOf.
  destruct (clientGet (client r) req w) as [res w'] eqn:E; cbn [fst snd].
  econstructor; [exact E|constructor].
Qed.

Lemma faithful_Update obj : faithful (client r) (Update r obj).
Proof.
  intros w. unfold Update, traceOf, worldOf.
  destruct (clientUpdate (client r) obj w) as [res w'] eqn:E; cbn [fst snd].
  econstructor; [exact E|constructor].
Qed.

Lemma faithful_StatusUpdate obj : faithful (client r) (StatusUpdate r obj).
Proof.
  intros w. unfold StatusUpdate, traceOf, worldOf.
  destruct (clientStatusUpdate (client r) obj w) as [res w'] eqn:E;
    cbn [fst snd].
  econstructor; [exact E|constructor].
Qed.

Lemma faithful_ListPods opts : faithful (client r) (ListPods r opts).
Proof.
  intros w. unfold ListPods, traceOf, worldOf.
  destruct (clientList (client r) opts w) as [res w'] eqn:E; cbn [fst snd].
  econstructor; [exact E|constructor].
Qed.

Lemma faithful_Create pod : faithful (client r) (Create r pod).
Proof.
  intros w. unfold Create, traceOf, worldOf.
  destruct (clientCreate (client r) pod w) as [res w'] eqn:E; cbn [fst snd].
  econstructor; [exact E|constructor].
Qed.

Lemma faithful_Delete pod : faithful (client r) (Delete r pod).
Proof.
  intros w. unfold Delete, traceOf, worldOf.
  destruct (clientDelete (client r) pod w) as [res w'] eqn:E; cbn [fst snd].
  econstructor; [exact E|constructor].
Qed.

Lemma faithful_forEach {A} (f : A → M W error) l :
  (∀ x, faithful (client r) (f x)) → faithful (client r) (forEach f l).
Proof.
  intros Hf. induction l as [|x l IH]; cbn [forEach].
  - apply faithful_ret.
  - apply faithful_bind; [apply Hf|].
    intros [err|]; [apply faithful_ret|exact IH].
Qed.

Lemma faithful_createPodForMember virtSquad memberName podBaseName i :
  faithful (client r) (createPodForMember r virtSquad memberName podBaseName i).
Proof.
  unfold createPodForMember.
  destruct (SetControllerReference _ _ _); [apply faithful_Create|].
  apply faithful_ret.
Qed.

Ltac faithful_steps :=
  repeat first
    [ apply faithful_ret
    | apply faithful_Get | apply faithful_Update | apply faithful_StatusUpdate
    | apply faithful_ListPods | apply faithful_Create | apply faithful_Delete
    | apply faithful_createPodForMember
    | apply faithful_forEach; intros ?
    | apply faithful_bind; [|intros ?]
    | match goal with
      | |- faithful _ (match ?x with _ => _ end) => destruct x
      end ].

Lemma faithful_deleteTeamMemberPods virtSquad memberName statusPods :
  faithful (client r) (deleteTeamMemberPods r virtSquad memberName statusPods).
Proof. unfold deleteTeamMemberPods. faithful_steps. Qed.

Lemma faithful_reconcileTeamMember virtSquad memberName memberSpec statusPods :
  faithful (client r)
    (reconcileTeamMember r virtSquad memberName memberSpec statusPods).
Proof.
  unfold reconcileTeamMember.
  destruct memberSpec as [ms|]; [|apply faithful_deleteTeamMemberPods].
  destruct (Name ms); [|apply faithful_deleteTeamMemberPods].
  cbv zeta. faithful_steps.
Qed.

Lemma faithful_finalizeVirtSquad virtSquad :
  faithful (client r) (finalizeVirtSquad r virtSquad).
Proof. unfold finalizeVirtSquad. faithful_steps. Qed.

Lemma faithful_updateStatus virtSquad status :
  faithful (client r) (updateStatus r virtSquad status).
Proof. unfold updateStatus, countReadyPods. cbv zeta. faithful_steps. Qed.

Lemma faithful_reconcileMembers virtSquad :
  faithful (client r) (reconcileMembers r virtSquad).
Proof.
  unfold reconcileMembers. cbv zeta.
  repeat first
    [ apply faithful_ret | apply faithful_updateStatus
    | apply faithful_reconcileTeamMember
    | apply faithful_bind; [|intros ?]
    | match goal with
      | |- faithful _ (match ?x with _ => _ end) => destruct x
      end ].
Qed.

Lemma faithful_Reconcile req : faithful (client r) (Reconcile r req).
Proof.
  unfold Reconcile.
  repeat first
    [ apply faithful_ret | apply faithful_Get | apply faithful_Update
    | apply faithful_reconcileMembers | apply faithful_finalizeVirtSquad
    | apply faithful_bind; [|intros ?]
    | match goal with
      | |- faithful _ (match ?x with _ => _ end) => destruct x
      | |- faithful _ (let x := _ in _) => cbv zeta
      end ].
Qed.

End ControllerFacts.

(** * The group reconciler *)

Section GroupReconciler.
Context {W : Type}.
Variable r : VirtSquadReconciler W.

(** C8, as the code has it.  Scale-up calls Create once per missing ordinal
    and stops at the first failure.  When the listing of a group with a base
    name shows fewer workers than desired, the calls after the listing are
    creates for the ordinals [current, current+1, ...] in this order, the
    worker of ordinal [i] being named [<baseName>-<i>], living in the
    owner's namespace and carrying the group's three labels.  Either every
    create up to ordinal [desired-1] is answered without error -- then
    exactly [desired - current] workers were created and no error is
    returned -- or the first failing create ends the loop and its error is
    returned, the workers of the later ordinals never being asked for.  A
    scheme that does not know the owner's kind fails the first worker
    before any create.  The trace is the log of the client's own calls: the
    world after the reconciliation is the world these calls leave. *)
Theorem scale_up_creates_until_first_failure
    virtSquad memberName ms podBaseName statusPods w items w1 :
  Name ms = Some podBaseName →
  clientList (client r) (memberListOpts virtSquad memberName) w = (Ok items, w1) →
  int32 (Z.of_nat (length items)) < desiredReplicasOf ms →
  let current := int32 (Z.of_nat (length items)) in
  let desired := desiredReplicasOf ms in
  let out := reconcileTeamMember r virtSquad memberName (Some ms) statusPods w in
  let opts := memberListOpts virtSquad memberName in
  let worker := ownedPod virtSquad memberName podBaseName in
  replays (client r) w (traceOf out) (worldOf out) ∧
  (∀ kind i, PodName (worker kind i) = podBaseName +:+ "-" +:+ pretty i ∧
             PodNamespace (worker kind i) = SquadNamespace virtSquad ∧
             Labels (worker kind i) = memberLabels virtSquad memberName) ∧
  match virtSquadKind (scheme r) with
  | None =>
      valueOf out = (Some ErrScheme, statusPods) ∧
      traceOf out = [EvList opts (Ok items)]
  | Some kind =>
      (valueOf out = (None, map PodName items) ∧
       traceOf out = EvList opts (Ok items) ::
         map (λ i, EvCreate (worker kind i) None)
             (seqZ current (desired - current)) ∧
       Z.of_nat (length (creates (traceOf out))) = desired - current)
      ∨
      (∃ (k : nat) err,
         Z.of_nat k < desired - current ∧
         valueOf out = (Some err, statusPods) ∧
         traceOf out = EvList opts (Ok items) ::
           map (λ i, EvCreate (worker kind i) None)
               (seqZ current (Z.of_nat k)) ++
           [EvCreate (worker kind (current + Z.of_nat k)) (Some err)])
  end.
Proof.
  intros HN HL Hlt current desired out opts worker.
  split; [apply faithful_reconcileTeamMember|].
  split; [done|].
  unfold out. rewrite (reconcileTeamMember_run r _ _ _ podBaseName) by done.
  cbv zeta. rewrite HL. cbn [fst snd]. fold current desired opts.
  rewrite (scaleDown_skip r items current desired) by lia.
  destruct (virtSquadKind (scheme r)) as [kind|] eqn:Hk.
  2:{ rewrite scaleUp_unknown by done. by cbn. }
  pose proof (scaleUp_loop r virtSquad memberName podBaseName kind
                current desired w1 Hk) as Hloop.
  destruct (Z.ltb_spec current desired) as [_|]; [|lia].
  fold worker in Hloop.
  destruct (scaleUp r virtSquad memberName podBaseName current desired w1)
    as [[e w2] t2]; unfold valueOf, worldOf, traceOf in *;
    cbn [fst snd] in *.
  apply loopTrace_cases in Hloop as [[-> ->]|(k & i & err & -> & Hk' & ->)].
  - left. cbn [fst snd]. rewrite app_nil_r. split; [done|]. split; [done|].
    unfold creates. rewrite filter_cons_False by (cbn; congruence).
    assert (Hf : ∀ l : list Z,
      filter (λ e, kindOf e = KCreate)
        (map (λ i, EvCreate (worker kind i) None) l) =
      map (λ i, EvCreate (worker kind i) None) l).
    { induction l as [|x l IH]; [done|]. cbn [map].
      rewrite filter_cons_True by done. by rewrite IH. }
    rewrite Hf, length_map, length_seqZ. lia.
  - right. cbn [fst snd].
    apply lookup_seqZ in Hk' as [-> Hlt'].
    exists k, err. split; [done|]. split; [done|]. do 2 f_equal.
    f_equal.
    replace (desired - current) with (Z.of_nat k + (desired - current - Z.of_nat k))
      by lia.
    rewrite seqZ_app by lia.
    rewrite take_app_length'; [done|]. rewrite length_seqZ. lia.
Qed.

(** C10, as the code has it.  A present group whose base name is null is
    reconciled exactly like an absent group, and the null name is never
    reported as an error: after the listing by the group's membership key
    the listed workers are deleted one by one in listing order.  A failed
    listing is returned as the error.  When every delete is answered
    without error, every listed worker was deleted and the reported member
    list is empty.  A failing delete ends the loop and is returned as the
    error: the later workers are not deleted and the member list is left as
    it was passed in.  The trace is the log of the client's own calls: the
    world after the reconciliation is the world these calls leave. *)
Theorem null_base_name_is_absent_group
    virtSquad memberName replicas statusPods w :
  let out := reconcileTeamMember r virtSquad memberName
               (Some (mkTeamMemberSpec None replicas)) statusPods w in
  let opts := memberListOpts virtSquad memberName in
  out = reconcileTeamMember r virtSquad memberName None statusPods w ∧
  replays (client r) w (traceOf out) (worldOf out) ∧
  match (clientList (client r) opts w).1 with
  | Fail err =>
      valueOf out = (Some err, statusPods) ∧ traceOf out = [EvList opts (Fail err)]
  | Ok items =>
      (valueOf out = (None, []) ∧
       traceOf out = EvList opts (Ok items) :: map (λ p, EvDelete p None) items)
      ∨
      (∃ k p err, items !! k = Some p ∧
         valueOf out = (Some err, statusPods) ∧
         traceOf out = EvList opts (Ok items) ::
           map (λ p, EvDelete p None) (take k items) ++ [EvDelete p (Some err)])
  end.
Proof.
  intros out opts. split; [done|].
  split; [apply faithful_reconcileTeamMember|].
  unfold out. cbn [reconcileTeamMember Name].
  rewrite deleteTeamMemberPods_run. cbv zeta. fold opts.
  destruct (clientList (client r) opts w) as [[items|err] w1]; cbn [fst snd];
    [|done].
  pose proof (forEach_Delete_loop r items w1) as Hloop.
  destruct (forEach (Delete r) items w1) as [[e w2] t2].
  unfold valueOf, worldOf, traceOf in *; cbn [fst snd] in *.
  apply loopTrace_cases in Hloop as [[-> ->]|(k & p & err & -> & Hk & ->)].
  - by left.
  - right. by exists k, p, err.
Qed.

(** C2, as the code has it.  A negative replica count raises no validation
    error and causes no create, whether or not the group has a base name.
    A failed listing is returned as the error.  After a listing of fewer
    than 2^31 workers the reconciliation deletes, in listing order, the
    victims: for a group with a base name the first
    [min (int32 (current - replicas)) current] listed workers -- all of them
    when [current - replicas] fits an int32 -- and for a group without a
    base name every listed worker.  It stops with an error only at a delete
    that fails, leaving the member list as passed in; otherwise it reports
    the listed names for a group with a base name and the empty list for a
    group without.  The trace is the log of the client's own calls. *)
Theorem negative_replicas_delete_listed_workers
    virtSquad memberName ms n statusPods w res w1 :
  Replicas ms = Some n →
  n < 0 →
  clientList (client r) (memberListOpts virtSquad memberName) w = (res, w1) →
  let out := reconcileTeamMember r virtSquad memberName (Some ms) statusPods w in
  let opts := memberListOpts virtSquad memberName in
  replays (client r) w (traceOf out) (worldOf out) ∧
  match res with
  | Fail err =>
      valueOf out = (Some err, statusPods) ∧
      traceOf out = [EvList opts (Fail err)]
  | Ok items =>
      Z.of_nat (length items) < 2 ^ 31 →
      let current := Z.of_nat (length items) in
      let victims :=
        match Name ms with
        | Some _ => take (Z.to_nat (Z.min (int32 (current - n)) current)) items
        | None => items
        end in
      let reported :=
        match Name ms with Some _ => map PodName items | None => [] end in
      (current - n < 2 ^ 31 → victims = items) ∧
      creates (traceOf out) = [] ∧
      ((valueOf out = (None, reported) ∧
        traceOf out = EvList opts (Ok items) :: map (λ p, EvDelete p None) victims)
       ∨
       (∃ k p err, victims !! k = Some p ∧
          valueOf out = (Some err, statusPods) ∧
          traceOf out = EvList opts (Ok items) ::
            map (λ p, EvDelete p None) (take k victims) ++
            [EvDelete p (Some err)]))
  end.
Proof.
  intros HR Hn HL out opts.
  split; [apply faithful_reconcileTeamMember|].
  assert (Hdel : ∀ l : list Pod, ∀ t e,
    loopTrace EvDelete l t e → creates t = []).
  { intros l t e. induction 1; [done|done|].
    unfold creates. by rewrite filter_cons_False by (cbn; congruence). }
  destruct (Name ms) as [podBaseName|] eqn:HN.
  - unfold out. rewrite (reconcileTeamMember_run r _ _ _ podBaseName) by done.
    cbv zeta. rewrite HL. cbn [fst snd]. fold opts.
    destruct res as [items|err]; [|done].
    unfold desiredReplicasOf. rewrite HR. intros Hlen.
    assert (Hcur : int32 (Z.of_nat (length items)) = Z.of_nat (length items)).
    { unfold int32. rewrite Z.mod_small; lia. }
    rewrite Hcur. rewrite scaleUp_skip by lia.
    cbn [valueOf worldOf traceOf fst snd app].
    pose proof (scaleDown_loop r items (Z.of_nat (length items)) n w1) as Hloop.
    destruct (Z.gtb_spec (Z.of_nat (length items)) n) as [_|]; [|lia].
    destruct (scaleDown r items (Z.of_nat (length items)) n w1)
      as [[e w2] t2].
    unfold valueOf, worldOf, traceOf in *; cbn [fst snd] in *.
    split.
    { intros Hfit. apply firstn_all2.
      unfold int32. rewrite Z.mod_small by lia. lia. }
    split.
    { destruct e; cbn [fst snd]; unfold creates;
        rewrite filter_cons_False by (cbn; congruence);
        rewrite ?app_nil_r; exact (Hdel _ _ _ Hloop). }
    apply loopTrace_cases in Hloop as [[-> ->]|(k & p & err & -> & Hk & ->)].
    + left. cbn [fst snd]. by rewrite ?app_nil_r.
    + right. by exists k, p, err.
  - unfold out. cbn [reconcileTeamMember]. rewrite HN.
    rewrite deleteTeamMemberPods_run. cbv zeta. rewrite HL. fold opts.
    cbn [fst snd].
    destruct res as [items|err]; [|done].
    pose proof (forEach_Delete_loop r items w1) as Hloop.
    destruct (forEach (Delete r) items w1) as [[e w2] t2].
    unfold valueOf, worldOf, traceOf in *; cbn [fst snd] in *.
    intros _. split; [done|]. split.
    { destruct e; cbn [fst snd]; unfold creates;
        rewrite filter_cons_False by (cbn; congruence);
        rewrite ?app_nil_r; exact (Hdel _ _ _ Hloop). }
    apply loopTrace_cases in Hloop as [[-> ->]|(k & p & err & -> & Hk & ->)].
    + by left.
    + right. by exists k, p, err.
Qed.

End GroupReconciler.

(** * Finalization and the top-level pass *)

Section TopLevel.
Context {W : Type}.
Variable r : VirtSquadReconciler W.



(** C9, as the code has it.  Deletion ordering.  A pass over a resource
    marked for deletion that carries the completion marker lists the owned
    workers and deletes them one by one.  The update that removes the
    marker is issued if and only if neither the listing nor any delete was
    answered with an error; it is then the last call of the pass, after a
    successful delete of every listed worker, and the pass returns the
    update's answer, so the marker is cleared only when that update itself
    succeeds.  When the listing fails, or a delete fails -- NotFound for a
    worker that is already gone included -- the pass ends there with that
    error and issues no update: the marker is retained.  The trace is the
    log of the client's own calls: the world after the pass is the world
    these calls leave. *)
Theorem marker_cleared_only_after_workers_deleted req w virtSquad w1 ts :
  clientGet (client r) req w = (Ok virtSquad, w1) →
  DeletionTimestamp virtSquad = Some ts →
  ContainsFinalizer virtSquad virtSquadFinalizer = true →
  let out := Reconcile r req w in
  let opts := squadListOpts virtSquad in
  let cleared := RemoveFinalizer virtSquad virtSquadFinalizer in
  ContainsFinalizer cleared virtSquadFinalizer = false ∧
  replays (client r) w (traceOf out) (worldOf out) ∧
  ((∃ obj res, EvUpdate obj res ∈ traceOf out) ↔
   Forall (λ e, kindOf e = KUpdate ∨ answerOf e = None) (traceOf out)) ∧
  ((∃ items res,
      traceOf out =
        EvGet req (Ok virtSquad) :: EvList opts (Ok items) ::
        map (λ p, EvDelete p None) items ++ [EvUpdate cleared res] ∧
      valueOf out = (emptyResult, answer res))
   ∨
   (∃ err,
      traceOf out = [EvGet req (Ok virtSquad); EvList opts (Fail err)] ∧
      valueOf out = (emptyResult, Some err))
   ∨
   (∃ items k p err,
      items !! k = Some p ∧
      traceOf out =
        EvGet req (Ok virtSquad) :: EvList opts (Ok items) ::
        map (λ p, EvDelete p None) (take k items) ++ [EvDelete p (Some err)] ∧
      valueOf out = (emptyResult, Some err))).
Proof.
  intros HG HD HF out opts cleared.
  split.
  { unfold cleared, ContainsFinalizer, RemoveFinalizer. cbn.
    apply bool_decide_eq_false. intros Hin.
    apply list_elem_of_filter in Hin as [Hne _]. done. }
  split; [apply faithful_Reconcile|].
  assert (Hquiet : ∀ l : list Pod,
    Forall (λ e, kindOf e = KUpdate ∨ answerOf e = None)
      (map (λ p, EvDelete p None) l)).
  { intros l. apply Forall_forall. intros e He.
    apply list_elem_of_fmap in He as (p & -> & _). by right. }
  assert (Hnone : ∀ (l : list Pod) obj res,
    EvUpdate obj res ∉ map (λ p, EvDelete p None) l).
  { intros l obj res He. apply list_elem_of_fmap in He as (p & ? & _). done. }
  unfold out. rewrite Reconcile_run. cbv zeta. rewrite HG. cbn [fst snd].
  rewrite HD, HF. fold cleared.
  rewrite finalizeVirtSquad_run. cbv zeta. fold opts.
  destruct (clientList (client r) opts w1) as [[items|err] w2]; cbn [fst snd].
  2:{ cbn [valueOf worldOf traceOf fst snd app]. split.
      - split.
        + intros (obj & res & Hin).
          apply elem_of_cons in Hin as [?|Hin]; [done|].
          by apply list_elem_of_singleton in Hin.
        + intros Hall. apply Forall_cons in Hall as [_ Hall].
          apply Forall_cons in Hall as [[?|?] _]; done.
      - right. left. by exists err. }
  pose proof (forEach_Delete_loop r items w2) as Hloop.
  destruct (forEach (Delete r) items w2) as [[e w3] t3].
  unfold valueOf, worldOf, traceOf in *; cbn [fst snd] in *.
  apply loopTrace_cases in Hloop as [[-> ->]|(k & p & err & -> & Hk & ->)];
    cbn [fst snd app].
  - split.
    + split; [intros _|intros _].
      * apply Forall_cons_2; [by right|]. apply Forall_cons_2; [by right|].
        apply Forall_app. split; [apply Hquiet|].
        apply Forall_cons_2; [by left|constructor].
      * eexists _, _.
        rewrite !elem_of_cons, elem_of_app, list_elem_of_singleton.
        right. right. right. reflexivity.
    + left. by eexists _, _.
  - split.
    + split.
      * intros (obj & res & Hin).
        apply elem_of_cons in Hin as [?|Hin]; [done|].
        apply elem_of_cons in Hin as [?|Hin]; [done|].
        rewrite ?app_nil_r in Hin.
        apply elem_of_app in Hin as [Hin|Hin]; [by apply Hnone in Hin|].
        by apply list_elem_of_singleton in Hin.
      * intros Hall. apply Forall_cons in Hall as [_ Hall].
        apply Forall_cons in Hall as [_ Hall]. rewrite ?app_nil_r in Hall.
        apply Forall_app in Hall as [_ Hall].
        apply Forall_cons in Hall as [[?|?] _]; done.
    + right. right. exists items, k, p, err. by rewrite ?app_nil_r.
Qed.

(** The status write closes every pass whose four groups reconcile. *)
Lemma reconcileMembers_trace virtSquad w :
  let out := reconcileMembers r virtSquad w in
  ∃ tg, Forall (λ e, kindOf e = KCreate ∨ kindOf e = KDelete ∨
                     ∃ g res, e = EvList (memberListOpts virtSquad g) res) tg ∧
    ((∃ err, valueOf out = (emptyResult, Some err) ∧ traceOf out = tg) ∨
     (∃ status w',
        ReadyPods status = 0 ∧
        valueOf out = valueOf (updateStatus r virtSquad status w') ∧
        traceOf out = tg ++ traceOf (updateStatus r virtSquad status w'))).
Proof.
  intros out. unfold out. rewrite reconcileMembers_run. cbv zeta.
  set (P := λ e, kindOf e = KCreate ∨ kindOf e = KDelete ∨
                 ∃ g res, e = EvList (memberListOpts virtSquad g) res).
  assert (HP : ∀ g spec sp w0,
    Forall P (traceOf (reconcileTeamMember r virtSquad g spec sp w0))).
  { intros g spec sp w0.
    destruct (reconcileTeamMember_trace r virtSquad g spec sp w0)
      as (res & t & -> & Ht).
    constructor; [right; right; by exists g, res|].
    eapply Forall_impl; [exact Ht|]. intros e [?|?]; [by left|right; by left]. }
  set (o1 := reconcileTeamMember r virtSquad "oksana" _ _ w).
  pose proof (HP "oksana" (Oksana (Spec virtSquad)) [] w) as H1. fold o1 in H1.
  destruct (valueOf o1).1 as [err|].
  { exists (traceOf o1). split; [done|]. left. by exists err. }
  set (o2 := reconcileTeamMember r virtSquad "kurtis" _ _ (worldOf o1)).
  pose proof (HP "kurtis" (Kurtis (Spec virtSquad)) [] (worldOf o1)) as H2.
  fold o2 in H2.
  destruct (valueOf o2).1 as [err|].
  { exists (traceOf o1 ++ traceOf o2). split; [by apply Forall_app|].
    left. by exists err. }
  set (o3 := reconcileTeamMember r virtSquad "matt" _ _ (worldOf o2)).
  pose proof (HP "matt" (Matt (Spec virtSquad)) [] (worldOf o2)) as H3.
  fold o3 in H3.
  destruct (valueOf o3).1 as [err|].
  { exists (traceOf o1 ++ traceOf o2 ++ traceOf o3).
    split; [by rewrite !Forall_app|]. left. by exists err. }
  set (o4 := reconcileTeamMember r virtSquad "kike" _ _ (worldOf o3)).
  pose proof (HP "kike" (Kike (Spec virtSquad)) [] (worldOf o3)) as H4.
  fold o4 in H4.
  destruct (valueOf o4).1 as [err|].
  { exists (traceOf o1 ++ traceOf o2 ++ traceOf o3 ++ traceOf o4).
    split; [by rewrite !Forall_app|]. left. by exists err. }
  exists (traceOf o1 ++ traceOf o2 ++ traceOf o3 ++ traceOf o4).
  split; [by rewrite !Forall_app|]. right.
  eexists _, _. split; [|split; [reflexivity|]]; [done|].
  cbn [traceOf snd]. by rewrite <- !(assoc_L (++)).
Qed.

(** C4, as the code has it.  For a non-deleting resource without the
    completion marker the pass adds the marker and persists the resource;
    when that update fails the pass stops there with the update's error;
    when it succeeds the same pass goes on, with the object the update
    returned, to the per-group reconciliation -- starting with the listing
    of the first group -- and, when no group fails, ends with the status
    write. *)
Theorem marker_added_and_pass_continues req w virtSquad w1 :
  clientGet (client r) req w = (Ok virtSquad, w1) →
  DeletionTimestamp virtSquad = None →
  ContainsFinalizer virtSquad virtSquadFinalizer = false →
  let out := Reconcile r req w in
  let marked := AddFinalizer virtSquad virtSquadFinalizer in
  ContainsFinalizer marked virtSquadFinalizer = true ∧
  match clientUpdate (client r) marked w1 with
  | (Fail err, w2) =>
      out = ((emptyResult, Some err), w2,
             [EvGet req (Ok virtSquad); EvUpdate marked (Fail err)])
  | (Ok virtSquad', w2) =>
      let rest := reconcileMembers r virtSquad' w2 in
      out = (valueOf rest, worldOf rest,
             EvGet req (Ok virtSquad) :: EvUpdate marked (Ok virtSquad') ::
             traceOf rest) ∧
      (∃ res t, traceOf rest =
                EvList (memberListOpts virtSquad' "oksana") res :: t) ∧
      ((valueOf rest).2 = None →
       ∃ obj res, last (traceOf rest) = Some (EvStatusUpdate obj res))
  end.
Proof.
  intros HG HD HF out marked. split.
  { unfold marked, AddFinalizer. rewrite HF.
    unfold ContainsFinalizer. cbn. apply bool_decide_eq_true. set_solver. }
  unfold out. rewrite Reconcile_run. cbv zeta. rewrite HG. cbn [fst snd].
  rewrite HD, HF. fold marked.
  destruct (clientUpdate (client r) marked w1) as [[virtSquad'|err] w2];
    cbn [fst snd]; [|done].
  split; [done|]. split.
  - rewrite reconcileMembers_run. cbv zeta.
    destruct (reconcileTeamMember_trace r virtSquad' "oksana"
                (Oksana (Spec virtSquad')) [] w2) as (res & t & Ht & _).
    repeat match goal with
           | |- context [match ?x with Some _ => _ | None => _ end] =>
               destruct x
           end; cbn [traceOf snd]; rewrite Ht;
      by eexists _, _.
  - destruct (reconcileMembers_trace virtSquad' w2)
      as (tg & _ & [(err & Hv & _)|(status & w' & _ & Hv & Ht)]).
    + rewrite Hv. done.
    + intros _. rewrite Ht, updateStatus_run. cbv zeta. cbn [traceOf snd].
      eexists _, _. rewrite last_app. reflexivity.
Qed.


End TopLevel.

(** * Facts about the reference control plane *)

Module ClusterFacts.
Import Cluster.

Lemma allPods_insert st k p :
  pods st !! k = None →
  allPods (mkState (squads st) (<[k:=p]> (pods st))) ≡ₚ p :: allPods st.
Proof.
  intros Hk. unfold allPods. cbn [pods].
  by rewrite map_to_list_insert.
Qed.

Lemma allPods_delete st k q :
  pods st !! k = Some q →
  allPods st ≡ₚ q :: allPods (mkState (squads st) (delete k (pods st))).
Proof.
  intros Hk. unfold allPods. cbn [pods].
  by rewrite <- (map_to_list_delete (pods st) k q).
Qed.

Lemma elem_of_allPods st p :
  p ∈ allPods st ↔ ∃ k, pods st !! k = Some p.
Proof.
  unfold allPods. rewrite list_elem_of_fmap. split.
  - intros ([k q] & -> & Hin). exists k. by apply elem_of_map_to_list.
  - intros (k & Hk). exists (k, p). split; [done|].
    by apply elem_of_map_to_list.
Qed.

Lemma wf_lookup st p :
  wf st → p ∈ allPods st → pods st !! podKey p = Some p.
Proof.
  intros [_ Hwf] Hin. apply elem_of_allPods in Hin as (k & Hk).
  by rewrite (Hwf k p Hk).
Qed.

Lemma wf_NoDup st : wf st → NoDup (allPods st).
Proof.
  intros [_ Hwf]. unfold allPods.
  apply NoDup_fmap_2_strong; [|apply NoDup_map_to_list].
  intros [k1 p1] [k2 p2] H1 H2 Heq. cbn in Heq. subst p2.
  apply elem_of_map_to_list in H1, H2.
  by rewrite <- (Hwf k1 p1 H1), <- (Hwf k2 p1 H2).
Qed.

Section Counting.
Context (P : Pod → Prop) `{∀ p, Decision (P p)}.

Lemma count_perm_cons st st' p :
  allPods st' ≡ₚ p :: allPods st →
  count P st' = (count P st + (if decide (P p) then 1 else 0))%nat.
Proof.
  intros Hp. unfold count. rewrite Hp, filter_cons.
  destruct (decide (P p)); simpl; lia.
Qed.

End Counting.

(** Create and Delete against the store. *)
Lemma apiCreate_ok p st st' :
  wf st → apiCreate p st = (None, st') →
  wf st' ∧ squads st' = squads st ∧ allPods st' ≡ₚ p :: allPods st.
Proof.
  intros [Hs Hp]. unfold apiCreate.
  destruct (pods st !! podKey p) eqn:Hk; [done|]. intros [= <-].
  split; [split; [done|]|split; [done|by apply allPods_insert]].
  cbn. by apply map_Forall_insert_2.
Qed.

Lemma apiDelete_listed p st :
  wf st → p ∈ allPods st →
  ∃ st', apiDelete p st = (None, st') ∧
    wf st' ∧ squads st' = squads st ∧ allPods st ≡ₚ p :: allPods st'.
Proof.
  intros Hwf Hin. pose proof (wf_lookup st p Hwf Hin) as Hk.
  unfold apiDelete. rewrite Hk. eexists. split; [done|].
  destruct Hwf as [Hs Hp].
  split; [split; [done|]|split; [done|by apply allPods_delete]].
  cbn. by apply map_Forall_delete.
Qed.

(** Deleting listed workers always succeeds and removes exactly them. *)
Lemma delete_loop l st :
  wf st → NoDup l → Forall (λ p, p ∈ allPods st) l →
  ∃ st', forEach (Delete reconciler) l st =
           (None, st', map (λ p, EvDelete p None) l) ∧
    wf st' ∧ squads st' = squads st ∧ allPods st ≡ₚ l ++ allPods st'.
Proof.
  revert st. induction l as [|p l IH]; intros st Hwf Hnd Hin.
  - by exists st.
  - apply NoDup_cons in Hnd as [Hp Hnd].
    apply Forall_cons in Hin as [Hpin Hin].
    destruct (apiDelete_listed p st Hwf Hpin) as (st1 & Hd & Hwf1 & Hs1 & Hperm).
    destruct (IH st1) as (st' & Hrun & Hwf' & Hs' & Hperm'); [done|done| |].
    { rewrite Forall_forall in Hin |- *. intros q Hq.
      specialize (Hin q Hq). rewrite Hperm in Hin.
      apply elem_of_cons in Hin as [->|?]; done. }
    exists st'. rewrite forEach_cons, Delete_run.
    change (clientDelete (client reconciler) p st) with (apiDelete p st).
    rewrite Hd. cbn [valueOf worldOf traceOf fst snd]. rewrite Hrun.
    split; [done|]. split; [done|]. split; [congruence|].
    rewrite Hperm, Hperm'. done.
Qed.

(** A create loop that returns no error added exactly its pods. *)
Lemma create_loop (mk : Z → Pod) l st :
  wf st →
  valueOf (forEach (λ i, Create reconciler (mk i)) l st) = None →
  let st' := worldOf (forEach (λ i, Create reconciler (mk i)) l st) in
  traceOf (forEach (λ i, Create reconciler (mk i)) l st)
    = map (λ i, EvCreate (mk i) None) l ∧
  wf st' ∧ squads st' = squads st ∧ allPods st' ≡ₚ map mk l ++ allPods st.
Proof.
  revert st. induction l as [|i l IH]; intros st Hwf; [done|].
  rewrite forEach_cons, Create_run.
  change (clientCreate (client reconciler) (mk i) st)
    with (apiCreate (mk i) st).
  destruct (apiCreate (mk i) st) as [[err|] st1] eqn:Hc;
    cbn [valueOf worldOf traceOf fst snd]; [done|].
  destruct (apiCreate_ok _ _ _ Hwf Hc) as (Hwf1 & Hs1 & Hperm).
  intros Hv. destruct (IH st1 Hwf1 Hv) as (Ht & Hwf' & Hs' & Hperm').
  cbv zeta in *. rewrite Ht. split; [done|]. split; [done|].
  split; [congruence|].
  rewrite Hperm', Hperm. cbn [map]. by rewrite <- Permutation_middle.
Qed.

Lemma listPods_NoDup opts st : wf st → NoDup (listPods opts st).
Proof. intros Hwf. apply NoDup_filter. by apply wf_NoDup. Qed.

Lemma listPods_stored opts st :
  Forall (λ p, p ∈ allPods st) (listPods opts st).
Proof.
  apply Forall_forall. intros p Hp.
  by apply list_elem_of_filter in Hp as [_ ?].
Qed.

Lemma listPods_selected opts st : Forall (selects opts) (listPods opts st).
Proof.
  apply Forall_forall. intros p Hp.
  by apply list_elem_of_filter in Hp as [? _].
Qed.

(** The pod the controller creates is selected by its group's listing and
    is not ready. *)
Lemma ownedPod_selected virtSquad memberName podBaseName kind i :
  selects (memberListOpts virtSquad memberName)
    (ownedPod virtSquad memberName podBaseName kind i).
Proof. split; [done|]. by intros k v Hk. Qed.

Lemma ownedPod_not_ready virtSquad memberName podBaseName kind i :
  isPodReady (ownedPod virtSquad memberName podBaseName kind i) = false.
Proof. done. Qed.

Lemma int32_wrap_high z :
  2 ^ 31 ≤ z < 2 ^ 32 + 2 ^ 31 → int32 z = z - 2 ^ 32.
Proof.
  intros Hz. unfold int32.
  replace (z + 2 ^ 31) with ((z - 2 ^ 32 + 2 ^ 31) + 1 * 2 ^ 32) by lia.
  rewrite Z.mod_add by lia. rewrite Z.mod_small; lia.
Qed.

(** What one group's reconciliation does to the store when it returns no
    error: some pods of the group are added, none of them ready, or some
    listed pods of the group are removed. *)
Lemma group_effect_raw virtSquad memberName memberSpec statusPods st :
  wf st →
  let gopts := memberListOpts virtSquad memberName in
  let items := listPods gopts st in
  let out := reconcileTeamMember reconciler virtSquad memberName memberSpec
               statusPods st in
  (valueOf out).1 = None →
  ∃ added removed,
    allPods (worldOf out) ++ removed ≡ₚ added ++ allPods st ∧
    Forall (selects gopts) added ∧
    Forall (λ p, isPodReady p = false) added ∧
    Forall (selects gopts) removed ∧
    wf (worldOf out) ∧ squads (worldOf out) = squads st ∧
    (valueOf out).2 = reportedMembers memberSpec items ∧
    match memberSpec with
    | Some (mkTeamMemberSpec (Some _) _ as ms) =>
        let c := int32 (Z.of_nat (length items)) in
        let d := desiredReplicasOf ms in
        (c < d → length added = Z.to_nat (d - c) ∧ removed = []) ∧
        (d < c → added = [] ∧
           removed = take (Z.to_nat (Z.min (int32 (c - d)) c)) items) ∧
        (c = d → added = [] ∧ removed = [])
    | _ => added = [] ∧ removed = items
    end.
Proof.
  intros Hwf gopts items out.
  assert (Habsent :
    (valueOf (deleteTeamMemberPods reconciler virtSquad memberName
                statusPods st)).1 = None →
    ∃ added removed,
      allPods (worldOf (deleteTeamMemberPods reconciler virtSquad memberName
                          statusPods st)) ++ removed ≡ₚ added ++ allPods st ∧
      Forall (selects gopts) added ∧
      Forall (λ p, isPodReady p = false) added ∧
      Forall (selects gopts) removed ∧
      wf (worldOf (deleteTeamMemberPods reconciler virtSquad memberName
                     statusPods st)) ∧
      squads (worldOf (deleteTeamMemberPods reconciler virtSquad memberName
                         statusPods st)) = squads st ∧
      (valueOf (deleteTeamMemberPods reconciler virtSquad memberName
                  statusPods st)).2 = [] ∧
      added = [] ∧ removed = items).
  { rewrite deleteTeamMemberPods_run. cbv zeta.
    change (clientList (client reconciler) (memberListOpts virtSquad memberName)
              st) with (Ok items, st). cbn [fst snd].
    destruct (delete_loop items st Hwf (listPods_NoDup gopts st Hwf)
                (listPods_stored gopts st)) as (st' & Hrun & Hwf' & Hs' & Hperm).
    rewrite Hrun. cbn [valueOf worldOf traceOf fst snd]. intros _.
    exists [], items. rewrite Hperm.
    split; [by rewrite (comm (++))|].
    repeat split; try done; try apply Hwf'. apply listPods_selected. }
  unfold out. destruct memberSpec as [[[podBaseName|] replicas]|];
    [|by apply Habsent|by apply Habsent].
  set (ms := mkTeamMemberSpec (Some podBaseName) replicas).
  rewrite (reconcileTeamMember_run _ _ _ _ podBaseName) by done. cbv zeta.
  change (clientList (client reconciler) (memberListOpts virtSquad memberName)
            st) with (Ok items, st). cbn [fst snd].
  set (c := int32 (Z.of_nat (length items))). set (d := desiredReplicasOf ms).
  set (mk := ownedPod virtSquad memberName podBaseName "VirtSquad").
  destruct (Z.lt_trichotomy c d) as [Hlt|[Heq|Hgt]].
  - (* scale up *)
    rewrite (scaleDown_skip _ items c d) by lia.
    unfold scaleUp. destruct (Z.ltb_spec c d) as [_|]; [|lia].
    rewrite (forEach_ext _ (λ i, Create reconciler (mk i)))
      by (intros; by rewrite (createPodForMember_known _ _ _ _ "VirtSquad")).
    pose proof (create_loop mk (seqZ c (d - c)) st Hwf) as Hloop.
    destruct (forEach (λ i, Create reconciler (mk i)) (seqZ c (d - c)) st)
      as [[[err|] st1] t1]; cbn [valueOf worldOf traceOf fst snd] in *;
      [done|]. intros _.
    destruct Hloop as (_ & Hwf1 & Hs1 & Hperm); [done|].
    exists (map mk (seqZ c (d - c))), []. rewrite app_nil_r.
    split; [done|]. split.
    { apply Forall_forall. intros p Hp.
      apply list_elem_of_fmap in Hp as (i & -> & _).
      apply ownedPod_selected. }
    split.
    { apply Forall_forall. intros p Hp.
      by apply list_elem_of_fmap in Hp as (i & -> & _). }
    repeat split; try done; try lia; try apply Hwf1.
    by rewrite length_map, length_seqZ.
  - (* nothing to do *)
    rewrite scaleUp_skip by lia. cbn [valueOf worldOf traceOf fst snd].
    rewrite (scaleDown_skip _ items c d) by lia.
    cbn [valueOf worldOf traceOf fst snd]. intros _.
    exists [], []. rewrite app_nil_r.
    repeat split; try done; try lia; apply Hwf.
  - (* scale down *)
    rewrite scaleUp_skip by lia. cbn [valueOf worldOf traceOf fst snd].
    unfold scaleDown. destruct (Z.gtb_spec c d) as [_|]; [|lia].
    set (victims := take (Z.to_nat (Z.min (int32 (c - d)) c)) items).
    destruct (delete_loop victims st Hwf) as (st' & Hrun & Hwf' & Hs' & Hperm).
    { eapply sublist_NoDup; [by apply listPods_NoDup|apply sublist_take]. }
    { apply Forall_take. apply listPods_stored. }
    rewrite Hrun. cbn [valueOf worldOf traceOf fst snd]. intros _.
    exists [], victims. rewrite Hperm.
    split; [by rewrite (comm (++))|].
    repeat split; try done; try lia; try apply Hwf'.
    apply Forall_take. apply listPods_selected.
Qed.

Lemma filter_none (P : Pod → Prop) `{∀ p, Decision (P p)} l :
  Forall (λ p, ¬ P p) l → filter P l = [].
Proof.
  induction 1 as [|p l Hp _ IH]; [done|]. by rewrite filter_cons_False.
Qed.

Lemma filter_all (P : Pod → Prop) `{∀ p, Decision (P p)} l :
  Forall P l → filter P l = l.
Proof.
  induction 1 as [|p l Hp _ IH]; [done|]. rewrite filter_cons_True by done.
  by rewrite IH.
Qed.

Lemma count_balance (P : Pod → Prop) `{∀ p, Decision (P p)}
    st st' added removed :
  allPods st' ++ removed ≡ₚ added ++ allPods st →
  (count P st' + length (filter P removed) =
   length (filter P added) + count P st)%nat.
Proof.
  intros Hperm. unfold count.
  rewrite <- !length_app, <- !filter_app. by rewrite Hperm.
Qed.

Lemma count_le_size (P : Pod → Prop) `{∀ p, Decision (P p)} st :
  (count P st ≤ length (allPods st))%nat.
Proof. apply length_filter. Qed.

Lemma count_mono (P Q : Pod → Prop)
    `{∀ p, Decision (P p)} `{∀ p, Decision (Q p)} st :
  (∀ p, P p → Q p) → (count P st ≤ count Q st)%nat.
Proof.
  intros HPQ. unfold count.
  induction (allPods st) as [|p l IH]; [done|].
  rewrite !filter_cons.
  destruct (decide (P p)), (decide (Q p)); simpl; try lia.
  exfalso; auto.
Qed.

(** One group's reconciliation, when it returns no error: the store stays
    well keyed, the squads are untouched, the pods outside the group are
    neither added nor removed, the group's ready pods are at most the
    reported members, and the group is settled. *)
Lemma group_effect virtSquad memberName memberSpec statusPods st :
  wf st →
  let gopts := memberListOpts virtSquad memberName in
  let out := reconcileTeamMember reconciler virtSquad memberName memberSpec
               statusPods st in
  (valueOf out).1 = None →
  wf (worldOf out) ∧ squads (worldOf out) = squads st ∧
  (valueOf out).2 = reportedMembers memberSpec (listPods gopts st) ∧
  (∀ (P : Pod → Prop) (HP : ∀ p, Decision (P p)),
     (∀ p, selects gopts p → ¬ P p) → count P (worldOf out) = count P st) ∧
  (∀ (P : Pod → Prop) (HP : ∀ p, Decision (P p)),
     (∀ p, P p → selects gopts p ∧ isPodReady p = true) →
     (count P (worldOf out) ≤ length (valueOf out).2)%nat) ∧
  (replicasInRange memberSpec →
   Z.of_nat (length (listPods gopts st)) < 2 ^ 31 →
   settled memberSpec (count (selects gopts) (worldOf out))).
Proof.
  intros Hwf gopts out Hok.
  destruct (group_effect_raw virtSquad memberName memberSpec statusPods st
              Hwf Hok)
    as (added & removed & Hperm & Hadd & Hnr & Hrem & Hwf' & Hs & Hrep & Hcase).
  fold gopts out in Hperm, Hwf', Hs, Hrep, Hcase.
  set (items := listPods gopts st) in *.
  assert (Hitems : count (selects gopts) st = length items) by done.
  pose proof (count_balance (selects gopts) _ _ _ _ Hperm) as Hbal.
  rewrite (filter_all _ _ Hadd), (filter_all _ _ Hrem), Hitems in Hbal.
  split; [done|]. split; [done|]. split; [done|]. split; [|split].
  - intros P HdecP HP.
    pose proof (count_balance P _ _ _ _ Hperm) as HbalP.
    rewrite (filter_none P added), (filter_none P removed) in HbalP.
    + simpl in HbalP. lia.
    + eapply Forall_impl; [exact Hrem|]. auto.
    + eapply Forall_impl; [exact Hadd|]. auto.
  - intros P HdecP HP.
    pose proof (count_balance P _ _ _ _ Hperm) as HbalP.
    rewrite (filter_none P added) in HbalP.
    2:{ eapply Forall_impl; [exact Hnr|]. intros p Hp HPp.
        destruct (HP p HPp) as [_ Hr]. congruence. }
    assert (HPle : (count P st ≤ length items)%nat).
    { rewrite <- Hitems. apply count_mono. intros p HPp. by apply HP. }
    assert (HP' : (count P (worldOf out) ≤ count (selects gopts) (worldOf out))%nat).
    { apply count_mono. intros p HPp. by apply HP. }
    rewrite Hrep.
    destruct memberSpec as [[[podBaseName|] replicas]|];
      cbn [reportedMembers Name].
    + rewrite length_map. simpl in HbalP. lia.
    + destruct Hcase as [-> ->]. simpl in Hbal. lia.
    + destruct Hcase as [-> ->]. simpl in Hbal. lia.
  - intros Hrange Hlen. unfold settled.
    destruct memberSpec as [[[podBaseName|] replicas]|].
    + cbn [Name]. cbv zeta in *.
      set (d := desiredReplicasOf (mkTeamMemberSpec (Some podBaseName) replicas))
        in *.
      assert (Hd : is_int32 d) by exact Hrange. unfold is_int32 in Hd.
      assert (Hc : int32 (Z.of_nat (length items)) = Z.of_nat (length items)).
      { apply int32_small. unfold is_int32. lia. }
      rewrite Hc in Hcase. destruct Hcase as (Hup & Hdown & Hsame).
      set (n := length items) in *.
      set (n' := count (selects gopts) (worldOf out)) in *.
      destruct (Z.lt_trichotomy (Z.of_nat n) d) as [Hlt|[Heq|Hgt]].
      * destruct (Hup Hlt) as [Hla ->]. simpl in Hbal.
        assert (Hn' : Z.of_nat n' = d) by lia.
        rewrite Hn', (int32_small d) by done. lia.
      * destruct (Hsame Heq) as [-> ->]. simpl in Hbal.
        assert (Hn' : Z.of_nat n' = d) by lia.
        rewrite Hn', (int32_small d) by done. lia.
      * destruct (Hdown Hgt) as [-> ->]. simpl in Hbal.
        rewrite length_take in Hbal. fold n in Hbal.
        destruct (decide (Z.of_nat n - d < 2 ^ 31)) as [Hfit|Hover].
        -- rewrite (int32_small (Z.of_nat n - d)) in Hbal
             by (unfold is_int32; lia).
           destruct (decide (0 ≤ d)).
           ++ assert (Hn' : Z.of_nat n' = d) by lia.
              rewrite Hn', (int32_small d) by done. lia.
           ++ assert (Hn' : n' = 0%nat) by lia.
              rewrite Hn'. change (int32 (Z.of_nat 0)) with 0. lia.
        -- rewrite (int32_wrap_high (Z.of_nat n - d)) in Hbal by lia.
           assert (Hn' : n' = n) by lia.
           rewrite Hn', (int32_small (Z.of_nat n)) by (unfold is_int32; lia).
           rewrite (int32_wrap_high (Z.of_nat n - d)) by lia. lia.
    + destruct Hcase as [-> ->]. cbn [Name]. simpl in Hbal. lia.
    + destruct Hcase as [-> ->]. simpl in Hbal. lia.
Qed.

(** ** Group selectors *)

Lemma inGroup_iff virtSquad memberName p :
  inGroup virtSquad memberName p ↔
  selects (squadListOpts virtSquad) p ∧
  Labels p !! "virtsquad.mshort55.io/member" = Some memberName.
Proof.
  unfold inGroup, selects, memberListOpts, squadListOpts, memberLabels,
    squadLabels. cbn [InNamespace MatchingLabels].
  split.
  - intros [Hns Hl]. split; [split; [done|]|].
    + intros k v Hkv. apply Hl.
      apply lookup_insert_Some in Hkv as [[<- <-]|[Hne Hkv]].
      * by rewrite lookup_insert_eq.
      * apply lookup_singleton_Some in Hkv as [<- <-].
        by rewrite !lookup_insert_ne, lookup_singleton_eq.
    + apply Hl. by rewrite lookup_insert_ne, lookup_insert_eq.
  - intros [[Hns Hl] Hm]. split; [done|].
    intros k v Hkv.
    apply lookup_insert_Some in Hkv as [[<- <-]|[Hne Hkv]].
    + apply Hl. by rewrite lookup_insert_eq.
    + apply lookup_insert_Some in Hkv as [[<- <-]|[Hne' Hkv]]; [done|].
      apply lookup_singleton_Some in Hkv as [<- <-].
      apply Hl. by rewrite lookup_insert_ne, lookup_singleton_eq.
Qed.

Lemma inGroup_disjoint virtSquad g g' p :
  g ≠ g' → inGroup virtSquad g p → ¬ inGroup virtSquad g' p.
Proof.
  intros Hne H1 H2. apply inGroup_iff in H1 as [_ H1], H2 as [_ H2].
  congruence.
Qed.

(** The selectors only look at the owner's name and namespace. *)
Lemma memberListOpts_same virtSquad virtSquad' memberName :
  SquadName virtSquad' = SquadName virtSquad →
  SquadNamespace virtSquad' = SquadNamespace virtSquad →
  memberListOpts virtSquad' memberName = memberListOpts virtSquad memberName.
Proof.
  intros Hn Hs. unfold memberListOpts, memberLabels. by rewrite Hn, Hs.
Qed.

Lemma squadListOpts_same virtSquad virtSquad' :
  SquadName virtSquad' = SquadName virtSquad →
  SquadNamespace virtSquad' = SquadNamespace virtSquad →
  squadListOpts virtSquad' = squadListOpts virtSquad.
Proof.
  intros Hn Hs. unfold squadListOpts, squadLabels. by rewrite Hn, Hs.
Qed.

(** ** Chaining the groups *)

Lemma untouched_refl P st : untouched P st st.
Proof. by intros Q HQ _. Qed.

Lemma untouched_step P P' st s s' :
  untouched P st s → untouched P' s s' →
  untouched (λ p, P p ∨ P' p) st s'.
Proof.
  intros H1 H2 Q HQ Hdis.
  rewrite (H2 Q HQ), (H1 Q HQ); [done| |]; intros p Hp; apply Hdis; auto.
Qed.

Lemma groupDone_later virtSquad g memberSpec reported st s s' P :
  groupDone virtSquad g memberSpec reported st s →
  untouched P s s' → (∀ p, P p → ¬ inGroup virtSquad g p) →
  groupDone virtSquad g memberSpec reported st s'.
Proof.
  intros (Hr & Hl & Hs) Hun Hdis. unfold groupDone.
  rewrite (Hun (readyInGroup virtSquad g) _), (Hun (inGroup virtSquad g) _).
  - done.
  - done.
  - intros p Hp [Hg _]. by apply (Hdis p).
Qed.

(** One group reconciled after others: the step of the chain. *)
Lemma group_step virtSquad g memberSpec statusPods st s P :
  wf s → untouched P st s → (∀ p, P p → ¬ inGroup virtSquad g p) →
  let out := reconcileTeamMember reconciler virtSquad g memberSpec
               statusPods s in
  (valueOf out).1 = None →
  wf (worldOf out) ∧ squads (worldOf out) = squads s ∧
  untouched (inGroup virtSquad g) s (worldOf out) ∧
  groupDone virtSquad g memberSpec (valueOf out).2 st (worldOf out).
Proof.
  intros Hwf Hun Hdis out Hok.
  destruct (group_effect virtSquad g memberSpec statusPods s Hwf Hok)
    as (Hwf' & Hs & Hrep & Hother & Hready & Hsettled).
  fold out in Hwf', Hs, Hrep, Hother, Hready, Hsettled.
  assert (Hsame : count (inGroup virtSquad g) s = count (inGroup virtSquad g) st).
  { apply (Hun (inGroup virtSquad g) _). done. }
  split; [done|]. split; [done|]. split.
  { intros Q HQ HdQ. by apply Hother. }
  split; [|split].
  - apply (Hready (readyInGroup virtSquad g) _). by intros p [? ?].
  - rewrite Hrep, <- Hsame.
    destruct memberSpec as [[[podBaseName|] replicas]|];
      cbn [reportedMembers Name length]; try lia.
    rewrite length_map. done.
  - intros Hrange Hsize. apply Hsettled; [done|].
    change (length (listPods (memberListOpts virtSquad g) s))
      with (count (inGroup virtSquad g) s).
    rewrite Hsame. pose proof (count_le_size (inGroup virtSquad g) st). lia.
Qed.

Ltac other_group :=
  let p := fresh "p" in
  let Hp := fresh "Hp" in
  intros p Hp; repeat (destruct Hp as [Hp|Hp]);
  (eapply inGroup_disjoint; [|exact Hp]; discriminate).

(** The four groups of a pass: either one of them fails, and the pass stops
    before the status write, or the pass goes on to the status write with
    every group done. *)
Lemma members_effect virtSquad st :
  wf st →
  let out := reconcileMembers reconciler virtSquad st in
  (∃ err, valueOf out = (emptyResult, Some err) ∧
          Forall (λ e, kindOf e ≠ KStatusUpdate) (traceOf out)) ∨
  ∃ s4 l1 l2 l3 l4 tg,
    let u := updateStatus reconciler virtSquad
               (mkVirtSquadStatus l1 l2 l3 l4 0 0) s4 in
    valueOf out = valueOf u ∧ worldOf out = worldOf u ∧
    traceOf out = tg ++ traceOf u ∧
    Forall (λ e, kindOf e ≠ KStatusUpdate) tg ∧
    wf s4 ∧ squads s4 = squads st ∧
    untouched (λ p, ((inGroup virtSquad "oksana" p ∨
                      inGroup virtSquad "kurtis" p) ∨
                     inGroup virtSquad "matt" p) ∨
                    inGroup virtSquad "kike" p) st s4 ∧
    groupDone virtSquad "oksana" (Oksana (Spec virtSquad)) l1 st s4 ∧
    groupDone virtSquad "kurtis" (Kurtis (Spec virtSquad)) l2 st s4 ∧
    groupDone virtSquad "matt" (Matt (Spec virtSquad)) l3 st s4 ∧
    groupDone virtSquad "kike" (Kike (Spec virtSquad)) l4 st s4.
Proof.
  intros Hwf out. unfold out. rewrite reconcileMembers_run. cbv zeta.
  assert (Htr : ∀ g spec sp w0,
    Forall (λ e, kindOf e ≠ KStatusUpdate)
      (traceOf (reconcileTeamMember reconciler virtSquad g spec sp w0))).
  { intros g spec sp w0.
    destruct (reconcileTeamMember_trace reconciler virtSquad g spec sp w0)
      as (res & t & -> & Ht).
    constructor; [done|]. eapply Forall_impl; [exact Ht|].
    intros e [He|He]; by rewrite He. }
  set (o1 := reconcileTeamMember reconciler virtSquad "oksana" _ _ st).
  pose proof (group_step virtSquad "oksana" (Oksana (Spec virtSquad)) [] st st
                (λ _, False) Hwf (untouched_refl _ st)) as H1.
  fold o1 in H1. cbv zeta in H1.
  destruct (valueOf o1).1 as [err|] eqn:E1.
  { left. exists err. split; [done|]. apply Htr. }
  destruct H1 as (Hwf1 & Hs1 & Hu1 & Hd1); [done|done|].
  set (o2 := reconcileTeamMember reconciler virtSquad "kurtis" _ _ (worldOf o1)).
  pose proof (group_step virtSquad "kurtis" (Kurtis (Spec virtSquad)) [] st
                (worldOf o1) (inGroup virtSquad "oksana") Hwf1 Hu1) as H2.
  fold o2 in H2. cbv zeta in H2.
  destruct (valueOf o2).1 as [err|] eqn:E2.
  { left. exists err. split; [done|]. cbn [traceOf snd].
    rewrite Forall_app. split; apply Htr. }
  destruct H2 as (Hwf2 & Hs2 & Hu2 & Hd2);
    [other_group|done|].
  pose proof (untouched_step _ _ _ _ _ Hu1 Hu2) as Hu12.
  set (o3 := reconcileTeamMember reconciler virtSquad "matt" _ _ (worldOf o2)).
  pose proof (group_step virtSquad "matt" (Matt (Spec virtSquad)) [] st
                (worldOf o2) _ Hwf2 Hu12) as H3.
  fold o3 in H3. cbv zeta in H3.
  destruct (valueOf o3).1 as [err|] eqn:E3.
  { left. exists err. split; [done|]. cbn [traceOf snd].
    rewrite !Forall_app. repeat split; apply Htr. }
  destruct H3 as (Hwf3 & Hs3 & Hu3 & Hd3);
    [other_group|done|].
  pose proof (untouched_step _ _ _ _ _ Hu12 Hu3) as Hu123.
  set (o4 := reconcileTeamMember reconciler virtSquad "kike" _ _ (worldOf o3)).
  pose proof (group_step virtSquad "kike" (Kike (Spec virtSquad)) [] st
                (worldOf o3) _ Hwf3 Hu123) as H4.
  fold o4 in H4. cbv zeta in H4.
  destruct (valueOf o4).1 as [err|] eqn:E4.
  { left. exists err. split; [done|]. cbn [traceOf snd].
    rewrite !Forall_app. repeat split; apply Htr. }
  destruct H4 as (Hwf4 & Hs4 & Hu4 & Hd4);
    [other_group|done|].
  pose proof (untouched_step _ _ _ _ _ Hu123 Hu4) as Hu1234.
  right.
  exists (worldOf o4), (valueOf o1).2, (valueOf o2).2, (valueOf o3).2,
    (valueOf o4).2, (traceOf o1 ++ traceOf o2 ++ traceOf o3 ++ traceOf o4).
  cbv zeta. cbn [valueOf worldOf traceOf fst snd].
  split; [done|]. split; [done|]. split; [by rewrite <- !(assoc_L (++))|].
  split; [rewrite !Forall_app; repeat split; apply Htr|].
  split; [done|]. split; [congruence|]. split; [done|].
  split; [|split; [|split; [|done]]].
  - eapply groupDone_later; [|exact Hu4|other_group].
    eapply groupDone_later; [|exact Hu3|other_group].
    eapply groupDone_later; [|exact Hu2|other_group].
    done.
  - eapply groupDone_later; [|exact Hu4|other_group].
    eapply groupDone_later; [|exact Hu3|other_group].
    done.
  - eapply groupDone_later; [|exact Hu4|other_group].
    done.
Qed.

(** ** Passes that change nothing *)

Lemma members_quiet virtSquad st :
  allSettled virtSquad st →
  creates (traceOf (reconcileMembers reconciler virtSquad st)) = [] ∧
  deletes (traceOf (reconcileMembers reconciler virtSquad st)) = [].
Proof.
  intros (H1 & H2 & H3 & H4).
  rewrite reconcileMembers_run. cbv zeta.
  rewrite (settled_quiet reconciler virtSquad "oksana" _ [] st _ st eq_refl H1).
  cbn [valueOf worldOf traceOf fst snd].
  rewrite (settled_quiet reconciler virtSquad "kurtis" _ [] st _ st eq_refl H2).
  cbn [valueOf worldOf traceOf fst snd].
  rewrite (settled_quiet reconciler virtSquad "matt" _ [] st _ st eq_refl H3).
  cbn [valueOf worldOf traceOf fst snd].
  rewrite (settled_quiet reconciler virtSquad "kike" _ [] st _ st eq_refl H4).
  cbn [valueOf worldOf traceOf fst snd].
  rewrite updateStatus_run. cbv zeta. cbn [traceOf snd app].
  unfold creates, deletes. split; reflexivity.
Qed.

Lemma apiGet_run req st :
  clientGet (client reconciler) req st =
  match squads st !! (ReqNamespace req, ReqName req) with
  | Some o => (Ok o, st)
  | None => (Fail ErrNotFound, st)
  end.
Proof. done. Qed.

Lemma pass_quiet_gone req st :
  squads st !! (ReqNamespace req, ReqName req) = None →
  creates (traceOf (Reconcile reconciler req st)) = [] ∧
  deletes (traceOf (Reconcile reconciler req st)) = [].
Proof.
  intros Hk. rewrite Reconcile_run, apiGet_run, Hk. done.
Qed.

Lemma pass_quiet_released req st virtSquad ts :
  squads st !! (ReqNamespace req, ReqName req) = Some virtSquad →
  DeletionTimestamp virtSquad = Some ts →
  ContainsFinalizer virtSquad virtSquadFinalizer = false →
  creates (traceOf (Reconcile reconciler req st)) = [] ∧
  deletes (traceOf (Reconcile reconciler req st)) = [].
Proof.
  intros Hk HD HF. rewrite Reconcile_run, apiGet_run, Hk. cbv zeta.
  cbn [fst snd]. rewrite HD, HF. done.
Qed.

Lemma pass_quiet_settled req st virtSquad :
  squads st !! (ReqNamespace req, ReqName req) = Some virtSquad →
  DeletionTimestamp virtSquad = None →
  ContainsFinalizer virtSquad virtSquadFinalizer = true →
  allSettled virtSquad st →
  creates (traceOf (Reconcile reconciler req st)) = [] ∧
  deletes (traceOf (Reconcile reconciler req st)) = [].
Proof.
  intros Hk HD HF Hs. rewrite Reconcile_run, apiGet_run, Hk. cbv zeta.
  cbn [fst snd]. rewrite HD, HF. cbn [traceOf snd].
  destruct (members_quiet virtSquad st Hs) as [Hc Hd].
  unfold creates, deletes in *.
  rewrite !filter_cons_False by done. done.
Qed.

Lemma count_same_pods (P : Pod → Prop) `{∀ p, Decision (P p)} st sq :
  count P (mkState sq (pods st)) = count P st.
Proof. done. Qed.

Lemma inGroup_same virtSquad virtSquad' g :
  SquadName virtSquad' = SquadName virtSquad →
  SquadNamespace virtSquad' = SquadNamespace virtSquad →
  ∀ st, count (inGroup virtSquad' g) st = count (inGroup virtSquad g) st.
Proof.
  intros Hn Hs st. unfold count. f_equal.
  apply list_filter_iff. intros p. unfold inGroup.
  by rewrite (memberListOpts_same virtSquad virtSquad' g Hn Hs).
Qed.

(** After a pass whose groups and status write succeed, the stored squad
    is settled. *)
Lemma members_then_quiet req virtSquad st :
  wf st →
  Z.of_nat (length (allPods st)) < 2 ^ 31 →
  specInRange (Spec virtSquad) →
  squads st !! (ReqNamespace req, ReqName req) = Some virtSquad →
  DeletionTimestamp virtSquad = None →
  ContainsFinalizer virtSquad virtSquadFinalizer = true →
  let m := reconcileMembers reconciler virtSquad st in
  (valueOf m).2 = None →
  creates (traceOf (Reconcile reconciler req (worldOf m))) = [] ∧
  deletes (traceOf (Reconcile reconciler req (worldOf m))) = [].
Proof.
  intros Hwf Hsize (R1 & R2 & R3 & R4) Hk HD HF m Hok.
  destruct (members_effect virtSquad st Hwf)
    as [(err & Herr & _)|
        (s4 & l1 & l2 & l3 & l4 & tg & _ & Hw & _ & _ & Hwf4 & Hs4 & _ &
         D1 & D2 & D3 & D4)].
  { fold m in Herr. rewrite Herr in Hok. done. }
  fold m in Hw. rewrite Hw. rewrite updateStatus_run. cbv zeta.
  cbn [worldOf fst snd].
  set (obj := withStatus virtSquad _).
  change (clientStatusUpdate (client reconciler) obj
            (clientList (client reconciler) (squadListOpts virtSquad) s4).2)
    with (apiStatusUpdate obj s4).
  assert (Hkey : squadKey virtSquad = (ReqNamespace req, ReqName req)).
  { destruct Hwf as [Hsq _]. exact (Hsq _ _ Hk). }
  unfold apiStatusUpdate.
  change (squadKey obj) with (squadKey virtSquad).
  rewrite Hkey, Hs4, Hk. cbn [snd].
  eapply pass_quiet_settled.
  - cbn [squads]. apply lookup_insert_eq.
  - done.
  - done.
  - unfold allSettled. cbn [withStatus Spec].
    rewrite !count_same_pods.
    rewrite !(inGroup_same virtSquad (withStatus virtSquad (Status obj)))
      by done.
    destruct D1 as (_ & _ & S1), D2 as (_ & _ & S2), D3 as (_ & _ & S3),
      D4 as (_ & _ & S4).
    auto.
Qed.

(** ** Ready pods against reported members *)

Lemma countReady_acc l acc :
  0 ≤ acc →
  acc + Z.of_nat (length (filter (λ p, isPodReady p = true) l)) < 2 ^ 31 →
  fold_left (λ readyCount pod,
      if isPodReady pod then int32 (readyCount + 1) else readyCount) l acc
  = acc + Z.of_nat (length (filter (λ p, isPodReady p = true) l)).
Proof.
  revert acc. induction l as [|p l IH]; intros acc Hacc Hlt; [simpl; lia|].
  rewrite filter_cons in Hlt |- *. cbn [fold_left].
  destruct (isPodReady p) eqn:Hp.
  - rewrite decide_True in Hlt |- * by done. cbn [length] in Hlt |- *.
    rewrite (int32_small (acc + 1)) by (unfold is_int32; lia).
    rewrite IH by lia. lia.
  - rewrite decide_False in Hlt |- * by done. by apply IH.
Qed.

Lemma countReady_small l :
  Z.of_nat (length (filter (λ p, isPodReady p = true) l)) < 2 ^ 31 →
  countReady l = Z.of_nat (length (filter (λ p, isPodReady p = true) l)).
Proof. intros Hlt. unfold countReady. by rewrite countReady_acc. Qed.

Lemma ready_listed virtSquad st :
  length (filter (λ p, isPodReady p = true)
            (listPods (squadListOpts virtSquad) st))
  = count (readyInSquad virtSquad) st.
Proof.
  unfold count, listPods.
  induction (allPods st) as [|p l IH]; [done|].
  rewrite (filter_cons (selects _)), (filter_cons (readyInSquad _)).
  unfold readyInSquad at 1.
  destruct (decide (selects (squadListOpts virtSquad) p)) as [Hs|Hs].
  - rewrite filter_cons.
    destruct (decide (isPodReady p = true)) as [Hr|Hr].
    + rewrite decide_True by done. cbn [length]. by rewrite IH.
    + rewrite decide_False by (by intros [_ ?]). done.
  - rewrite decide_False by (by intros [? _]). done.
Qed.

Lemma count_cover5 (P Q1 Q2 Q3 Q4 Q5 : Pod → Prop)
    `{∀ p, Decision (P p)} `{∀ p, Decision (Q1 p)} `{∀ p, Decision (Q2 p)}
    `{∀ p, Decision (Q3 p)} `{∀ p, Decision (Q4 p)} `{∀ p, Decision (Q5 p)} st :
  (∀ p, P p → Q1 p ∨ Q2 p ∨ Q3 p ∨ Q4 p ∨ Q5 p) →
  (count P st ≤
   count Q1 st + count Q2 st + count Q3 st + count Q4 st + count Q5 st)%nat.
Proof.
  intros Hcov. unfold count.
  induction (allPods st) as [|p l IH]; [done|].
  rewrite !filter_cons.
  destruct (decide (P p)) as [HP|HP].
  - destruct (Hcov p HP) as [?|[?|[?|[?|?]]]];
      repeat case_decide; cbn [length]; try lia; done.
  - repeat case_decide; cbn [length]; lia.
Qed.

Lemma count_disjoint4 (Q1 Q2 Q3 Q4 : Pod → Prop)
    `{∀ p, Decision (Q1 p)} `{∀ p, Decision (Q2 p)}
    `{∀ p, Decision (Q3 p)} `{∀ p, Decision (Q4 p)} st :
  (∀ p, Q1 p → ¬ Q2 p ∧ ¬ Q3 p ∧ ¬ Q4 p) →
  (∀ p, Q2 p → ¬ Q3 p ∧ ¬ Q4 p) →
  (∀ p, Q3 p → ¬ Q4 p) →
  (count Q1 st + count Q2 st + count Q3 st + count Q4 st
   ≤ length (allPods st))%nat.
Proof.
  intros Hd1 Hd2 Hd3. unfold count.
  induction (allPods st) as [|p l IH]; [done|].
  rewrite !filter_cons.
  destruct (decide (Q1 p)) as [HQ1|?].
  { destruct (Hd1 p HQ1) as (? & ? & ?).
    rewrite !decide_False by done. cbn [length]. lia. }
  destruct (decide (Q2 p)) as [HQ2|?].
  { destruct (Hd2 p HQ2) as (? & ?).
    rewrite !decide_False by done. cbn [length]. lia. }
  destruct (decide (Q3 p)) as [HQ3|?].
  { rewrite decide_False by (by apply Hd3). cbn [length]. lia. }
  case_decide; cbn [length]; lia.
Qed.

Lemma readyInSquad_cover virtSquad p :
  readyInSquad virtSquad p →
  readyInGroup virtSquad "oksana" p ∨ readyInGroup virtSquad "kurtis" p ∨
  readyInGroup virtSquad "matt" p ∨ readyInGroup virtSquad "kike" p ∨
  readyStray virtSquad p.
Proof.
  intros [Hs Hr]. destruct (decide (knownMember p)) as [Hk|Hk].
  - unfold readyInGroup.
    destruct Hk as [Hk|[Hk|[Hk|Hk]]];
      [left|right; left|right; right; left|right; right; right; left];
      (split; [|done]); by apply inGroup_iff.
  - do 4 right. by split.
Qed.

Lemma inGroup_known virtSquad g p :
  g ∈ ["oksana"; "kurtis"; "matt"; "kike"] →
  inGroup virtSquad g p → knownMember p.
Proof.
  intros Hg Hin. apply inGroup_iff in Hin as [_ Hm]. unfold knownMember.
  rewrite Hm. rewrite !elem_of_cons in Hg.
  destruct Hg as [->|[->|[->|[->|Hg]]]]; auto.
  by apply elem_of_nil in Hg.
Qed.

(** The status a pass writes, when no ready pod of the squad is outside
    the four groups. *)
Lemma members_ready_le_total virtSquad st obj res :
  wf st →
  Z.of_nat (length (allPods st)) < 2 ^ 31 →
  count (readyStray virtSquad) st = 0%nat →
  EvStatusUpdate obj res ∈ traceOf (reconcileMembers reconciler virtSquad st) →
  ReadyPods (Status obj) ≤ TotalPods (Status obj) ∧
  TotalPods (Status obj) =
    Z.of_nat (length (OksanaPods (Status obj)) +
              length (KurtisPods (Status obj)) +
              length (MattPods (Status obj)) +
              length (KikePods (Status obj)))%nat.
Proof.
  intros Hwf Hsize Hstray Hin.
  destruct (members_effect virtSquad st Hwf)
    as [(err & _ & Hno)|
        (s4 & l1 & l2 & l3 & l4 & tg & _ & _ & Ht & Htg & Hwf4 & _ & Hun &
         D1 & D2 & D3 & D4)].
  { rewrite Forall_forall in Hno. by destruct (Hno _ Hin). }
  rewrite Ht in Hin. apply elem_of_app in Hin as [Hin|Hin].
  { rewrite Forall_forall in Htg. by destruct (Htg _ Hin). }
  rewrite updateStatus_run in Hin. cbv zeta in Hin. cbn [traceOf snd] in Hin.
  change (clientList (client reconciler) (squadListOpts virtSquad) s4)
    with (Ok (listPods (squadListOpts virtSquad) s4), s4) in Hin.
  cbn [fst snd] in Hin.
  apply elem_of_cons in Hin as [Hin|Hin]; [done|].
  apply list_elem_of_singleton in Hin.
  apply (f_equal (λ e, match e with
                       | EvStatusUpdate o _ => Some (Status o)
                       | _ => None
                       end)) in Hin.
  cbn [withStatus Status] in Hin. injection Hin as ->.
  cbn [setReadyPods setTotalPods ReadyPods TotalPods OksanaPods KurtisPods
       MattPods KikePods].
  destruct D1 as (R1 & L1 & _), D2 as (R2 & L2 & _), D3 as (R3 & L3 & _),
    D4 as (R4 & L4 & _).
  pose proof (count_disjoint4 (inGroup virtSquad "oksana")
                (inGroup virtSquad "kurtis") (inGroup virtSquad "matt")
                (inGroup virtSquad "kike") st) as Hsum.
  assert (Htotal : (length l1 + length l2 + length l3 + length l4
                    ≤ length (allPods st))%nat).
  { etrans; [|apply Hsum]; [lia| | |].
    - intros p Hp. repeat split; revert p Hp; other_group.
    - intros p Hp. repeat split; revert p Hp; other_group.
    - other_group. }
  assert (Hstray4 : count (readyStray virtSquad) s4 = 0%nat).
  { rewrite (Hun (readyStray virtSquad) _); [done|].
    intros p Hp [_ Hk]. apply Hk.
    destruct Hp as [[[Hp|Hp]|Hp]|Hp];
      (eapply inGroup_known; [|exact Hp]); set_solver. }
  pose proof (count_cover5 (readyInSquad virtSquad)
                (readyInGroup virtSquad "oksana")
                (readyInGroup virtSquad "kurtis")
                (readyInGroup virtSquad "matt")
                (readyInGroup virtSquad "kike")
                (readyStray virtSquad) s4
                (readyInSquad_cover virtSquad)) as Hcov.
  rewrite countReady_small; rewrite ready_listed.
  - rewrite int32_small by (unfold is_int32; lia). split; lia.
  - lia.
Qed.

End ClusterFacts.

(** C7, as the code has it.  Two passes back to back against the store with
    nothing else writing to it, the store keyed by namespace and name,
    fewer than 2^31 pods and int32 replica counts: when the first pass
    returns without error, the second pass makes no create call and no
    delete call. *)
Theorem second_pass_is_quiet_after_successful_pass req st :
  Cluster.wf st →
  Z.of_nat (length (Cluster.allPods st)) < 2 ^ 31 →
  (∀ virtSquad,
     Cluster.squads st !! (ReqNamespace req, ReqName req) = Some virtSquad →
     specInRange (Spec virtSquad)) →
  let first := Reconcile Cluster.reconciler req st in
  (valueOf first).2 = None →
  let second := Reconcile Cluster.reconciler req (worldOf first) in
  creates (traceOf second) = [] ∧ deletes (traceOf second) = [].
Proof.
  intros Hwf Hsize Hrange first Hok second. unfold second.
  revert Hok. unfold first. rewrite Reconcile_run, ClusterFacts.apiGet_run.
  cbv zeta.
  destruct (Cluster.squads st !! (ReqNamespace req, ReqName req))
    as [virtSquad|] eqn:Hk; cbn [fst snd].
  2:{ intros _. cbn [worldOf fst snd]. by apply ClusterFacts.pass_quiet_gone. }
  assert (Hkey : Cluster.squadKey virtSquad = (ReqNamespace req, ReqName req)).
  { destruct Hwf as [Hsq _]. exact (Hsq _ _ Hk). }
  specialize (Hrange virtSquad eq_refl).
  destruct (DeletionTimestamp virtSquad) as [ts|] eqn:HD.
  - destruct (ContainsFinalizer virtSquad virtSquadFinalizer) eqn:HF.
    2:{ intros _. cbn [worldOf fst snd].
        by eapply ClusterFacts.pass_quiet_released. }
    rewrite finalizeVirtSquad_run. cbv zeta.
    change (clientList (client Cluster.reconciler) (squadListOpts virtSquad) st)
      with (Ok (Cluster.listPods (squadListOpts virtSquad) st), st).
    cbn [fst snd].
    destruct (ClusterFacts.delete_loop
                (Cluster.listPods (squadListOpts virtSquad) st) st Hwf
                (ClusterFacts.listPods_NoDup _ st Hwf)
                (ClusterFacts.listPods_stored _ st))
      as (s1 & Hrun & Hwf1 & Hs1 & _).
    rewrite Hrun. cbn [valueOf worldOf traceOf fst snd]. intros _.
    set (obj := RemoveFinalizer virtSquad virtSquadFinalizer).
    change (clientUpdate (client Cluster.reconciler) obj s1)
      with (Cluster.apiUpdate obj s1).
    unfold Cluster.apiUpdate.
    change (Cluster.squadKey obj) with (Cluster.squadKey virtSquad).
    rewrite Hkey, Hs1, Hk. cbv zeta.
    destruct (_ && _); cbn [snd].
    + apply ClusterFacts.pass_quiet_gone. cbn. apply lookup_delete_eq.
    + eapply ClusterFacts.pass_quiet_released.
      * cbn. apply lookup_insert_eq.
      * exact HD.
      * unfold ContainsFinalizer, obj, RemoveFinalizer. cbn.
        apply bool_decide_eq_false. intros Hin.
        apply list_elem_of_filter in Hin as [Hne _]. done.
  - destruct (ContainsFinalizer virtSquad virtSquadFinalizer) eqn:HF.
    + cbn [valueOf worldOf fst snd]. intros Hok.
      by apply ClusterFacts.members_then_quiet.
    + set (obj := AddFinalizer virtSquad virtSquadFinalizer).
      change (clientUpdate (client Cluster.reconciler) obj st)
        with (Cluster.apiUpdate obj st).
      unfold Cluster.apiUpdate.
      assert (Hobj : Cluster.squadKey obj = (ReqNamespace req, ReqName req)).
      { unfold obj, AddFinalizer. by rewrite HF. }
      rewrite Hobj, Hk. cbv zeta. rewrite HD. cbn [bool_decide andb fst snd].
      replace (bool_decide (is_Some (@None Z))) with false
        by (symmetry; apply bool_decide_eq_false; by intros [? ?]).
      cbn [andb fst snd valueOf worldOf]. intros Hok.
      set (stored := mkVirtSquad _ _ _ _ _ _) in *.
      set (s1 := Cluster.mkState _ _) in *.
      assert (Hspec : Spec obj = Spec virtSquad)
        by (unfold obj, AddFinalizer; by rewrite HF).
      assert (Hfin : virtSquadFinalizer ∈ Finalizers obj).
      { unfold obj, AddFinalizer. rewrite HF. cbn. set_solver. }
      apply (ClusterFacts.members_then_quiet req stored s1).
      * destruct Hwf as [Hsq Hp]. split; [|done].
        cbn. apply map_Forall_insert_2; [|done]. exact Hobj.
      * done.
      * unfold stored. cbn [Spec]. by rewrite Hspec.
      * cbn. apply lookup_insert_eq.
      * done.
      * unfold stored, ContainsFinalizer. cbn [Finalizers].
        by apply bool_decide_eq_true.
      * done.
Qed.

(** C6, as the code has it.  Against the store, keyed by namespace and name
    and holding fewer than 2^31 pods, a pass over a non-deleting resource
    writes a status with readyWorkers at most totalWorkers, and totalWorkers
    the sum of the member-list lengths, provided that, when the pass
    starts, every ready pod in the squad's namespace that carries the
    squad's two labels also carries the member label of one of the four
    groups the pass reconciles: the store holds no ready pod of the squad
    with another member label or with none. *)
Theorem ready_at_most_total_without_stray_pods req st virtSquad obj res :
  Cluster.wf st →
  Z.of_nat (length (Cluster.allPods st)) < 2 ^ 31 →
  Cluster.squads st !! (ReqNamespace req, ReqName req) = Some virtSquad →
  DeletionTimestamp virtSquad = None →
  Cluster.count (Cluster.readyStray virtSquad) st = 0%nat →
  EvStatusUpdate obj res ∈ traceOf (Reconcile Cluster.reconciler req st) →
  ReadyPods (Status obj) ≤ TotalPods (Status obj) ∧
  TotalPods (Status obj) =
    Z.of_nat (length (OksanaPods (Status obj)) +
              length (KurtisPods (Status obj)) +
              length (MattPods (Status obj)) +
              length (KikePods (Status obj)))%nat.
Proof.
  intros Hwf Hsize Hk HD Hstray.
  assert (Hkey : Cluster.squadKey virtSquad = (ReqNamespace req, ReqName req)).
  { destruct Hwf as [Hsq _]. exact (Hsq _ _ Hk). }
  rewrite Reconcile_run, ClusterFacts.apiGet_run, Hk. cbv zeta.
  cbn [fst snd]. rewrite HD.
  destruct (ContainsFinalizer virtSquad virtSquadFinalizer) eqn:HF.
  - cbn [traceOf snd]. intros Hin.
    apply elem_of_cons in Hin as [?|Hin]; [done|].
    by eapply ClusterFacts.members_ready_le_total.
  - set (marked := AddFinalizer virtSquad virtSquadFinalizer).
    change (clientUpdate (client Cluster.reconciler) marked st)
      with (Cluster.apiUpdate marked st).
    unfold Cluster.apiUpdate.
    assert (Hm : Cluster.squadKey marked = (ReqNamespace req, ReqName req)).
    { unfold marked, AddFinalizer. by rewrite HF. }
    rewrite Hm, Hk. cbv zeta. rewrite HD.
    replace (bool_decide (is_Some (@None Z))) with false
      by (symmetry; apply bool_decide_eq_false; by intros [? ?]).
    cbn [andb fst snd traceOf].
    set (stored := mkVirtSquad _ _ _ _ _ _).
    set (s1 := Cluster.mkState _ _).
    intros Hin.
    apply elem_of_cons in Hin as [?|Hin]; [done|].
    apply elem_of_cons in Hin as [?|Hin]; [done|].
    apply (ClusterFacts.members_ready_le_total stored s1 obj res); try done.
    + destruct Hwf as [Hsq Hp]. split; [|done].
      cbn. apply map_Forall_insert_2; [|done]. exact Hm.
    + rewrite <- Hstray. unfold Cluster.count. f_equal.
      apply list_filter_iff. intros p.
      unfold Cluster.readyStray, Cluster.readyInSquad.
      rewrite (ClusterFacts.squadListOpts_same virtSquad stored); [done| |];
        unfold stored, marked, AddFinalizer; by rewrite HF.
Qed.

(** X17.  Deletion against the store: a pass over a resource marked for
    deletion that carries the marker returns no error and leaves no pod with
    the squad's labels and no marker on the stored resource. *)
Lemma deleting_pass_leaves_no_worker req st virtSquad ts :
  Cluster.wf st →
  Cluster.squads st !! (ReqNamespace req, ReqName req) = Some virtSquad →
  DeletionTimestamp virtSquad = Some ts →
  ContainsFinalizer virtSquad virtSquadFinalizer = true →
  let out := Reconcile Cluster.reconciler req st in
  valueOf out = (emptyResult, None) ∧
  Cluster.listPods (squadListOpts virtSquad) (worldOf out) = [] ∧
  ∀ o, Cluster.squads (worldOf out) !! (ReqNamespace req, ReqName req) = Some o →
       ContainsFinalizer o virtSquadFinalizer = false.
Proof.
  intros Hwf Hk HD HF out. unfold out.
  assert (Hkey : Cluster.squadKey virtSquad = (ReqNamespace req, ReqName req)).
  { destruct Hwf as [Hsq _]. exact (Hsq _ _ Hk). }
  rewrite Reconcile_run, ClusterFacts.apiGet_run, Hk. cbv zeta.
  cbn [fst snd]. rewrite HD, HF.
  rewrite finalizeVirtSquad_run. cbv zeta.
  change (clientList (client Cluster.reconciler) (squadListOpts virtSquad) st)
    with (Ok (Cluster.listPods (squadListOpts virtSquad) st), st).
  cbn [fst snd].
  destruct (ClusterFacts.delete_loop
              (Cluster.listPods (squadListOpts virtSquad) st) st Hwf
              (ClusterFacts.listPods_NoDup _ st Hwf)
              (ClusterFacts.listPods_stored _ st))
    as (s1 & Hrun & Hwf1 & Hs1 & Hperm).
  rewrite Hrun. cbn [valueOf worldOf traceOf fst snd].
  assert (Hnone : Cluster.listPods (squadListOpts virtSquad) s1 = []).
  { apply length_zero_iff_nil.
    pose proof (ClusterFacts.count_balance
                  (Cluster.selects (squadListOpts virtSquad)) st s1 []
                  (Cluster.listPods (squadListOpts virtSquad) st)) as Hbal.
    rewrite (ClusterFacts.filter_all _ _
               (ClusterFacts.listPods_selected _ st)) in Hbal.
    unfold Cluster.count in Hbal. cbn [filter] in Hbal.
    fold (Cluster.listPods (squadListOpts virtSquad) st) in Hbal.
    fold (Cluster.listPods (squadListOpts virtSquad) s1) in Hbal.
    cut (length (Cluster.listPods (squadListOpts virtSquad) s1) +
         length (Cluster.listPods (squadListOpts virtSquad) st) =
         0 + length (Cluster.listPods (squadListOpts virtSquad) st))%nat;
      [lia|].
    apply Hbal. rewrite Hperm. cbn. by rewrite (comm (++)). }
  set (obj := RemoveFinalizer virtSquad virtSquadFinalizer).
  change (clientUpdate (client Cluster.reconciler) obj s1)
    with (Cluster.apiUpdate obj s1).
  unfold Cluster.apiUpdate.
  change (Cluster.squadKey obj) with (Cluster.squadKey virtSquad).
  rewrite Hkey, Hs1, Hk. cbv zeta.
  destruct (_ && _); cbn [fst snd answer].
  - split; [done|]. split; [done|]. intros o. cbn.
    by rewrite lookup_delete_eq.
  - split; [done|]. split; [done|]. intros o. cbn.
    rewrite lookup_insert_eq. intros [= <-].
    unfold ContainsFinalizer, obj, RemoveFinalizer. cbn.
    apply bool_decide_eq_false. intros Hin.
    apply list_elem_of_filter in Hin as [Hne _]. done.
Qed.

(** * Passes against the reference control plane *)

Module Scenarios.
Import Sample.

(** C1 on the code: the reported member list is the listing taken before
    the creates and deletes.  Scaling the empty group up to two workers
    reports no member although [a-0] and [a-1] now exist; scaling two
    workers down to none reports both deleted names although no worker is
    left, where deleteTeamMemberPods reports the empty list. *)
Lemma reported_members_are_pre_operation :
  let sq := squad false marker (oksanaOnly "a" 2) in
  let up := reconcileTeamMember Cluster.reconciler sq "oksana"
              (group "a" 2) [] (Cluster.stateOf [sq] []) in
  let down := reconcileTeamMember Cluster.reconciler sq "oksana"
                (group "a" 0) [] (worldOf up) in
  let gone := reconcileTeamMember Cluster.reconciler sq "oksana"
                None [] (worldOf up) in
  valueOf up = (None, []) ∧
  storedNames (memberListOpts sq "oksana") (worldOf up) = ["a-1"; "a-0"] ∧
  valueOf down = (None, ["a-1"; "a-0"]) ∧
  storedNames (memberListOpts sq "oksana") (worldOf down) = [] ∧
  valueOf gone = (None, []) ∧
  storedNames (memberListOpts sq "oksana") (worldOf gone) = [].
Proof. vm_compute. done. Qed.

(** C2 fails on the code: with [replicas = -1] and one worker listed the
    group's reconciliation returns no error and deletes the worker. *)
Lemma negative_replicas_delete_without_error :
  let sq := squad false marker (oksanaOnly "a" (-1)) in
  let out := reconcileTeamMember Cluster.reconciler sq "oksana"
               (group "a" (-1)) []
               (Cluster.stateOf [sq] [worker "oksana" "a-0" false]) in
  valueOf out = (None, ["a-0"]) ∧
  summary (traceOf out) = [(KList, "", None); (KDelete, "a-0", None)].
Proof. vm_compute. done. Qed.


(** C4 fails on the code: the pass that adds the marker goes on to create
    the group's worker and to write the status. *)
Lemma first_pass_reconciles_groups :
  let sq := squad false [] (oksanaOnly "a" 1) in
  let out := Reconcile Cluster.reconciler req (Cluster.stateOf [sq] []) in
  summary (traceOf out) =
    [(KGet, "team", None); (KUpdate, "team", None);
     (KList, "", None); (KCreate, "a-0", None);
     (KList, "", None); (KList, "", None); (KList, "", None);
     (KList, "", None); (KStatusUpdate, "team", None)].
Proof. vm_compute. done. Qed.


(** C6 fails on the code: a ready worker that carries the squad's labels
    but the label of no reconciled group is counted as ready and is in no
    member list. *)
Lemma ready_exceeds_total :
  let sq := squad false marker noGroups in
  let out := Reconcile Cluster.reconciler req
               (Cluster.stateOf [sq] [worker "zed" "z-0" true]) in
  valueOf out = (emptyResult, None) ∧
  storedCounts (worldOf out) = Some (0, 1).
Proof. vm_compute. done. Qed.

(** C7 fails on the code: the group's only worker is [a-1]; each pass lists
    one worker, wants two, and calls Create for ordinal 1, which the store
    refuses. *)
Lemma second_pass_creates_again :
  let sq := squad false marker (oksanaOnly "a" 2) in
  let first := Reconcile Cluster.reconciler req
                 (Cluster.stateOf [sq] [worker "oksana" "a-1" false]) in
  let second := Reconcile Cluster.reconciler req (worldOf first) in
  summary (traceOf second) =
    [(KGet, "team", None); (KList, "", None);
     (KCreate, "a-1", Some ErrAlreadyExists)].
Proof. vm_compute. done. Qed.

(** C8 fails on the code: the group's only worker is [a-1] and three are
    desired; the claim has the workers of ordinals 1 and 2 created, the code
    calls Create for [a-1], which the store refuses, and creates nothing. *)
Lemma scale_up_stops_at_existing_name :
  let sq := squad false marker (oksanaOnly "a" 3) in
  let out := reconcileTeamMember Cluster.reconciler sq "oksana"
               (group "a" 3) []
               (Cluster.stateOf [sq] [worker "oksana" "a-1" false]) in
  summary (traceOf out) =
    [(KList, "", None); (KCreate, "a-1", Some ErrAlreadyExists)] ∧
  valueOf out = (Some ErrAlreadyExists, []) ∧
  storedNames (memberListOpts sq "oksana") (worldOf out) = ["a-1"].
Proof. vm_compute. done. Qed.

(** C9 fails on the code: the only owned worker is deleted, so that no
    owned worker remains, but the update that removes the marker is
    answered with a conflict; the pass returns that error and the stored
    resource keeps the marker. *)
Lemma marker_kept_although_no_worker_remains :
  let sq := squad true marker noGroups in
  let out := Reconcile Faulty.reconciler req
               (Cluster.stateOf [sq] [worker "oksana" "a-0" false],
                [None; None; None; Some ErrConflict]) in
  summary (traceOf out) =
    [(KGet, "team", None); (KList, "", None); (KDelete, "a-0", None);
     (KUpdate, "team", Some ErrConflict)] ∧
  valueOf out = (emptyResult, Some ErrConflict) ∧
  storedNames (squadListOpts sq) (worldOf out).1 = [] ∧
  Finalizers <$> Cluster.squads (worldOf out).1 !! ("default", "team")
    = Some marker.
Proof. vm_compute. done. Qed.

(** C10 fails on the code: the group has a spec without base name and two
    workers; the second delete fails, the reconciliation returns that
    error, the worker stays and the member list is left as it was passed
    in, not emptied. *)
Lemma null_base_name_failed_delete_keeps_worker :
  let ms := mkTeamMemberSpec None (Some 2) in
  let sq := squad false marker (mkVirtSquadSpec (Some ms) None None None) in
  let out := reconcileTeamMember Faulty.reconciler sq "oksana" (Some ms)
               ["a-0"; "a-1"]
               (Cluster.stateOf [sq] [worker "oksana" "a-0" false;
                                      worker "oksana" "a-1" false],
                [None; None; Some (ErrServer "unavailable")]) in
  summary (traceOf out) =
    [(KList, "", None); (KDelete, "a-1", None);
     (KDelete, "a-0", Some (ErrServer "unavailable"))] ∧
  valueOf out = (Some (ErrServer "unavailable"), ["a-0"; "a-1"]) ∧
  storedNames (memberListOpts sq "oksana") (worldOf out).1 = ["a-0"].
Proof. vm_compute. done. Qed.

End Scenarios.

(** * The theorems at sample inputs *)

Module Witness.
Import Sample.

Lemma scale_up_creates_until_first_failure_at_sample :
  let sq := squad false marker (oksanaOnly "a" 2) in
  let st := Cluster.stateOf [sq] [] in
  let ms := mkTeamMemberSpec (Some "a") (Some 2) in
  let out := reconcileTeamMember Cluster.reconciler sq "oksana" (Some ms) [] st in
  (Name ms = Some "a" ∧
   clientList (client Cluster.reconciler) (memberListOpts sq "oksana") st
     = (Ok [], st) ∧
   int32 (Z.of_nat (length (@nil Pod))) < desiredReplicasOf ms) ∧
  replays (client Cluster.reconciler) st (traceOf out) (worldOf out).
Proof.
  intros sq st ms out.
  assert (H1 : Name ms = Some "a") by reflexivity.
  assert (H2 : clientList (client Cluster.reconciler)
                 (memberListOpts sq "oksana") st = (Ok [], st))
    by (vm_compute; reflexivity).
  assert (H3 : int32 (Z.of_nat (length (@nil Pod))) < desiredReplicasOf ms)
    by (vm_compute; reflexivity).
  split; [exact (conj H1 (conj H2 H3))|].
  exact (proj1 (scale_up_creates_until_first_failure Cluster.reconciler sq
                  "oksana" ms "a" [] st [] st H1 H2 H3)).
Defined.

Lemma negative_replicas_delete_listed_workers_at_sample :
  let sq := squad false marker (oksanaOnly "a" (-1)) in
  let st := Cluster.stateOf [sq] [worker "oksana" "a-0" false] in
  let ms := mkTeamMemberSpec (Some "a") (Some (-1)) in
  let items := Cluster.listPods (memberListOpts sq "oksana") st in
  let out := reconcileTeamMember Cluster.reconciler sq "oksana" (Some ms) [] st in
  (Replicas ms = Some (-1) ∧ -1 < 0 ∧
   clientList (client Cluster.reconciler) (memberListOpts sq "oksana") st
     = (Ok items, st) ∧
   Z.of_nat (length items) < 2 ^ 31 ∧
   Z.of_nat (length items) - -1 < 2 ^ 31) ∧
  replays (client Cluster.reconciler) st (traceOf out) (worldOf out) ∧
  take (Z.to_nat (Z.min (int32 (Z.of_nat (length items) - -1))
                    (Z.of_nat (length items)))) items = items.
Proof.
  intros sq st ms items out.
  assert (H2 : Replicas ms = Some (-1)) by reflexivity.
  assert (H3 : -1 < 0) by lia.
  assert (H4 : clientList (client Cluster.reconciler)
                 (memberListOpts sq "oksana") st = (Ok items, st))
    by reflexivity.
  assert (H5 : Z.of_nat (length items) < 2 ^ 31) by (vm_compute; reflexivity).
  assert (H6 : Z.of_nat (length items) - -1 < 2 ^ 31)
    by (vm_compute; reflexivity).
  split; [exact (conj H2 (conj H3 (conj H4 (conj H5 H6))))|].
  pose proof (negative_replicas_delete_listed_workers Cluster.reconciler sq
                "oksana" ms (-1) [] st (Ok items) st H2 H3 H4) as T.
  exact (conj (proj1 T) (proj1 (proj2 T H5) H6)).
Defined.

Lemma marker_cleared_only_after_workers_deleted_at_sample :
  let sq := squad true marker noGroups in
  let st := Cluster.stateOf [sq] [worker "oksana" "a-0" true] in
  let out := Reconcile Cluster.reconciler req st in
  (clientGet (client Cluster.reconciler) req st = (Ok sq, st) ∧
   DeletionTimestamp sq = Some 1 ∧
   ContainsFinalizer sq virtSquadFinalizer = true) ∧
  replays (client Cluster.reconciler) st (traceOf out) (worldOf out).
Proof.
  intros sq st out.
  assert (H1 : clientGet (client Cluster.reconciler) req st = (Ok sq, st))
    by (vm_compute; reflexivity).
  assert (H2 : DeletionTimestamp sq = Some 1) by reflexivity.
  assert (H3 : ContainsFinalizer sq virtSquadFinalizer = true)
    by (vm_compute; reflexivity).
  split; [exact (conj H1 (conj H2 H3))|].
  exact (proj1 (proj2 (marker_cleared_only_after_workers_deleted
                         Cluster.reconciler req st sq st 1 H1 H2 H3))).
Defined.

Lemma marker_added_and_pass_continues_at_sample :
  let sq := squad false [] (oksanaOnly "a" 1) in
  let st := Cluster.stateOf [sq] [] in
  (clientGet (client Cluster.reconciler) req st = (Ok sq, st) ∧
   DeletionTimestamp sq = None ∧
   ContainsFinalizer sq virtSquadFinalizer = false) ∧
  ContainsFinalizer (AddFinalizer sq virtSquadFinalizer) virtSquadFinalizer
    = true.
Proof.
  intros sq st.
  assert (H1 : clientGet (client Cluster.reconciler) req st = (Ok sq, st))
    by (vm_compute; reflexivity).
  assert (H2 : DeletionTimestamp sq = None) by reflexivity.
  assert (H3 : ContainsFinalizer sq virtSquadFinalizer = false)
    by (vm_compute; reflexivity).
  split; [exact (conj H1 (conj H2 H3))|].
  exact (proj1 (marker_added_and_pass_continues
                  Cluster.reconciler req st sq st H1 H2 H3)).
Defined.


Lemma sample_store_wf :
  Cluster.wf (Cluster.stateOf [squad false marker (oksanaOnly "a" 2)]
                [worker "oksana" "a-0" true]).
Proof. apply (bool_decide_unpack _). vm_compute. exact I. Defined.

Lemma ready_at_most_total_without_stray_pods_at_sample :
  let sq := squad false marker (oksanaOnly "a" 2) in
  let st := Cluster.stateOf [sq] [worker "oksana" "a-0" true] in
  let out := Reconcile Cluster.reconciler req st in
  ∃ obj res,
    (Cluster.wf st ∧
     Z.of_nat (length (Cluster.allPods st)) < 2 ^ 31 ∧
     Cluster.squads st !! (ReqNamespace req, ReqName req) = Some sq ∧
     DeletionTimestamp sq = None ∧
     Cluster.count (Cluster.readyStray sq) st = 0%nat ∧
     EvStatusUpdate obj res ∈ traceOf out) ∧
    ReadyPods (Status obj) ≤ TotalPods (Status obj).
Proof.
  intros sq st out.
  assert (Hlast : ∃ obj res, last (traceOf out) = Some (EvStatusUpdate obj res)).
  { vm_compute. eexists _, _. reflexivity. }
  destruct Hlast as (obj & res & Hlast).
  exists obj, res.
  assert (H1 : Cluster.wf st) by exact sample_store_wf.
  assert (H2 : Z.of_nat (length (Cluster.allPods st)) < 2 ^ 31)
    by (vm_compute; reflexivity).
  assert (H3 : Cluster.squads st !! (ReqNamespace req, ReqName req) = Some sq)
    by (vm_compute; reflexivity).
  assert (H4 : DeletionTimestamp sq = None) by reflexivity.
  assert (H5 : Cluster.count (Cluster.readyStray sq) st = 0%nat)
    by (vm_compute; reflexivity).
  assert (H6 : EvStatusUpdate obj res ∈ traceOf out).
  { apply last_Some_elem_of. exact Hlast. }
  split; [exact (conj H1 (conj H2 (conj H3 (conj H4 (conj H5 H6)))))|].
  exact (proj1 (ready_at_most_total_without_stray_pods req st sq obj res
                  H1 H2 H3 H4 H5 H6)).
Defined.

Lemma second_pass_is_quiet_after_successful_pass_at_sample :
  let sq := squad false marker (oksanaOnly "a" 2) in
  let st := Cluster.stateOf [sq] [worker "oksana" "a-0" true] in
  let first := Reconcile Cluster.reconciler req st in
  let second := Reconcile Cluster.reconciler req (worldOf first) in
  (Cluster.wf st ∧
   Z.of_nat (length (Cluster.allPods st)) < 2 ^ 31 ∧
   (∀ virtSquad,
      Cluster.squads st !! (ReqNamespace req, ReqName req) = Some virtSquad →
      specInRange (Spec virtSquad)) ∧
   (valueOf first).2 = None) ∧
  creates (traceOf first) ≠ [] ∧
  creates (traceOf second) = [] ∧ deletes (traceOf second) = [].
Proof.
  intros sq st first second.
  assert (H1 : Cluster.wf st) by exact sample_store_wf.
  assert (H2 : Z.of_nat (length (Cluster.allPods st)) < 2 ^ 31)
    by (vm_compute; reflexivity).
  assert (H3 : ∀ virtSquad,
      Cluster.squads st !! (ReqNamespace req, ReqName req) = Some virtSquad →
      specInRange (Spec virtSquad)).
  { intros virtSquad Hk.
    assert (Hsq : Cluster.squads st !! (ReqNamespace req, ReqName req) = Some sq)
      by (vm_compute; reflexivity).
    rewrite Hsq in Hk. injection Hk as <-.
    repeat split; vm_compute; congruence. }
  assert (H4 : (valueOf first).2 = None) by (vm_compute; reflexivity).
  assert (H5 : creates (traceOf first) ≠ []) by (vm_compute; congruence).
  split; [exact (conj H1 (conj H2 (conj H3 H4)))|]. split; [exact H5|].
  exact (second_pass_is_quiet_after_successful_pass req st H1 H2 H3 H4).
Defined.

End Witness.

(** * Further properties of the controller *)

Section Readiness.

(** X7.  isPodReady holds exactly when some condition of the pod has type
    Ready and status True; a pod without conditions is not ready. *)
Theorem isPodReady_iff pod :
  isPodReady pod = true ↔
  ∃ condition, condition ∈ Conditions pod ∧
    ConditionType condition = PodReady ∧
    ConditionStatus condition = ConditionTrue.
Proof.
  unfold isPodReady. rewrite existsb_exists. split.
  - intros (c & Hin & Hc). exists c. apply list_elem_of_In in Hin.
    apply andb_true_iff in Hc as [H1 H2].
    by apply bool_decide_eq_true in H1, H2.
  - intros (c & Hin & H1 & H2). exists c. split; [by apply list_elem_of_In|].
    apply andb_true_iff. by split; apply bool_decide_eq_true.
Qed.

Lemma int32_succ z : int32 (int32 z + 1) = int32 (z + 1).
Proof.
  unfold int32. f_equal.
  replace ((z + 2 ^ 31) `mod` 2 ^ 32 - 2 ^ 31 + 1 + 2 ^ 31)
    with ((z + 2 ^ 31) `mod` 2 ^ 32 + 1) by lia.
  rewrite Z.add_mod_idemp_l by lia. f_equal. lia.
Qed.

Lemma countReady_fold l acc :
  fold_left (λ readyCount pod,
      if isPodReady pod then int32 (readyCount + 1) else readyCount)
    l (int32 acc)
  = int32 (acc + Z.of_nat (readyAmong l)).
Proof.
  revert acc. induction l as [|p l IH]; intros acc.
  - unfold readyAmong. cbn. f_equal. lia.
  - cbn [fold_left]. unfold readyAmong in *. rewrite filter_cons.
    destruct (isPodReady p) eqn:Hp.
    + rewrite decide_True by done. rewrite int32_succ, IH. cbn [length].
      f_equal. lia.
    + rewrite decide_False by done. apply IH.
Qed.

(** X8.  The ready count is the number of ready pods of the listing, as an
    int32, and that number is at most the length of the listing. *)
Theorem countReady_counts l :
  countReady l = int32 (Z.of_nat (readyAmong l)) ∧
  (readyAmong l ≤ length l)%nat.
Proof.
  split; [|apply length_filter].
  unfold countReady. change 0 with (int32 0) at 1.
  by rewrite countReady_fold.
Qed.

End Readiness.

Section MoreOfTheController.
Context {W : Type}.
Variable r : VirtSquadReconciler W.

(** X9.  countReadyPods makes one List call, with the squad's two labels in
    the owner's namespace; it returns the ready count of the listing, or 0
    together with the error of the listing. *)
Theorem countReadyPods_contract virtSquad w :
  let lw := clientList (client r) (squadListOpts virtSquad) w in
  countReadyPods r virtSquad w =
  (match lw.1 with
   | Ok items => (int32 (Z.of_nat (readyAmong items)), None)
   | Fail err => (0, Some err)
   end, lw.2, [EvList (squadListOpts virtSquad) lw.1]) ∧
  InNamespace (squadListOpts virtSquad) = SquadNamespace virtSquad ∧
  MatchingLabels (squadListOpts virtSquad) =
    {[ "app" := "virtsquad";
       "virtsquad.mshort55.io/squad" := SquadName virtSquad ]}.
Proof.
  intros lw. split; [|done]. unfold lw, countReadyPods.
  unfold mbind, M_bind, bind, ListPods, ret.
  destruct (clientList (client r) (squadListOpts virtSquad) w)
    as [[items|err] w1]; cbn [fst snd app]; [|done].
  by rewrite (proj1 (countReady_counts items)).
Qed.

(** X1.  When the resource cannot be fetched the pass makes no other call:
    a NotFound answer ends the pass without error, any other error is
    returned. *)
Theorem get_error_ends_pass req w err w1 :
  clientGet (client r) req w = (Fail err, w1) →
  Reconcile r req w =
  ((emptyResult, if IsNotFound err then None else Some err), w1,
   [EvGet req (Fail err)]).
Proof. intros HG. rewrite Reconcile_run. cbv zeta. by rewrite HG. Qed.

(** X2.  A resource marked for deletion is never reconciled: after the Get,
    the pass only lists the squad's pods, deletes, and at most once, as its
    last call, updates the resource with the marker removed; it creates
    nothing and writes no status. *)
Theorem deleting_pass_only_finalizes req w virtSquad w1 ts :
  clientGet (client r) req w = (Ok virtSquad, w1) →
  DeletionTimestamp virtSquad = Some ts →
  ∃ t u,
    traceOf (Reconcile r req w) = EvGet req (Ok virtSquad) :: t ++ u ∧
    Forall (λ e, kindOf e = KDelete ∨
                 ∃ res, e = EvList (squadListOpts virtSquad) res) t ∧
    (u = [] ∨
     ∃ res, u = [EvUpdate (RemoveFinalizer virtSquad virtSquadFinalizer) res]).
Proof.
  intros HG HD. rewrite Reconcile_run. cbv zeta. rewrite HG. cbn [fst snd].
  rewrite HD.
  destruct (ContainsFinalizer virtSquad virtSquadFinalizer).
  2:{ exists [], []. repeat split; [done|by left]. }
  assert (Hfin : Forall (λ e, kindOf e = KDelete ∨
                   ∃ res, e = EvList (squadListOpts virtSquad) res)
                   (traceOf (finalizeVirtSquad r virtSquad w1))).
  { rewrite finalizeVirtSquad_run. cbv zeta.
    destruct (clientList (client r) (squadListOpts virtSquad) w1)
      as [[items|err] w2]; cbn [fst snd traceOf].
    - constructor; [right; by eexists|].
      eapply loopTrace_Forall; [|apply forEach_Delete_loop]. by left.
    - constructor; [right; by eexists|constructor]. }
  destruct (valueOf (finalizeVirtSquad r virtSquad w1)) as [err|];
    cbn [traceOf snd].
  - exists (traceOf (finalizeVirtSquad r virtSquad w1)), [].
    rewrite app_nil_r. repeat split; [done|by left].
  - eexists _, _. split; [reflexivity|]. split; [done|]. right. by eexists.
Qed.

(** X10.  Scale-down deletes the first listed workers.  When the listing
    shows more workers than the desired, non-negative count and the group's
    reconciliation returns without error, the calls after the listing are
    exactly [current - desired] successful deletes, of the first
    [current - desired] entries of the listing in listing order, and no
    create. *)
Theorem scale_down_deletes_first_listed
    virtSquad memberName ms podBaseName statusPods w items w1 :
  Name ms = Some podBaseName →
  clientList (client r) (memberListOpts virtSquad memberName) w = (Ok items, w1) →
  0 ≤ desiredReplicasOf ms < Z.of_nat (length items) →
  Z.of_nat (length items) < 2 ^ 31 →
  (valueOf (reconcileTeamMember r virtSquad memberName (Some ms) statusPods w)).1
    = None →
  traceOf (reconcileTeamMember r virtSquad memberName (Some ms) statusPods w)
  = EvList (memberListOpts virtSquad memberName) (Ok items) ::
    map (λ p, EvDelete p None)
        (take (length items - Z.to_nat (desiredReplicasOf ms)) items).
Proof.
  intros HN HL Hd Hlen.
  rewrite (reconcileTeamMember_run r _ _ _ podBaseName) by done.
  cbv zeta. rewrite HL. cbn [fst snd].
  rewrite (int32_small (Z.of_nat (length items))) by (unfold is_int32; lia).
  rewrite scaleUp_skip by lia. cbn [valueOf worldOf traceOf fst snd app].
  pose proof (scaleDown_loop r items (Z.of_nat (length items))
                (desiredReplicasOf ms) w1) as Hloop.
  destruct (Z.gtb_spec (Z.of_nat (length items)) (desiredReplicasOf ms))
    as [_|]; [|lia].
  rewrite (int32_small (Z.of_nat (length items) - desiredReplicasOf ms))
    in Hloop by (unfold is_int32; lia).
  replace (Z.to_nat (Z.min (Z.of_nat (length items) - desiredReplicasOf ms)
                       (Z.of_nat (length items))))
    with (length items - Z.to_nat (desiredReplicasOf ms))%nat in Hloop by lia.
  destruct (scaleDown r items _ _ w1) as [[[err|] w2] t2];
    cbn [valueOf worldOf traceOf fst snd] in *; [done|].
  intros _. by apply loopTrace_ok in Hloop as ->.
Qed.

(** X11.  A group that lists exactly the desired number of workers is only
    listed: no create, no delete, and the listed names are reported. *)
Theorem at_desired_count_only_lists
    virtSquad memberName ms podBaseName statusPods w items w1 :
  Name ms = Some podBaseName →
  clientList (client r) (memberListOpts virtSquad memberName) w = (Ok items, w1) →
  int32 (Z.of_nat (length items)) = desiredReplicasOf ms →
  reconcileTeamMember r virtSquad memberName (Some ms) statusPods w =
  ((None, map PodName items), w1,
   [EvList (memberListOpts virtSquad memberName) (Ok items)]).
Proof.
  intros HN HL Heq.
  rewrite (settled_quiet r virtSquad memberName (Some ms) statusPods w items w1
             HL).
  - unfold reportedMembers. by rewrite HN.
  - unfold settled. rewrite HN. cbv zeta. lia.
Qed.

(** ** Failing calls *)

Lemma failFast_single c : failFast [c] (answerOf c).
Proof.
  destruct (answerOf c) as [err|] eqn:Hc.
  - right. exists [], c, err. by repeat split.
  - left. by repeat constructor.
Qed.

Lemma failFast_app t1 t2 e :
  Forall (λ c, answerOf c = None) t1 → failFast t2 e → failFast (t1 ++ t2) e.
Proof.
  intros H1 [H2|(t' & c & err & -> & Ht' & Hc & ->)].
  - left. by apply Forall_app.
  - right. exists (t1 ++ t'), c, err. rewrite (assoc_L (++)).
    repeat split; try done. by apply Forall_app.
Qed.

Lemma failFast_None t : failFast t None → Forall (λ c, answerOf c = None) t.
Proof. by intros [?|(? & ? & ? & _ & _ & _ & ?)]. Qed.

Lemma failFast_loop {A} (ev : A → error → Event) l t e :
  (∀ x a, answerOf (ev x a) = a) → loopTrace ev l t e → failFast t e.
Proof.
  intros Hev Hloop. apply loopTrace_cases in Hloop
    as [[-> ->]|(k & x & err & -> & _ & ->)].
  - left. apply Forall_forall. intros c Hc.
    apply list_elem_of_fmap in Hc as (y & -> & _). apply Hev.
  - right. eexists _, _, err. repeat split; [|apply Hev].
    apply Forall_forall. intros c Hc.
    apply list_elem_of_fmap in Hc as (y & -> & _). apply Hev.
Qed.

Lemma failFast_elim t e t1 c rest err :
  failFast t e → t = t1 ++ c :: rest → answerOf c = Some err →
  rest = [] ∧ e = Some err.
Proof.
  intros [Hok|(t' & c' & err' & -> & Hok & Hc' & ->)] Heq Hc.
  - subst t. rewrite Forall_app, Forall_cons in Hok.
    destruct Hok as (_ & Hok & _). congruence.
  - apply (app_cut (λ c, answerOf c = None)) in Heq as (t'' & -> & Heq);
      [|done|congruence].
    destruct t'' as [|a t'']; [|by destruct t''].
    injection Heq as -> ->. split; [done|congruence].
Qed.

Lemma scaleUp_failFast virtSquad memberName podBaseName c d w :
  failFast (traceOf (scaleUp r virtSquad memberName podBaseName c d w))
    (valueOf (scaleUp r virtSquad memberName podBaseName c d w)).
Proof.
  destruct (virtSquadKind (scheme r)) as [kind|] eqn:Hk.
  - eapply failFast_loop; [|by apply (scaleUp_loop r _ _ _ kind)]. done.
  - destruct (decide (c < d)).
    + rewrite scaleUp_unknown by done. left. constructor.
    + rewrite scaleUp_skip by lia. left. constructor.
Qed.

Lemma group_failFast virtSquad memberName memberSpec statusPods w :
  let out := reconcileTeamMember r virtSquad memberName memberSpec
               statusPods w in
  failFast (traceOf out) (valueOf out).1 ∧
  (∀ err, (valueOf out).1 = Some err → (valueOf out).2 = statusPods).
Proof.
  assert (Hdel :
    failFast (traceOf (deleteTeamMemberPods r virtSquad memberName statusPods w))
      (valueOf (deleteTeamMemberPods r virtSquad memberName statusPods w)).1 ∧
    (∀ err,
       (valueOf (deleteTeamMemberPods r virtSquad memberName statusPods w)).1
         = Some err →
       (valueOf (deleteTeamMemberPods r virtSquad memberName statusPods w)).2
         = statusPods)).
  { rewrite deleteTeamMemberPods_run. cbv zeta.
    destruct (clientList (client r) _ w) as [[items|err] w1]; cbn [fst snd].
    - pose proof (failFast_loop EvDelete _ _ _ (λ _ _, eq_refl)
                    (forEach_Delete_loop r items w1)) as Hloop.
      destruct (valueOf (forEach (Delete r) items w1)) as [err|];
        cbn [valueOf traceOf fst snd]; (split; [|by intros ? [=]]);
        by apply (failFast_app [_]); [repeat constructor|].
    - cbn [valueOf traceOf fst snd]. split; [|done].
      apply (failFast_single (EvList _ (Fail err))). }
  intros out. unfold out.
  destruct memberSpec as [ms|]; [|done].
  destruct (Name ms) as [podBaseName|] eqn:HN.
  2:{ unfold reconcileTeamMember. by rewrite HN. }
  rewrite (reconcileTeamMember_run r _ _ _ podBaseName) by done. cbv zeta.
  destruct (clientList (client r) _ w) as [[items|err] w1]; cbn [fst snd].
  2:{ cbn [valueOf traceOf fst snd]. split; [|done].
      apply (failFast_single (EvList _ (Fail err))). }
  set (c := int32 (Z.of_nat (length items))). set (d := desiredReplicasOf ms).
  pose proof (scaleUp_failFast virtSquad memberName podBaseName c d w1) as Hup.
  destruct (valueOf (scaleUp r virtSquad memberName podBaseName c d w1))
    as [err|]; cbn [valueOf traceOf fst snd].
  { split; [|done]. by apply (failFast_app [_]); [repeat constructor|]. }
  apply failFast_None in Hup.
  pose proof (failFast_loop EvDelete _ _ _ (λ _ _, eq_refl)
                (scaleDown_loop r items c d
                   (worldOf (scaleUp r virtSquad memberName podBaseName c d w1))))
    as Hdown.
  destruct (valueOf (scaleDown r items c d _)) as [err|];
    cbn [valueOf traceOf fst snd]; (split; [|by intros ? [=]]);
    apply (failFast_app [_]); [by repeat constructor| |by repeat constructor|];
    by apply failFast_app.
Qed.

(** X3.  A client call that fails during a group's reconciliation is the
    group's last call: the reconciliation returns that error and leaves the
    status slice as it was. *)
Theorem failed_call_ends_group
    virtSquad memberName memberSpec statusPods w t c rest err :
  traceOf (reconcileTeamMember r virtSquad memberName memberSpec statusPods w)
    = t ++ c :: rest →
  answerOf c = Some err →
  rest = [] ∧
  valueOf (reconcileTeamMember r virtSquad memberName memberSpec statusPods w)
    = (Some err, statusPods).
Proof.
  intros Ht Hc.
  destruct (group_failFast virtSquad memberName memberSpec statusPods w)
    as [Hff Hsp]. cbv zeta in Hff, Hsp.
  destruct (failFast_elim _ _ _ _ _ _ Hff Ht Hc) as [-> He].
  split; [done|].
  specialize (Hsp err He).
  destruct (valueOf (reconcileTeamMember r virtSquad memberName memberSpec
                       statusPods w)) as [e sp].
  cbn in *. by subst.
Qed.

(** The four groups in order: either one fails, and its failing call or
    its error ends the trace, or all calls were answered without error. *)
Lemma members_groups_failFast virtSquad w :
  let out := reconcileMembers r virtSquad w in
  (∃ err, (valueOf out).2 = Some err ∧ failFast (traceOf out) (Some err)) ∨
  (∃ tg lw obj uw,
     Forall (λ c, answerOf c = None) tg ∧
     traceOf out =
       tg ++ [EvList (squadListOpts virtSquad) lw; EvStatusUpdate obj uw] ∧
     (valueOf out).2 = answer uw).
Proof.
  intros out. unfold out. rewrite reconcileMembers_run. cbv zeta.
  set (o1 := reconcileTeamMember r virtSquad "oksana" _ _ w).
  destruct (group_failFast virtSquad "oksana" (Oksana (Spec virtSquad)) [] w)
    as [F1 _]. fold o1 in F1. cbv zeta in F1.
  destruct (valueOf o1).1 as [err|].
  { left. exists err. by split. }
  apply failFast_None in F1.
  set (o2 := reconcileTeamMember r virtSquad "kurtis" _ _ (worldOf o1)).
  destruct (group_failFast virtSquad "kurtis" (Kurtis (Spec virtSquad)) []
              (worldOf o1)) as [F2 _]. fold o2 in F2. cbv zeta in F2.
  destruct (valueOf o2).1 as [err|].
  { left. exists err. split; [done|]. by apply failFast_app. }
  apply failFast_None in F2.
  set (o3 := reconcileTeamMember r virtSquad "matt" _ _ (worldOf o2)).
  destruct (group_failFast virtSquad "matt" (Matt (Spec virtSquad)) []
              (worldOf o2)) as [F3 _]. fold o3 in F3. cbv zeta in F3.
  destruct (valueOf o3).1 as [err|].
  { left. exists err. split; [done|]. cbn [traceOf snd].
    by repeat apply failFast_app. }
  apply failFast_None in F3.
  set (o4 := reconcileTeamMember r virtSquad "kike" _ _ (worldOf o3)).
  destruct (group_failFast virtSquad "kike" (Kike (Spec virtSquad)) []
              (worldOf o3)) as [F4 _]. fold o4 in F4. cbv zeta in F4.
  destruct (valueOf o4).1 as [err|].
  { left. exists err. split; [done|]. cbn [traceOf snd].
    by repeat apply failFast_app. }
  apply failFast_None in F4.
  right. rewrite updateStatus_run. cbv zeta.
  cbn [valueOf worldOf traceOf fst snd].
  eexists (traceOf o1 ++ traceOf o2 ++ traceOf o3 ++ traceOf o4), _, _, _.
  split; [by rewrite !Forall_app|]. split; [|reflexivity].
  by rewrite <- !(assoc_L (++)).
Qed.

Lemma members_failed_write virtSquad w t c rest err :
  traceOf (reconcileMembers r virtSquad w) = t ++ c :: rest →
  isWrite c → answerOf c = Some err →
  rest = [] ∧ (valueOf (reconcileMembers r virtSquad w)).2 = Some err.
Proof.
  intros Ht Hw Hc.
  destruct (members_groups_failFast virtSquad w)
    as [(e & Hv & Hff)|(tg & lw & obj & uw & Hok & Htr & Hv)];
    cbv zeta in *.
  - rewrite Hv. by eapply failFast_elim.
  - rewrite Htr in Ht.
    apply (app_cut (λ c, answerOf c = None)) in Ht as (t' & -> & Ht);
      [|done|congruence].
    destruct t' as [|a [|b t']].
    + injection Ht as <- _. by destruct Hw as [?|[?|[?|?]]].
    + injection Ht as _ <- <-. rewrite Hv. by split.
    + apply (f_equal length) in Ht. rewrite !length_cons, length_app in Ht.
      cbn in Ht. lia.
Qed.

(** X4.  A failed Create, Delete, Update or Status().Update is the last
    call of the pass, and the pass returns its error: nothing is attempted
    after a write that failed. *)
Theorem failed_write_ends_pass req w t c rest err :
  traceOf (Reconcile r req w) = t ++ c :: rest →
  isWrite c → answerOf c = Some err →
  rest = [] ∧ (valueOf (Reconcile r req w)).2 = Some err.
Proof.
  rewrite Reconcile_run. cbv zeta.
  destruct (clientGet (client r) req w) as [[virtSquad|e] w1]; cbn [fst snd].
  2:{ cbn [traceOf snd]. intros Ht Hw _. destruct t as [|a t].
      - injection Ht as <- _. by destruct Hw as [?|[?|[?|?]]].
      - by destruct t. }
  assert (Hfin : ∀ w0, failFast (traceOf (finalizeVirtSquad r virtSquad w0))
                         (valueOf (finalizeVirtSquad r virtSquad w0))).
  { intros w0. rewrite finalizeVirtSquad_run. cbv zeta.
    destruct (clientList (client r) _ w0) as [[items|e] w2]; cbn [fst snd].
    - cbn [valueOf traceOf fst snd].
      apply (failFast_app [_]); [by repeat constructor|].
      eapply failFast_loop; [|apply forEach_Delete_loop]. done.
    - apply (failFast_single (EvList _ (Fail e))). }
  assert (Hcons : ∀ x t0 (e : error),
    answerOf x = None →
    (∀ t1 rest0, t0 = t1 ++ c :: rest0 → rest0 = [] ∧ e = Some err) →
    ∀ t1 rest0, x :: t0 = t1 ++ c :: rest0 → answerOf c = Some err →
    rest0 = [] ∧ e = Some err).
  { intros x t0 e Hx Ht0 t1 rest0 Heq Hc. destruct t1 as [|a t1].
    - injection Heq as <- _. congruence.
    - injection Heq as _ Heq. by eapply Ht0. }
  destruct (DeletionTimestamp virtSquad) as [ts|].
  - destruct (ContainsFinalizer virtSquad virtSquadFinalizer).
    2:{ cbn [traceOf snd]. intros Ht Hw _. destruct t as [|a t].
        - injection Ht as <- _. by destruct Hw as [?|[?|[?|?]]].
        - by destruct t. }
    specialize (Hfin w1).
    destruct (valueOf (finalizeVirtSquad r virtSquad w1)) as [e|];
      cbn [valueOf traceOf fst snd]; intros Ht Hw Hc.
    + eapply (Hcons _ _ (Some e)); [| |exact Ht|exact Hc]; [done|].
      intros t1 rest0 Heq. by eapply failFast_elim.
    + apply failFast_None in Hfin.
      eapply (Hcons _ _ (answer _)); [| |exact Ht|exact Hc]; [done|].
      intros t1 rest0 Heq.
      eapply (failFast_elim _ _ _ _ _ _ _ Heq Hc). Unshelve.
      apply failFast_app; [done|].
      apply (failFast_single (EvUpdate _ _)).
  - destruct (ContainsFinalizer virtSquad virtSquadFinalizer);
      cbn [valueOf traceOf fst snd].
    + intros Ht Hw Hc.
      eapply (Hcons _ _ _); [| |exact Ht|exact Hc]; [done|].
      intros t1 rest0 Heq. by eapply members_failed_write.
    + destruct (clientUpdate (client r) _ w1) as [[virtSquad'|e] w2];
        cbn [valueOf traceOf fst snd]; intros Ht Hw Hc.
      * eapply (Hcons _ _ _); [| |exact Ht|exact Hc]; [done|].
        intros t1 rest0 Heq.
        eapply (Hcons _ _ _); [| |exact Heq|exact Hc]; [done|].
        intros t2 rest1 Heq'. by eapply members_failed_write.
      * eapply (Hcons _ _ _); [| |exact Ht|exact Hc]; [done|].
        intros t1 rest0 Heq.
        eapply (failFast_elim [_] (Some e) _ _ _ _ _ Heq Hc). Unshelve.
        apply (failFast_single (EvUpdate _ (Fail e))).
Qed.

(** ** What is created and what is deleted *)

Lemma loopTrace_elem {A} (ev : A → error → Event) l t e c :
  loopTrace ev l t e → c ∈ t → ∃ x a, x ∈ l ∧ c = ev x a.
Proof.
  induction 1; intros Hc.
  - by apply elem_of_nil in Hc.
  - apply list_elem_of_singleton in Hc as ->. eexists _, _.
    split; [apply elem_of_cons; by left|done].
  - apply elem_of_cons in Hc as [->|Hc].
    + eexists _, _. split; [apply elem_of_cons; by left|done].
    + destruct (IHloopTrace Hc) as (y & a & Hy & ->).
      exists y, a. split; [apply elem_of_cons; by right|done].
Qed.

(** X5.  Every pod a group's reconciliation asks to create is the owned
    pod of the group: the group has a base name, the scheme knows the
    owner's kind, and the pod is named [<baseName>-<i>] for an ordinal [i]
    from the listed count up to, and excluding, the desired count, lives in
    the owner's namespace, carries the group's three labels and the owner
    as controller, runs the one nginx container and has no condition.  An
    absent group never creates. *)
Theorem created_pods_are_owned_pods
    virtSquad memberName memberSpec statusPods w pod res :
  EvCreate pod res ∈
    traceOf (reconcileTeamMember r virtSquad memberName memberSpec statusPods w) →
  ∃ ms podBaseName kind items i,
    memberSpec = Some ms ∧ Name ms = Some podBaseName ∧
    virtSquadKind (scheme r) = Some kind ∧
    (clientList (client r) (memberListOpts virtSquad memberName) w).1
      = Ok items ∧
    int32 (Z.of_nat (length items)) ≤ i < desiredReplicasOf ms ∧
    pod = mkPod (podBaseName +:+ "-" +:+ pretty i) (SquadNamespace virtSquad)
            (memberLabels virtSquad memberName)
            [mkOwnerReference kind (SquadName virtSquad) true]
            [mkContainer memberName "nginx:latest" [mkContainerPort 80 "http"]]
            [].
Proof.
  intros Hin.
  assert (Hdel : EvCreate pod res ∈
    traceOf (deleteTeamMemberPods r virtSquad memberName statusPods w) → False).
  { rewrite deleteTeamMemberPods_run. cbv zeta.
    destruct (clientList (client r) _ w) as [[items|err] w1]; cbn [fst snd].
    - pose proof (loopTrace_Forall EvDelete (λ e, kindOf e = KDelete) _ _ _
                    (λ _ _, eq_refl) (forEach_Delete_loop r items w1)) as Hf.
      destruct (valueOf (forEach (Delete r) items w1));
        cbn [traceOf snd]; intros Hc;
        apply elem_of_cons in Hc as [?|Hc]; try done;
        rewrite Forall_forall in Hf; by specialize (Hf _ Hc).
    - cbn [traceOf snd]. intros Hc.
      by apply list_elem_of_singleton in Hc. }
  destruct memberSpec as [ms|]; [|by destruct Hdel].
  destruct (Name ms) as [podBaseName|] eqn:HN.
  2:{ unfold reconcileTeamMember in Hin. rewrite HN in Hin. by destruct Hdel. }
  clear Hdel. revert Hin.
  rewrite (reconcileTeamMember_run r _ _ _ podBaseName) by done. cbv zeta.
  destruct (clientList (client r) _ w) as [[items|err] w1]; cbn [fst snd].
  2:{ cbn [traceOf snd]. intros Hc. by apply list_elem_of_singleton in Hc. }
  set (c := int32 (Z.of_nat (length items))). set (d := desiredReplicasOf ms).
  assert (Hup : EvCreate pod res ∈
    traceOf (scaleUp r virtSquad memberName podBaseName c d w1) →
    ∃ kind i, virtSquadKind (scheme r) = Some kind ∧ c ≤ i < d ∧
              pod = ownedPod virtSquad memberName podBaseName kind i).
  { destruct (virtSquadKind (scheme r)) as [kind|] eqn:Hk.
    - intros Hc.
      destruct (loopTrace_elem _ _ _ _ _
                  (scaleUp_loop r virtSquad memberName podBaseName kind c d w1
                     Hk) Hc) as (i & a & Hi & Heq).
      exists kind, i. split; [done|]. split.
      + destruct (c <? d); [|by apply elem_of_nil in Hi].
        apply elem_of_seqZ in Hi. lia.
      + apply (f_equal (λ e, match e with
                             | EvCreate p _ => Some p
                             | _ => None
                             end)) in Heq.
        by injection Heq as ->.
    - destruct (decide (c < d)).
      + rewrite scaleUp_unknown by done. intros Hc.
        by apply elem_of_nil in Hc.
      + rewrite scaleUp_skip by lia. intros Hc. by apply elem_of_nil in Hc. }
  assert (Hcore : EvCreate pod res ∈
    EvList (memberListOpts virtSquad memberName) (Ok items) ::
    traceOf (scaleUp r virtSquad memberName podBaseName c d w1) ++
    traceOf (scaleDown r items c d
               (worldOf (scaleUp r virtSquad memberName podBaseName c d w1))) →
    ∃ kind i, virtSquadKind (scheme r) = Some kind ∧ c ≤ i < d ∧
              pod = ownedPod virtSquad memberName podBaseName kind i).
  { intros Hc. apply elem_of_cons in Hc as [?|Hc]; [done|].
    apply elem_of_app in Hc as [Hc|Hc]; [by apply Hup|].
    pose proof (scaleDown_trace r items c d
      (worldOf (scaleUp r virtSquad memberName podBaseName c d w1))) as Hf.
    rewrite Forall_forall in Hf. by specialize (Hf _ Hc). }
  assert (Hgoal : EvCreate pod res ∈
    EvList (memberListOpts virtSquad memberName) (Ok items) ::
    traceOf (scaleUp r virtSquad memberName podBaseName c d w1) ++
    traceOf (scaleDown r items c d
               (worldOf (scaleUp r virtSquad memberName podBaseName c d w1))) →
    ∃ ms0 podBaseName0 kind items0 i,
      Some ms = Some ms0 ∧ Name ms0 = Some podBaseName0 ∧
      virtSquadKind (scheme r) = Some kind ∧ Ok items = Ok items0 ∧
      int32 (Z.of_nat (length items0)) ≤ i < desiredReplicasOf ms0 ∧
      pod = mkPod (podBaseName0 +:+ "-" +:+ pretty i) (SquadNamespace virtSquad)
              (memberLabels virtSquad memberName)
              [mkOwnerReference kind (SquadName virtSquad) true]
              [mkContainer memberName "nginx:latest"
                 [mkContainerPort 80 "http"]] []).
  { intros Hc. destruct (Hcore Hc) as (kind & i & Hk & Hi & ->).
    by exists ms, podBaseName, kind, items, i. }
  destruct (valueOf (scaleUp r virtSquad memberName podBaseName c d w1))
    as [err|]; cbn [traceOf snd].
  - intros Hc. apply Hgoal.
    apply elem_of_cons in Hc as [Hc|Hc]; [by rewrite Hc; left|].
    apply elem_of_cons. right. apply elem_of_app. by left.
  - destruct (valueOf (scaleDown r items c d _)); cbn [traceOf snd];
      intros Hc; by apply Hgoal.
Qed.

Lemma listedDeletes_none t :
  Forall (λ e, kindOf e ≠ KDelete) t → listedDeletes t.
Proof.
  intros Hf t1 p res rest ->. rewrite Forall_app, Forall_cons in Hf.
  by destruct Hf as (_ & ? & _).
Qed.

Lemma listedDeletes_app t1 t2 :
  listedDeletes t1 → listedDeletes t2 → listedDeletes (t1 ++ t2).
Proof.
  intros H1 H2 a p res rest Heq.
  apply app_eq_inv in Heq as [(k & -> & Hk)|(k & -> & Hk)].
  - destruct k as [|x k].
    + destruct (H2 [] p res rest) as (opts & items & Hin & _); [done|].
      by apply elem_of_nil in Hin.
    + injection Hk as <- _. by eapply H1.
  - destruct (H2 k p res rest Hk) as (opts & items & Hin & Hp).
    exists opts, items. split; [|done]. apply elem_of_app. by right.
Qed.

Lemma listedDeletes_cons x t :
  kindOf x ≠ KDelete → listedDeletes t → listedDeletes (x :: t).
Proof.
  intros Hx Ht. apply (listedDeletes_app [x]); [|done].
  apply listedDeletes_none. by repeat constructor.
Qed.

Lemma listedDeletes_segment opts items t :
  Forall (λ e, kindOf e ≠ KDelete ∨
               ∃ p res, e = EvDelete p res ∧ p ∈ items) t →
  listedDeletes (EvList opts (Ok items) :: t).
Proof.
  intros Hf a p res rest Heq. destruct a as [|x a]; [done|].
  injection Heq as <- ->. rewrite Forall_app, Forall_cons in Hf.
  destruct Hf as (_ & [Hk|(q & res' & Hq & Hin)] & _); [done|].
  apply (f_equal (λ e, match e with
                       | EvDelete p _ => Some p
                       | _ => None
                       end)) in Hq.
  injection Hq as ->. exists opts, items. split; [|done].
  apply elem_of_cons. by left.
Qed.

Lemma delete_loop_listed (l items : list Pod) t e :
  l ⊆ items → loopTrace EvDelete l t e →
  Forall (λ e, kindOf e ≠ KDelete ∨
               ∃ p res, e = EvDelete p res ∧ p ∈ items) t.
Proof.
  intros Hsub Hloop. apply Forall_forall. intros c Hc.
  destruct (loopTrace_elem _ _ _ _ _ Hloop Hc) as (p & a & Hp & ->).
  right. exists p, a. split; [done|]. by apply Hsub.
Qed.

Lemma group_listedDeletes virtSquad memberName memberSpec statusPods w :
  listedDeletes
    (traceOf (reconcileTeamMember r virtSquad memberName memberSpec statusPods w)).
Proof.
  assert (Hdel : listedDeletes
    (traceOf (deleteTeamMemberPods r virtSquad memberName statusPods w))).
  { rewrite deleteTeamMemberPods_run. cbv zeta.
    destruct (clientList (client r) _ w) as [[items|err] w1]; cbn [fst snd].
    - pose proof (delete_loop_listed items items _ _ (reflexivity _)
                    (forEach_Delete_loop r items w1)) as Hf.
      destruct (valueOf (forEach (Delete r) items w1)); cbn [traceOf snd];
        by apply listedDeletes_segment.
    - apply listedDeletes_none. by repeat constructor. }
  destruct memberSpec as [ms|]; [|done].
  destruct (Name ms) as [podBaseName|] eqn:HN.
  2:{ unfold reconcileTeamMember. by rewrite HN. }
  rewrite (reconcileTeamMember_run r _ _ _ podBaseName) by done. cbv zeta.
  destruct (clientList (client r) _ w) as [[items|err] w1]; cbn [fst snd].
  2:{ apply listedDeletes_none. by repeat constructor. }
  set (c := int32 (Z.of_nat (length items))). set (d := desiredReplicasOf ms).
  assert (Hup : Forall (λ e, kindOf e ≠ KDelete ∨
                   ∃ p res, e = EvDelete p res ∧ p ∈ items)
            (traceOf (scaleUp r virtSquad memberName podBaseName c d w1))).
  { eapply Forall_impl; [apply scaleUp_trace|].
    intros e He. left. by rewrite He. }
  assert (Hdown : ∀ w0, Forall (λ e, kindOf e ≠ KDelete ∨
                   ∃ p res, e = EvDelete p res ∧ p ∈ items)
            (traceOf (scaleDown r items c d w0))).
  { intros w0. eapply delete_loop_listed; [|apply scaleDown_loop].
    destruct (c >? d); [|by intros ? ?%elem_of_nil].
    apply subseteq_take. }
  destruct (valueOf (scaleUp r virtSquad memberName podBaseName c d w1));
    cbn [traceOf snd]; [by apply listedDeletes_segment|].
  destruct (valueOf (scaleDown r items c d _)); cbn [traceOf snd];
    apply listedDeletes_segment; by apply Forall_app.
Qed.

(** X6.  The pass only deletes what it listed: every Delete call of a pass
    targets a pod that an earlier List call of the same pass returned. *)
Theorem pass_deletes_only_listed_pods req w t pod res rest :
  traceOf (Reconcile r req w) = t ++ EvDelete pod res :: rest →
  ∃ opts items, EvList opts (Ok items) ∈ t ∧ pod ∈ items.
Proof.
  assert (Hmembers : ∀ v w0, listedDeletes (traceOf (reconcileMembers r v w0))).
  { intros v w0. rewrite reconcileMembers_run. cbv zeta.
    pose proof (group_listedDeletes v "oksana" (Oksana (Spec v)) [] w0) as H1.
    set (o1 := reconcileTeamMember r v "oksana" _ _ w0) in *.
    destruct (valueOf o1).1; [done|].
    pose proof (group_listedDeletes v "kurtis" (Kurtis (Spec v)) []
                  (worldOf o1)) as H2.
    set (o2 := reconcileTeamMember r v "kurtis" _ _ (worldOf o1)) in *.
    destruct (valueOf o2).1; cbn [traceOf snd];
      [by apply listedDeletes_app|].
    pose proof (group_listedDeletes v "matt" (Matt (Spec v)) []
                  (worldOf o2)) as H3.
    set (o3 := reconcileTeamMember r v "matt" _ _ (worldOf o2)) in *.
    destruct (valueOf o3).1; cbn [traceOf snd];
      [by repeat apply listedDeletes_app|].
    pose proof (group_listedDeletes v "kike" (Kike (Spec v)) []
                  (worldOf o3)) as H4.
    set (o4 := reconcileTeamMember r v "kike" _ _ (worldOf o3)) in *.
    destruct (valueOf o4).1; cbn [traceOf snd];
      [by repeat apply listedDeletes_app|].
    repeat apply listedDeletes_app; try done.
    rewrite updateStatus_run. cbv zeta. cbn [traceOf snd].
    apply listedDeletes_none. by repeat constructor. }
  assert (Hpass : listedDeletes (traceOf (Reconcile r req w))).
  { rewrite Reconcile_run. cbv zeta.
    destruct (clientGet (client r) req w) as [[virtSquad|e] w1]; cbn [fst snd].
    2:{ apply listedDeletes_none. by repeat constructor. }
    destruct (DeletionTimestamp virtSquad) as [ts|].
    - destruct (ContainsFinalizer virtSquad virtSquadFinalizer).
      2:{ apply listedDeletes_none. by repeat constructor. }
      assert (Hfin : listedDeletes (traceOf (finalizeVirtSquad r virtSquad w1))).
      { rewrite finalizeVirtSquad_run. cbv zeta.
        destruct (clientList (client r) _ w1) as [[items|e] w2]; cbn [fst snd].
        - cbn [traceOf snd]. apply listedDeletes_segment.
          eapply delete_loop_listed; [|apply forEach_Delete_loop]. done.
        - apply listedDeletes_none. by repeat constructor. }
      destruct (valueOf (finalizeVirtSquad r virtSquad w1)); cbn [traceOf snd].
      + by apply listedDeletes_cons.
      + apply listedDeletes_cons; [done|]. apply listedDeletes_app; [done|].
        apply listedDeletes_none. by repeat constructor.
    - destruct (ContainsFinalizer virtSquad virtSquadFinalizer);
        cbn [traceOf snd].
      + by apply listedDeletes_cons.
      + destruct (clientUpdate (client r) _ w1) as [[virtSquad'|e] w2];
          cbn [traceOf fst snd].
        * by repeat apply listedDeletes_cons.
        * apply listedDeletes_none. by repeat constructor. }
  intros Ht. by eapply Hpass.
Qed.

(** X12.  The status a pass writes.  The status write is the last call of
    the pass and follows the ready-count listing; the written object is the
    reconciled resource with a new status only, in which totalWorkers is the
    int32 sum of the four member-list lengths and readyWorkers is the ready
    count of the listing, or 0 when that listing failed; the pass returns
    the answer of the write. *)
Theorem status_written_by_pass virtSquad w obj res :
  EvStatusUpdate obj res ∈ traceOf (reconcileMembers r virtSquad w) →
  ∃ t lw,
    traceOf (reconcileMembers r virtSquad w) =
      t ++ [EvList (squadListOpts virtSquad) lw; EvStatusUpdate obj res] ∧
    obj = withStatus virtSquad (Status obj) ∧
    TotalPods (Status obj) =
      int32 (Z.of_nat (length (OksanaPods (Status obj)) +
                       length (KurtisPods (Status obj)) +
                       length (MattPods (Status obj)) +
                       length (KikePods (Status obj)))%nat) ∧
    ReadyPods (Status obj) =
      match lw with Ok items => countReady items | Fail _ => 0 end ∧
    valueOf (reconcileMembers r virtSquad w) = (emptyResult, answer res).
Proof.
  intros Hin.
  destruct (reconcileMembers_trace r virtSquad w)
    as (tg & Htg & [(err & _ & Ht)|(status & w' & Hr & Hv & Ht)]);
    cbv zeta in *.
  { rewrite Ht in Hin. rewrite Forall_forall in Htg.
    by destruct (Htg _ Hin) as [?|[?|(? & ? & ?)]]. }
  rewrite Ht in Hin |- *. rewrite Hv. clear Ht Hv.
  rewrite updateStatus_run in Hin |- *. cbv zeta in Hin |- *.
  cbn [traceOf valueOf fst snd] in Hin |- *.
  apply elem_of_app in Hin as [Hin|Hin].
  { rewrite Forall_forall in Htg.
    by destruct (Htg _ Hin) as [?|[?|(? & ? & ?)]]. }
  apply elem_of_cons in Hin as [?|Hin]; [done|].
  apply list_elem_of_singleton in Hin.
  assert (Hobj := f_equal (λ e, match e with
                                | EvStatusUpdate o _ => Some o
                                | _ => None
                                end) Hin).
  assert (Hres := f_equal (λ e, match e with
                                | EvStatusUpdate _ a => Some a
                                | _ => None
                                end) Hin).
  cbn in Hobj, Hres. injection Hobj as Hobj. injection Hres as Hres.
  clear Hin. subst obj res.
  exists tg, (clientList (client r) (squadListOpts virtSquad) w').1.
  split; [done|].
  destruct (clientList (client r) (squadListOpts virtSquad) w').1;
    by repeat split.
Qed.

(** X15.  The only change the pass makes to the resource itself is its
    marker: every Update of a pass writes the fetched resource with the
    marker added or removed and nothing else changed, and a pass issues at
    most one Update. *)
Theorem update_only_changes_marker req w virtSquad w1 :
  clientGet (client r) req w = (Ok virtSquad, w1) →
  (length (filter (λ e, kindOf e = KUpdate) (traceOf (Reconcile r req w))) ≤ 1)%nat ∧
  ∀ obj res, EvUpdate obj res ∈ traceOf (Reconcile r req w) →
    obj = withFinalizers virtSquad (Finalizers obj) ∧
    (Finalizers obj = Finalizers virtSquad ++ [virtSquadFinalizer] ∨
     Finalizers obj =
       filter (λ f, f ≠ virtSquadFinalizer) (Finalizers virtSquad)).
Proof.
  intros HG.
  assert (Hmembers : ∀ v w0,
    Forall (λ e, kindOf e ≠ KUpdate) (traceOf (reconcileMembers r v w0))).
  { intros v w0.
    destruct (reconcileMembers_trace r v w0)
      as (tg & Htg & [(err & _ & ->)|(status & w' & _ & _ & ->)]);
      cbv zeta in *.
    - eapply Forall_impl; [exact Htg|].
      intros e [He|[He|(g & res & ->)]]; by rewrite ?He.
    - apply Forall_app. split.
      + eapply Forall_impl; [exact Htg|].
        intros e [He|[He|(g & res & ->)]]; by rewrite ?He.
      + rewrite updateStatus_run. cbv zeta. cbn [traceOf snd].
        by repeat constructor. }
  assert (Hnone : ∀ t, Forall (λ e, kindOf e ≠ KUpdate) t →
    filter (λ e, kindOf e = KUpdate) t = [] ∧
    ∀ obj res, EvUpdate obj res ∈ t → False).
  { intros t Ht. split.
    - induction Ht as [|x t Hx _ IH]; [done|].
      by rewrite filter_cons_False.
    - intros obj res Hin. rewrite Forall_forall in Ht.
      by specialize (Ht _ Hin). }
  rewrite Reconcile_run. cbv zeta. rewrite HG. cbn [fst snd].
  destruct (DeletionTimestamp virtSquad) as [ts|].
  - destruct (ContainsFinalizer virtSquad virtSquadFinalizer).
    2:{ cbn [traceOf snd]. rewrite filter_cons_False by done.
        split; [cbn; lia|].
        intros obj res Hin. by apply list_elem_of_singleton in Hin. }
    assert (Hfin : Forall (λ e, kindOf e ≠ KUpdate)
                     (traceOf (finalizeVirtSquad r virtSquad w1))).
    { rewrite finalizeVirtSquad_run. cbv zeta.
      destruct (clientList (client r) _ w1) as [[items|e] w2]; cbn [fst snd].
      - cbn [traceOf snd]. constructor; [done|].
        eapply loopTrace_Forall; [|apply forEach_Delete_loop]. done.
      - by repeat constructor. }
    destruct (Hnone _ Hfin) as [Hf Hno].
    destruct (valueOf (finalizeVirtSquad r virtSquad w1)); cbn [traceOf snd].
    + rewrite filter_cons_False by done. rewrite Hf. split; [cbn; lia|].
      intros obj res Hin. apply elem_of_cons in Hin as [?|Hin]; [done|].
      by destruct (Hno _ _ Hin).
    + rewrite filter_cons_False by done. rewrite filter_app, Hf.
      rewrite filter_cons_True by done.
      split; [cbn; lia|].
      intros obj res Hin. apply elem_of_cons in Hin as [?|Hin]; [done|].
      apply elem_of_app in Hin as [Hin|Hin]; [by destruct (Hno _ _ Hin)|].
      apply list_elem_of_singleton in Hin.
      apply (f_equal (λ e, match e with
                           | EvUpdate o _ => Some o
                           | _ => None
                           end)) in Hin.
      injection Hin as ->. split; [done|]. by right.
  - destruct (ContainsFinalizer virtSquad virtSquadFinalizer) eqn:HF;
      cbn [traceOf snd].
    + destruct (Hnone _ (Hmembers virtSquad w1)) as [Hf Hno].
      rewrite filter_cons_False by done. rewrite Hf. split; [cbn; lia|].
      intros obj res Hin. apply elem_of_cons in Hin as [?|Hin]; [done|].
      by destruct (Hno _ _ Hin).
    + assert (Hadd : AddFinalizer virtSquad virtSquadFinalizer =
                withFinalizers virtSquad
                  (Finalizers virtSquad ++ [virtSquadFinalizer])).
      { unfold AddFinalizer. by rewrite HF. }
      destruct (clientUpdate (client r) _ w1) as [[virtSquad'|e] w2];
        cbn [traceOf fst snd].
      * destruct (Hnone _ (Hmembers virtSquad' w2)) as [Hf Hno].
        rewrite filter_cons_False by done.
        rewrite filter_cons_True by done. rewrite Hf. split; [cbn; lia|].
        intros obj res Hin. apply elem_of_cons in Hin as [?|Hin]; [done|].
        apply elem_of_cons in Hin as [Hin|Hin]; [|by destruct (Hno _ _ Hin)].
        apply (f_equal (λ e, match e with
                             | EvUpdate o _ => Some o
                             | _ => None
                             end)) in Hin.
        injection Hin as ->. rewrite Hadd. split; [done|]. by left.
      * rewrite filter_cons_False by done.
        rewrite filter_cons_True by done.
        split; [cbn; lia|].
        intros obj res Hin. apply elem_of_cons in Hin as [?|Hin]; [done|].
        apply list_elem_of_singleton in Hin.
        apply (f_equal (λ e, match e with
                             | EvUpdate o _ => Some o
                             | _ => None
                             end)) in Hin.
        injection Hin as ->. rewrite Hadd. split; [done|]. by left.
Qed.

End MoreOfTheController.

(** * Further properties against the reference control plane *)

Module StoreProperties.
Import Cluster ClusterFacts.

(** A create loop, whatever its outcome, added a prefix of its pods. *)
Lemma create_loop_any (mk : Z → Pod) l st :
  wf st →
  let out := forEach (λ i, Create reconciler (mk i)) l st in
  ∃ k, wf (worldOf out) ∧ squads (worldOf out) = squads st ∧
       allPods (worldOf out) ≡ₚ map mk (take k l) ++ allPods st.
Proof.
  revert st. induction l as [|i l IH]; intros st Hwf.
  - exists 0%nat. split; [done|]. by split.
  - cbv zeta. rewrite forEach_cons, Create_run.
    change (clientCreate (client reconciler) (mk i) st)
      with (apiCreate (mk i) st).
    destruct (apiCreate (mk i) st) as [[err|] st1] eqn:Hc;
      cbn [valueOf worldOf traceOf fst snd].
    + exists 0%nat. unfold apiCreate in Hc.
      destruct (pods st !! podKey (mk i)); [|done].
      injection Hc as _ <-. split; [done|]. by split.
    + destruct (apiCreate_ok _ _ _ Hwf Hc) as (Hwf1 & Hs1 & Hperm).
      destruct (IH st1 Hwf1) as (k & Hwf' & Hs' & Hperm').
      exists (S k). split; [done|]. split; [congruence|].
      rewrite Hperm', Hperm. cbn [take map]. by rewrite <- Permutation_middle.
Qed.

(** Whatever its outcome, a group's reconciliation adds and removes only
    pods of the group and leaves the squads alone. *)
Lemma group_touches_only_group virtSquad memberName memberSpec statusPods st :
  wf st →
  let out := reconcileTeamMember reconciler virtSquad memberName memberSpec
               statusPods st in
  ∃ added removed,
    allPods (worldOf out) ++ removed ≡ₚ added ++ allPods st ∧
    Forall (inGroup virtSquad memberName) added ∧
    Forall (inGroup virtSquad memberName) removed ∧
    wf (worldOf out) ∧ squads (worldOf out) = squads st.
Proof.
  intros Hwf out. unfold out.
  set (gopts := memberListOpts virtSquad memberName).
  set (items := listPods gopts st).
  assert (Habsent : ∃ added removed,
    allPods (worldOf (deleteTeamMemberPods reconciler virtSquad memberName
                        statusPods st)) ++ removed ≡ₚ added ++ allPods st ∧
    Forall (inGroup virtSquad memberName) added ∧
    Forall (inGroup virtSquad memberName) removed ∧
    wf (worldOf (deleteTeamMemberPods reconciler virtSquad memberName
                   statusPods st)) ∧
    squads (worldOf (deleteTeamMemberPods reconciler virtSquad memberName
                       statusPods st)) = squads st).
  { rewrite deleteTeamMemberPods_run. cbv zeta.
    change (clientList (client reconciler) (memberListOpts virtSquad memberName)
              st) with (Ok items, st). cbn [fst snd].
    destruct (delete_loop items st Hwf (listPods_NoDup gopts st Hwf)
                (listPods_stored gopts st)) as (st' & Hrun & Hwf' & Hs' & Hperm).
    rewrite Hrun. cbn [valueOf worldOf traceOf fst snd].
    exists [], items. rewrite Hperm. split; [by rewrite (comm (++))|].
    split; [done|]. split; [apply listPods_selected|]. by split. }
  destruct memberSpec as [ms|]; [|done].
  destruct (Name ms) as [podBaseName|] eqn:HN.
  2:{ unfold reconcileTeamMember. by rewrite HN. }
  rewrite (reconcileTeamMember_run _ _ _ _ podBaseName) by done. cbv zeta.
  change (clientList (client reconciler) (memberListOpts virtSquad memberName)
            st) with (Ok items, st). cbn [fst snd].
  set (c := int32 (Z.of_nat (length items))). set (d := desiredReplicasOf ms).
  set (mk := ownedPod virtSquad memberName podBaseName "VirtSquad").
  assert (Hmk : ∀ l, Forall (inGroup virtSquad memberName) (map mk l)).
  { intros l. apply Forall_forall. intros p Hp.
    apply list_elem_of_fmap in Hp as (i & -> & _). apply ownedPod_selected. }
  destruct (decide (c < d)) as [Hlt|Hge].
  - rewrite (scaleDown_skip _ items c d) by lia.
    unfold scaleUp. destruct (Z.ltb_spec c d) as [_|]; [|lia].
    rewrite (forEach_ext _ (λ i, Create reconciler (mk i)))
      by (intros; by rewrite (createPodForMember_known _ _ _ _ "VirtSquad")).
    destruct (create_loop_any mk (seqZ c (d - c)) st Hwf)
      as (k & Hwf1 & Hs1 & Hperm). cbv zeta in *.
    destruct (valueOf (forEach (λ i, Create reconciler (mk i))
                         (seqZ c (d - c)) st));
      cbn [valueOf worldOf traceOf fst snd];
      exists (map mk (take k (seqZ c (d - c)))), []; rewrite app_nil_r;
      (split; [done|]); (split; [done|]); (split; [done|]); by split.
  - rewrite scaleUp_skip by lia. cbn [valueOf worldOf traceOf fst snd].
    unfold scaleDown. destruct (c >? d).
    + set (victims := take (Z.to_nat (Z.min (int32 (c - d)) c)) items).
      destruct (delete_loop victims st Hwf) as (st' & Hrun & Hwf' & Hs' & Hperm).
      { eapply sublist_NoDup; [by apply listPods_NoDup|apply sublist_take]. }
      { apply Forall_take. apply listPods_stored. }
      rewrite Hrun. cbn [valueOf worldOf traceOf fst snd].
      exists [], victims. rewrite Hperm. split; [by rewrite (comm (++))|].
      split; [done|]. split; [|by split].
      apply Forall_take. apply listPods_selected.
    + cbn [valueOf worldOf traceOf fst snd]. exists [], [].
      rewrite app_nil_r.
      (split; [done|]); (split; [done|]); (split; [done|]); by split.
Qed.

(** X16.  Group independence.  Whatever its outcome, the reconciliation of
    one group leaves every pod outside that group's selector stored as it
    was, stores no new pod outside the selector, and leaves the squads
    untouched. *)
Theorem group_leaves_other_pods_alone
    virtSquad memberName memberSpec statusPods st k p :
  wf st →
  ¬ inGroup virtSquad memberName p →
  let out := reconcileTeamMember reconciler virtSquad memberName memberSpec
               statusPods st in
  (pods (worldOf out) !! k = Some p ↔ pods st !! k = Some p) ∧
  squads (worldOf out) = squads st.
Proof.
  intros Hwf Hp out.
  destruct (group_touches_only_group virtSquad memberName memberSpec
              statusPods st Hwf)
    as (added & removed & Hperm & Hadd & Hrem & Hwf' & Hs).
  fold out in Hperm, Hwf', Hs. split; [|done].
  assert (Hmem : p ∈ allPods (worldOf out) ↔ p ∈ allPods st).
  { assert (H1 : p ∉ added).
    { intros Hin. rewrite Forall_forall in Hadd. by apply Hp, Hadd. }
    assert (H2 : p ∉ removed).
    { intros Hin. rewrite Forall_forall in Hrem. by apply Hp, Hrem. }
    split; intros Hin.
    - assert (Hin' : p ∈ added ++ allPods st).
      { rewrite <- Hperm. apply elem_of_app. by left. }
      apply elem_of_app in Hin' as [?|?]; done.
    - assert (Hin' : p ∈ allPods (worldOf out) ++ removed).
      { rewrite Hperm. apply elem_of_app. by right. }
      apply elem_of_app in Hin' as [?|?]; done. }
  split; intros Hk.
  - assert (Hin : p ∈ allPods (worldOf out)) by (apply elem_of_allPods; eauto).
    apply Hmem in Hin. pose proof (wf_lookup st p Hwf Hin) as Hst.
    destruct Hwf' as [_ Hkeys]. by rewrite <- (Hkeys k p Hk).
  - assert (Hin : p ∈ allPods st) by (apply elem_of_allPods; eauto).
    apply Hmem in Hin. pose proof (wf_lookup _ p Hwf' Hin) as Hst.
    destruct Hwf as [_ Hkeys]. by rewrite <- (Hkeys k p Hk).
Qed.

(** X13.  Convergence of one group.  When the reconciliation of a group
    with a base name and a non-negative desired count returns no error, the
    store holds exactly the desired number of pods of the group. *)
Theorem group_reaches_desired_count
    virtSquad memberName ms podBaseName statusPods st :
  wf st →
  Name ms = Some podBaseName →
  0 ≤ desiredReplicasOf ms < 2 ^ 31 →
  Z.of_nat (count (inGroup virtSquad memberName) st) < 2 ^ 31 →
  let out := reconcileTeamMember reconciler virtSquad memberName (Some ms)
               statusPods st in
  (valueOf out).1 = None →
  Z.of_nat (count (inGroup virtSquad memberName) (worldOf out))
    = desiredReplicasOf ms.
Proof.
  intros Hwf HN Hd Hn out Hok.
  destruct (group_effect_raw virtSquad memberName (Some ms) statusPods st
              Hwf Hok)
    as (added & removed & Hperm & Hadd & _ & Hrem & _ & _ & _ & Hcase).
  fold out in Hperm.
  pose proof (count_balance (inGroup virtSquad memberName) _ _ _ _ Hperm)
    as Hbal.
  rewrite (filter_all _ _ Hadd), (filter_all _ _ Hrem) in Hbal.
  destruct ms as [[b|] replicas]; [|done]. cbv zeta in Hcase.
  set (d := desiredReplicasOf (mkTeamMemberSpec (Some b) replicas)) in *.
  change (listPods (memberListOpts virtSquad memberName) st)
    with (filter (inGroup virtSquad memberName) (allPods st)) in Hcase.
  fold (count (inGroup virtSquad memberName) st) in Hcase.
  set (n := count (inGroup virtSquad memberName) st) in *.
  rewrite (int32_small (Z.of_nat n)) in Hcase by (unfold is_int32; lia).
  destruct Hcase as (Hup & Hdown & Hsame).
  destruct (Z.lt_trichotomy (Z.of_nat n) d) as [Hlt|[Heq|Hgt]].
  - destruct (Hup Hlt) as [Hla ->]. cbn [length] in Hbal. lia.
  - destruct (Hsame Heq) as [-> ->]. cbn [length] in Hbal. lia.
  - destruct (Hdown Hgt) as [-> ->]. cbn [length] in Hbal.
    rewrite length_take in Hbal.
    rewrite (int32_small (Z.of_nat n - d)) in Hbal by (unfold is_int32; lia).
    fold (count (inGroup virtSquad memberName) st) in Hbal. fold n in Hbal.
    lia.
Qed.

(** X14.  An absent group, or one without base name, is emptied: against
    the store its reconciliation always succeeds, reports no member and
    leaves no pod of the group. *)
Theorem absent_group_is_emptied virtSquad memberName memberSpec statusPods st :
  wf st →
  (memberSpec = None ∨ ∃ ms, memberSpec = Some ms ∧ Name ms = None) →
  let out := reconcileTeamMember reconciler virtSquad memberName memberSpec
               statusPods st in
  valueOf out = (None, []) ∧
  count (inGroup virtSquad memberName) (worldOf out) = 0%nat.
Proof.
  intros Hwf Hspec out.
  assert (Heq : out = deleteTeamMemberPods reconciler virtSquad memberName
                        statusPods st).
  { unfold out. destruct Hspec as [->|(ms & -> & HN)]; [done|].
    unfold reconcileTeamMember. by rewrite HN. }
  rewrite Heq, deleteTeamMemberPods_run. cbv zeta.
  set (gopts := memberListOpts virtSquad memberName).
  change (clientList (client reconciler) gopts st)
    with (Ok (listPods gopts st), st). cbn [fst snd].
  destruct (delete_loop (listPods gopts st) st Hwf (listPods_NoDup gopts st Hwf)
              (listPods_stored gopts st)) as (st' & Hrun & _ & _ & Hperm).
  rewrite Hrun. cbn [valueOf worldOf traceOf fst snd]. split; [done|].
  pose proof (count_balance (inGroup virtSquad memberName) st st' []
                (listPods gopts st)) as Hbal.
  rewrite (filter_all _ _ (listPods_selected gopts st)) in Hbal.
  cbn [filter length] in Hbal.
  assert (Hc : count (inGroup virtSquad memberName) st
               = length (listPods gopts st)) by done.
  cut (count (inGroup virtSquad memberName) st' + length (listPods gopts st)
       = 0 + count (inGroup virtSquad memberName) st)%nat; [lia|].
  apply Hbal. rewrite Hperm. cbn. by rewrite (comm (++)).
Qed.

Lemma group_converged virtSquad g memberSpec statusPods st s P :
  wf s → untouched P st s → (∀ p, P p → ¬ inGroup virtSquad g p) →
  Z.of_nat (length (allPods st)) < 2 ^ 31 →
  replicasInRange memberSpec →
  let out := reconcileTeamMember reconciler virtSquad g memberSpec
               statusPods s in
  (valueOf out).1 = None →
  converged virtSquad g memberSpec (worldOf out).
Proof.
  intros Hwf Hun Hdis Hsize Hrange out Hok.
  assert (Hsame : count (inGroup virtSquad g) s = count (inGroup virtSquad g) st).
  { apply (Hun (inGroup virtSquad g) _). done. }
  pose proof (count_le_size (inGroup virtSquad g) st) as Hle.
  unfold converged.
  destruct memberSpec as [ms|].
  - destruct (Name ms) as [b|] eqn:HN.
    + intros Hd. apply (group_reaches_desired_count _ _ _ b); try done.
      * unfold replicasInRange, is_int32 in Hrange. lia.
      * lia.
    + apply absent_group_is_emptied; [done|]. right. by exists ms.
  - apply absent_group_is_emptied; [done|]. by left.
Qed.

Lemma converged_later virtSquad g memberSpec s s' P :
  converged virtSquad g memberSpec s →
  untouched P s s' → (∀ p, P p → ¬ inGroup virtSquad g p) →
  converged virtSquad g memberSpec s'.
Proof.
  intros Hc Hun Hdis. unfold converged in *.
  by rewrite (Hun (inGroup virtSquad g) _).
Qed.

Lemma converged_same virtSquad virtSquad' g memberSpec st sq :
  SquadName virtSquad' = SquadName virtSquad →
  SquadNamespace virtSquad' = SquadNamespace virtSquad →
  converged virtSquad' g memberSpec st →
  converged virtSquad g memberSpec (mkState sq (pods st)).
Proof.
  intros Hn Hs Hc. unfold converged in *.
  rewrite count_same_pods.
  by rewrite <- (inGroup_same virtSquad virtSquad' g Hn Hs st).
Qed.

Lemma members_converge virtSquad st :
  wf st →
  Z.of_nat (length (allPods st)) < 2 ^ 31 →
  specInRange (Spec virtSquad) →
  let m := reconcileMembers reconciler virtSquad st in
  (valueOf m).2 = None →
  ∃ s4, pods (worldOf m) = pods s4 ∧
    converged virtSquad "oksana" (Oksana (Spec virtSquad)) s4 ∧
    converged virtSquad "kurtis" (Kurtis (Spec virtSquad)) s4 ∧
    converged virtSquad "matt" (Matt (Spec virtSquad)) s4 ∧
    converged virtSquad "kike" (Kike (Spec virtSquad)) s4.
Proof.
  intros Hwf Hsize (R1 & R2 & R3 & R4) m. unfold m.
  rewrite reconcileMembers_run. cbv zeta.
  set (o1 := reconcileTeamMember reconciler virtSquad "oksana" _ _ st).
  pose proof (group_step virtSquad "oksana" (Oksana (Spec virtSquad)) [] st st
                (λ _, False) Hwf (untouched_refl _ st)) as H1.
  pose proof (group_converged virtSquad "oksana" (Oksana (Spec virtSquad)) []
                st st (λ _, False) Hwf (untouched_refl _ st)) as C1.
  fold o1 in H1, C1. cbv zeta in H1, C1.
  destruct (valueOf o1).1 as [err|] eqn:E1; [done|].
  destruct H1 as (Hwf1 & Hs1 & Hu1 & _); [done|done|].
  specialize (C1 ltac:(done) Hsize R1 eq_refl).
  set (o2 := reconcileTeamMember reconciler virtSquad "kurtis" _ _ (worldOf o1)).
  pose proof (group_step virtSquad "kurtis" (Kurtis (Spec virtSquad)) [] st
                (worldOf o1) (inGroup virtSquad "oksana") Hwf1 Hu1) as H2.
  pose proof (group_converged virtSquad "kurtis" (Kurtis (Spec virtSquad)) []
                st (worldOf o1) (inGroup virtSquad "oksana") Hwf1 Hu1) as C2.
  fold o2 in H2, C2. cbv zeta in H2, C2.
  destruct (valueOf o2).1 as [err|] eqn:E2; [done|].
  destruct H2 as (Hwf2 & Hs2 & Hu2 & _); [other_group|done|].
  specialize (C2 ltac:(other_group) Hsize R2 eq_refl).
  pose proof (untouched_step _ _ _ _ _ Hu1 Hu2) as Hu12.
  set (o3 := reconcileTeamMember reconciler virtSquad "matt" _ _ (worldOf o2)).
  pose proof (group_step virtSquad "matt" (Matt (Spec virtSquad)) [] st
                (worldOf o2) _ Hwf2 Hu12) as H3.
  pose proof (group_converged virtSquad "matt" (Matt (Spec virtSquad)) []
                st (worldOf o2) _ Hwf2 Hu12) as C3.
  fold o3 in H3, C3. cbv zeta in H3, C3.
  destruct (valueOf o3).1 as [err|] eqn:E3; [done|].
  destruct H3 as (Hwf3 & Hs3 & Hu3 & _); [other_group|done|].
  specialize (C3 ltac:(other_group) Hsize R3 eq_refl).
  pose proof (untouched_step _ _ _ _ _ Hu12 Hu3) as Hu123.
  set (o4 := reconcileTeamMember reconciler virtSquad "kike" _ _ (worldOf o3)).
  pose proof (group_step virtSquad "kike" (Kike (Spec virtSquad)) [] st
                (worldOf o3) _ Hwf3 Hu123) as H4.
  pose proof (group_converged virtSquad "kike" (Kike (Spec virtSquad)) []
                st (worldOf o3) _ Hwf3 Hu123) as C4.
  fold o4 in H4, C4. cbv zeta in H4, C4.
  destruct (valueOf o4).1 as [err|] eqn:E4; [done|].
  destruct H4 as (Hwf4 & Hs4 & Hu4 & _); [other_group|done|].
  specialize (C4 ltac:(other_group) Hsize R4 eq_refl).
  intros _. exists (worldOf o4). split.
  { rewrite updateStatus_run. cbv zeta. cbn [worldOf fst snd].
    set (obj := withStatus virtSquad _).
    change (clientStatusUpdate (client reconciler) obj
              (clientList (client reconciler) (squadListOpts virtSquad)
                 (worldOf o4)).2)
      with (apiStatusUpdate obj (worldOf o4)).
    unfold apiStatusUpdate. by destruct (squads (worldOf o4) !! squadKey obj). }
  split; [|split; [|split; [|done]]].
  - eapply converged_later; [|exact Hu4|other_group].
    eapply converged_later; [|exact Hu3|other_group].
    eapply converged_later; [|exact Hu2|other_group]. done.
  - eapply converged_later; [|exact Hu4|other_group].
    eapply converged_later; [|exact Hu3|other_group]. done.
  - eapply converged_later; [|exact Hu4|other_group]. done.
Qed.

(** X18.  Convergence of a pass.  Against the store (keyed by namespace and
    name, fewer than 2^31 pods, int32 replica counts), when a pass over a
    stored, non-deleting resource returns no error, every group with a base
    name and a non-negative replica count holds exactly that many pods, and
    every absent group, or group without base name, holds none. *)
Theorem successful_pass_converges req st virtSquad :
  wf st →
  Z.of_nat (length (allPods st)) < 2 ^ 31 →
  squads st !! (ReqNamespace req, ReqName req) = Some virtSquad →
  DeletionTimestamp virtSquad = None →
  specInRange (Spec virtSquad) →
  let out := Reconcile reconciler req st in
  (valueOf out).2 = None →
  converged virtSquad "oksana" (Oksana (Spec virtSquad)) (worldOf out) ∧
  converged virtSquad "kurtis" (Kurtis (Spec virtSquad)) (worldOf out) ∧
  converged virtSquad "matt" (Matt (Spec virtSquad)) (worldOf out) ∧
  converged virtSquad "kike" (Kike (Spec virtSquad)) (worldOf out).
Proof.
  intros Hwf Hsize Hk HD Hrange out. unfold out.
  assert (Hfinish : ∀ v s,
    SquadName v = SquadName virtSquad →
    SquadNamespace v = SquadNamespace virtSquad →
    Spec v = Spec virtSquad →
    wf s → Z.of_nat (length (allPods s)) < 2 ^ 31 →
    (valueOf (reconcileMembers reconciler v s)).2 = None →
    converged virtSquad "oksana" (Oksana (Spec virtSquad))
      (worldOf (reconcileMembers reconciler v s)) ∧
    converged virtSquad "kurtis" (Kurtis (Spec virtSquad))
      (worldOf (reconcileMembers reconciler v s)) ∧
    converged virtSquad "matt" (Matt (Spec virtSquad))
      (worldOf (reconcileMembers reconciler v s)) ∧
    converged virtSquad "kike" (Kike (Spec virtSquad))
      (worldOf (reconcileMembers reconciler v s))).
  { intros v s Hn Hs Hsp Hwfs Hsz Hok.
    destruct (members_converge v s Hwfs Hsz) as (s4 & Hp & C1 & C2 & C3 & C4);
      [by rewrite Hsp|done|].
    rewrite Hsp in C1, C2, C3, C4.
    destruct (worldOf (reconcileMembers reconciler v s)) as [sq ps].
    cbn in Hp. subst ps.
    repeat split; by apply (converged_same virtSquad v). }
  rewrite Reconcile_run, apiGet_run, Hk. cbv zeta. cbn [fst snd]. rewrite HD.
  destruct (ContainsFinalizer virtSquad virtSquadFinalizer) eqn:HF.
  - cbn [valueOf worldOf fst snd]. by apply Hfinish.
  - assert (Hkey : squadKey virtSquad = (ReqNamespace req, ReqName req)).
    { destruct Hwf as [Hsq _]. exact (Hsq _ _ Hk). }
    set (marked := AddFinalizer virtSquad virtSquadFinalizer).
    change (clientUpdate (client reconciler) marked st)
      with (apiUpdate marked st).
    unfold apiUpdate.
    assert (Hm : squadKey marked = (ReqNamespace req, ReqName req)).
    { unfold marked, AddFinalizer. by rewrite HF. }
    rewrite Hm, Hk. cbv zeta. rewrite HD.
    replace (bool_decide (is_Some (@None Z))) with false
      by (symmetry; apply bool_decide_eq_false; by intros [? ?]).
    cbn [andb fst snd valueOf worldOf].
    apply Hfinish; try done;
      try (unfold marked, AddFinalizer; by rewrite HF).
    destruct Hwf as [Hsq Hp]. split; [|done].
    cbn. apply map_Forall_insert_2; [|done]. exact Hm.
Qed.

End StoreProperties.

(** * The further properties at sample inputs *)

Module ExtraWitness.
Import Sample.

Lemma get_error_ends_pass_at_sample :
  let st := Cluster.stateOf [] [] in
  clientGet (client Cluster.reconciler) req st = (Fail ErrNotFound, st) ∧
  Reconcile Cluster.reconciler req st =
    ((emptyResult, None), st, [EvGet req (Fail ErrNotFound)]).
Proof.
  intros st.
  assert (H1 : clientGet (client Cluster.reconciler) req st
               = (Fail ErrNotFound, st)) by reflexivity.
  split; [exact H1|].
  exact (get_error_ends_pass Cluster.reconciler req st ErrNotFound st H1).
Defined.

Lemma deleting_pass_only_finalizes_at_sample :
  let sq := squad true marker noGroups in
  let st := Cluster.stateOf [sq] [worker "oksana" "a-0" true] in
  (clientGet (client Cluster.reconciler) req st = (Ok sq, st) ∧
   DeletionTimestamp sq = Some 1) ∧
  ∃ t u,
    traceOf (Reconcile Cluster.reconciler req st) = EvGet req (Ok sq) :: t ++ u ∧
    Forall (λ e, kindOf e = KDelete ∨
                 ∃ res, e = EvList (squadListOpts sq) res) t ∧
    (u = [] ∨ ∃ res, u = [EvUpdate (RemoveFinalizer sq virtSquadFinalizer) res]).
Proof.
  intros sq st.
  assert (H1 : clientGet (client Cluster.reconciler) req st = (Ok sq, st))
    by (vm_compute; reflexivity).
  assert (H2 : DeletionTimestamp sq = Some 1) by reflexivity.
  split; [exact (conj H1 H2)|].
  exact (deleting_pass_only_finalizes Cluster.reconciler req st sq st 1 H1 H2).
Defined.

Lemma failed_call_ends_group_at_sample :
  let sq := squad false marker (oksanaOnly "a" 2) in
  let st := Cluster.stateOf [sq] [worker "oksana" "a-1" false] in
  let out := reconcileTeamMember Cluster.reconciler sq "oksana"
               (group "a" 2) [] st in
  let c := EvCreate (ownedPod sq "oksana" "a" "VirtSquad" 1)
             (Some ErrAlreadyExists) in
  (traceOf out = take 1 (traceOf out) ++ c :: [] ∧
   answerOf c = Some ErrAlreadyExists) ∧
  @nil Event = [] ∧ valueOf out = (Some ErrAlreadyExists, []).
Proof.
  intros sq st out c.
  assert (H1 : traceOf out = take 1 (traceOf out) ++ c :: [])
    by (vm_compute; reflexivity).
  assert (H2 : answerOf c = Some ErrAlreadyExists) by reflexivity.
  split; [exact (conj H1 H2)|].
  exact (failed_call_ends_group Cluster.reconciler sq "oksana" (group "a" 2) []
           st _ c [] ErrAlreadyExists H1 H2).
Defined.

Lemma failed_write_ends_pass_at_sample :
  let sq := squad false marker (oksanaOnly "a" 2) in
  let st := Cluster.stateOf [sq] [worker "oksana" "a-1" false] in
  let out := Reconcile Cluster.reconciler req st in
  let c := EvCreate (ownedPod sq "oksana" "a" "VirtSquad" 1)
             (Some ErrAlreadyExists) in
  (traceOf out = take 2 (traceOf out) ++ c :: [] ∧ isWrite c ∧
   answerOf c = Some ErrAlreadyExists) ∧
  @nil Event = [] ∧ (valueOf out).2 = Some ErrAlreadyExists.
Proof.
  intros sq st out c.
  assert (H1 : traceOf out = take 2 (traceOf out) ++ c :: [])
    by (vm_compute; reflexivity).
  assert (H2 : isWrite c) by (by left).
  assert (H3 : answerOf c = Some ErrAlreadyExists) by reflexivity.
  split; [exact (conj H1 (conj H2 H3))|].
  exact (failed_write_ends_pass Cluster.reconciler req st _ c []
           ErrAlreadyExists H1 H2 H3).
Defined.

Lemma created_pods_are_owned_pods_at_sample :
  let sq := squad false marker (oksanaOnly "a" 2) in
  let st := Cluster.stateOf [sq] [] in
  let out := reconcileTeamMember Cluster.reconciler sq "oksana"
               (group "a" 2) [] st in
  let pod := ownedPod sq "oksana" "a" "VirtSquad" 1 in
  EvCreate pod None ∈ traceOf out ∧
  ∃ ms podBaseName kind items i,
    group "a" 2 = Some ms ∧ Name ms = Some podBaseName ∧
    virtSquadKind (scheme Cluster.reconciler) = Some kind ∧
    (clientList (client Cluster.reconciler) (memberListOpts sq "oksana") st).1
      = Ok items ∧
    int32 (Z.of_nat (length items)) ≤ i < desiredReplicasOf ms ∧
    pod = mkPod (podBaseName +:+ "-" +:+ pretty i) (SquadNamespace sq)
            (memberLabels sq "oksana")
            [mkOwnerReference kind (SquadName sq) true]
            [mkContainer "oksana" "nginx:latest" [mkContainerPort 80 "http"]]
            [].
Proof.
  intros sq st out pod.
  assert (H1 : EvCreate pod None ∈ traceOf out).
  { apply (list_elem_of_lookup_2 _ 2). vm_compute. reflexivity. }
  split; [exact H1|].
  exact (created_pods_are_owned_pods Cluster.reconciler sq "oksana"
           (group "a" 2) [] st pod None H1).
Defined.

Lemma pass_deletes_only_listed_pods_at_sample :
  let sq := squad false marker (oksanaOnly "a" 0) in
  let st := Cluster.stateOf [sq] [worker "oksana" "a-0" false] in
  let out := Reconcile Cluster.reconciler req st in
  let pod := worker "oksana" "a-0" false in
  traceOf out = take 2 (traceOf out) ++ EvDelete pod None :: drop 3 (traceOf out) ∧
  ∃ opts items, EvList opts (Ok items) ∈ take 2 (traceOf out) ∧ pod ∈ items.
Proof.
  intros sq st out pod.
  assert (H1 : traceOf out =
               take 2 (traceOf out) ++ EvDelete pod None :: drop 3 (traceOf out))
    by (vm_compute; reflexivity).
  split; [exact H1|].
  exact (pass_deletes_only_listed_pods Cluster.reconciler req st _ pod None _
           H1).
Defined.

Lemma scale_down_deletes_first_listed_at_sample :
  let sq := squad false marker (oksanaOnly "a" 0) in
  let st := Cluster.stateOf [sq] [worker "oksana" "a-0" false] in
  let ms := mkTeamMemberSpec (Some "a") (Some 0) in
  let items := Cluster.listPods (memberListOpts sq "oksana") st in
  let out := reconcileTeamMember Cluster.reconciler sq "oksana" (Some ms) [] st in
  (Name ms = Some "a" ∧
   clientList (client Cluster.reconciler) (memberListOpts sq "oksana") st
     = (Ok items, st) ∧
   0 ≤ desiredReplicasOf ms < Z.of_nat (length items) ∧
   Z.of_nat (length items) < 2 ^ 31 ∧
   (valueOf out).1 = None) ∧
  traceOf out =
    EvList (memberListOpts sq "oksana") (Ok items) ::
    map (λ p, EvDelete p None)
        (take (length items - Z.to_nat (desiredReplicasOf ms)) items).
Proof.
  intros sq st ms items out.
  assert (H1 : Name ms = Some "a") by reflexivity.
  assert (H2 : clientList (client Cluster.reconciler)
                 (memberListOpts sq "oksana") st = (Ok items, st))
    by reflexivity.
  assert (H3 : 0 ≤ desiredReplicasOf ms < Z.of_nat (length items))
    by (vm_compute; split; congruence).
  assert (H4 : Z.of_nat (length items) < 2 ^ 31) by (vm_compute; reflexivity).
  assert (H5 : (valueOf out).1 = None) by (vm_compute; reflexivity).
  split; [exact (conj H1 (conj H2 (conj H3 (conj H4 H5))))|].
  exact (scale_down_deletes_first_listed Cluster.reconciler sq "oksana" ms "a"
           [] st items st H1 H2 H3 H4 H5).
Defined.

Lemma at_desired_count_only_lists_at_sample :
  let sq := squad false marker (oksanaOnly "a" 1) in
  let st := Cluster.stateOf [sq] [worker "oksana" "a-0" false] in
  let ms := mkTeamMemberSpec (Some "a") (Some 1) in
  let items := Cluster.listPods (memberListOpts sq "oksana") st in
  (Name ms = Some "a" ∧
   clientList (client Cluster.reconciler) (memberListOpts sq "oksana") st
     = (Ok items, st) ∧
   int32 (Z.of_nat (length items)) = desiredReplicasOf ms) ∧
  reconcileTeamMember Cluster.reconciler sq "oksana" (Some ms) [] st =
    ((None, map PodName items), st,
     [EvList (memberListOpts sq "oksana") (Ok items)]).
Proof.
  intros sq st ms items.
  assert (H1 : Name ms = Some "a") by reflexivity.
  assert (H2 : clientList (client Cluster.reconciler)
                 (memberListOpts sq "oksana") st = (Ok items, st))
    by reflexivity.
  assert (H3 : int32 (Z.of_nat (length items)) = desiredReplicasOf ms)
    by (vm_compute; reflexivity).
  split; [exact (conj H1 (conj H2 H3))|].
  exact (at_desired_count_only_lists Cluster.reconciler sq "oksana" ms "a" []
           st items st H1 H2 H3).
Defined.

Lemma status_written_by_pass_at_sample :
  let sq := squad false marker (oksanaOnly "a" 1) in
  let st := Cluster.stateOf [sq] [worker "oksana" "a-0" true] in
  let out := reconcileMembers Cluster.reconciler sq st in
  ∃ obj res,
    EvStatusUpdate obj res ∈ traceOf out ∧
    TotalPods (Status obj) =
      int32 (Z.of_nat (length (OksanaPods (Status obj)) +
                       length (KurtisPods (Status obj)) +
                       length (MattPods (Status obj)) +
                       length (KikePods (Status obj)))%nat) ∧
    valueOf out = (emptyResult, answer res).
Proof.
  intros sq st out.
  assert (Hlast : ∃ obj res, last (traceOf out) = Some (EvStatusUpdate obj res)).
  { vm_compute. eexists _, _. reflexivity. }
  destruct Hlast as (obj & res & Hlast).
  exists obj, res.
  assert (H1 : EvStatusUpdate obj res ∈ traceOf out).
  { apply last_Some_elem_of. exact Hlast. }
  split; [exact H1|].
  destruct (status_written_by_pass Cluster.reconciler sq st obj res H1)
    as (t & lw & _ & _ & Htotal & _ & Hv).
  exact (conj Htotal Hv).
Defined.

Lemma update_only_changes_marker_at_sample :
  let sq := squad false [] (oksanaOnly "a" 1) in
  let st := Cluster.stateOf [sq] [] in
  clientGet (client Cluster.reconciler) req st = (Ok sq, st) ∧
  (length (filter (λ e, kindOf e = KUpdate)
             (traceOf (Reconcile Cluster.reconciler req st))) ≤ 1)%nat.
Proof.
  intros sq st.
  assert (H1 : clientGet (client Cluster.reconciler) req st = (Ok sq, st))
    by (vm_compute; reflexivity).
  split; [exact H1|].
  exact (proj1 (update_only_changes_marker Cluster.reconciler req st sq st H1)).
Defined.

Lemma sample_wf (os : list VirtSquad) (ps : list Pod) :
  bool_decide (Cluster.wf (Cluster.stateOf os ps)) = true →
  Cluster.wf (Cluster.stateOf os ps).
Proof. apply bool_decide_eq_true. Defined.

Lemma group_leaves_other_pods_alone_at_sample :
  let sq := squad false marker (oksanaOnly "a" 0) in
  let other := worker "kurtis" "b-0" false in
  let st := Cluster.stateOf [sq] [worker "oksana" "a-0" false; other] in
  let out := reconcileTeamMember Cluster.reconciler sq "oksana"
               (group "a" 0) [] st in
  (Cluster.wf st ∧ ¬ Cluster.inGroup sq "oksana" other) ∧
  (Cluster.pods (worldOf out) !! ("default", "b-0") = Some other ↔
   Cluster.pods st !! ("default", "b-0") = Some other).
Proof.
  intros sq other st out.
  assert (H1 : Cluster.wf st) by (apply sample_wf; vm_compute; reflexivity).
  assert (H2 : ¬ Cluster.inGroup sq "oksana" other).
  { intros Hin. apply ClusterFacts.inGroup_iff in Hin as [_ Hm].
    vm_compute in Hm. congruence. }
  split; [exact (conj H1 H2)|].
  exact (proj1 (StoreProperties.group_leaves_other_pods_alone sq "oksana"
                  (group "a" 0) [] st ("default", "b-0") other H1 H2)).
Defined.

Lemma group_reaches_desired_count_at_sample :
  let sq := squad false marker (oksanaOnly "a" 2) in
  let st := Cluster.stateOf [sq] [worker "oksana" "a-0" true] in
  let ms := mkTeamMemberSpec (Some "a") (Some 2) in
  let out := reconcileTeamMember Cluster.reconciler sq "oksana" (Some ms) [] st in
  (Cluster.wf st ∧ Name ms = Some "a" ∧ 0 ≤ desiredReplicasOf ms < 2 ^ 31 ∧
   Z.of_nat (Cluster.count (Cluster.inGroup sq "oksana") st) < 2 ^ 31 ∧
   (valueOf out).1 = None) ∧
  Z.of_nat (Cluster.count (Cluster.inGroup sq "oksana") (worldOf out)) = 2.
Proof.
  intros sq st ms out.
  assert (H1 : Cluster.wf st) by (apply sample_wf; vm_compute; reflexivity).
  assert (H2 : Name ms = Some "a") by reflexivity.
  assert (H3 : 0 ≤ desiredReplicasOf ms < 2 ^ 31)
    by (vm_compute; split; congruence).
  assert (H4 : Z.of_nat (Cluster.count (Cluster.inGroup sq "oksana") st) < 2 ^ 31)
    by (vm_compute; reflexivity).
  assert (H5 : (valueOf out).1 = None) by (vm_compute; reflexivity).
  split; [exact (conj H1 (conj H2 (conj H3 (conj H4 H5))))|].
  exact (StoreProperties.group_reaches_desired_count sq "oksana" ms "a" [] st
           H1 H2 H3 H4 H5).
Defined.

Lemma absent_group_is_emptied_at_sample :
  let sq := squad false marker noGroups in
  let st := Cluster.stateOf [sq] [worker "oksana" "a-0" true] in
  let out := reconcileTeamMember Cluster.reconciler sq "oksana" None [] st in
  (Cluster.wf st ∧
   (@None TeamMemberSpec = None ∨
    ∃ ms, @None TeamMemberSpec = Some ms ∧ Name ms = None)) ∧
  valueOf out = (None, []) ∧
  Cluster.count (Cluster.inGroup sq "oksana") (worldOf out) = 0%nat.
Proof.
  intros sq st out.
  assert (H1 : Cluster.wf st) by (apply sample_wf; vm_compute; reflexivity).
  assert (H2 : @None TeamMemberSpec = None ∨
               ∃ ms, @None TeamMemberSpec = Some ms ∧ Name ms = None)
    by (left; reflexivity).
  split; [exact (conj H1 H2)|].
  exact (StoreProperties.absent_group_is_emptied sq "oksana" None [] st H1 H2).
Defined.

Lemma deleting_pass_leaves_no_worker_at_sample :
  let sq := squad true marker noGroups in
  let st := Cluster.stateOf [sq] [worker "oksana" "a-0" true;
                                  worker "kurtis" "b-0" false] in
  let out := Reconcile Cluster.reconciler req st in
  (Cluster.wf st ∧
   Cluster.squads st !! (ReqNamespace req, ReqName req) = Some sq ∧
   DeletionTimestamp sq = Some 1 ∧
   ContainsFinalizer sq virtSquadFinalizer = true) ∧
  valueOf out = (emptyResult, None) ∧
  Cluster.listPods (squadListOpts sq) (worldOf out) = [].
Proof.
  intros sq st out.
  assert (H1 : Cluster.wf st) by (apply sample_wf; vm_compute; reflexivity).
  assert (H2 : Cluster.squads st !! (ReqNamespace req, ReqName req) = Some sq)
    by (vm_compute; reflexivity).
  assert (H3 : DeletionTimestamp sq = Some 1) by reflexivity.
  assert (H4 : ContainsFinalizer sq virtSquadFinalizer = true)
    by (vm_compute; reflexivity).
  split; [exact (conj H1 (conj H2 (conj H3 H4)))|].
  destruct (deleting_pass_leaves_no_worker req st sq 1 H1 H2 H3 H4)
    as (Hv & Hl & _).
  exact (conj Hv Hl).
Defined.

Lemma successful_pass_converges_at_sample :
  let sq := squad false marker (oksanaOnly "a" 2) in
  let st := Cluster.stateOf [sq] [worker "oksana" "a-0" true] in
  let out := Reconcile Cluster.reconciler req st in
  (Cluster.wf st ∧
   Z.of_nat (length (Cluster.allPods st)) < 2 ^ 31 ∧
   Cluster.squads st !! (ReqNamespace req, ReqName req) = Some sq ∧
   DeletionTimestamp sq = None ∧
   specInRange (Spec sq) ∧
   (valueOf out).2 = None) ∧
  Cluster.converged sq "oksana" (Oksana (Spec sq)) (worldOf out).
Proof.
  intros sq st out.
  assert (H1 : Cluster.wf st) by (apply sample_wf; vm_compute; reflexivity).
  assert (H2 : Z.of_nat (length (Cluster.allPods st)) < 2 ^ 31)
    by (vm_compute; reflexivity).
  assert (H3 : Cluster.squads st !! (ReqNamespace req, ReqName req) = Some sq)
    by (vm_compute; reflexivity).
  assert (H4 : DeletionTimestamp sq = None) by reflexivity.
  assert (H5 : specInRange (Spec sq))
    by (repeat split; vm_compute; congruence).
  assert (H6 : (valueOf out).2 = None) by (vm_compute; reflexivity).
  split; [exact (conj H1 (conj H2 (conj H3 (conj H4 (conj H5 H6)))))|].
  exact (proj1 (StoreProperties.successful_pass_converges req st sq
                  H1 H2 H3 H4 H5 H6)).
Defined.

End ExtraWitness.
